(** * rc-sim: the fitted-model flight simulator and the model-building script

    A shallow embedding of [lib/simulator.py] and of the two passes of
    [build_full_model.py] over the flight log, with the properties of the
    design document stated over it.

    Conventions of the embedding.
    - Python floats are real numbers ([R]); rounding is outside the model.
    - A Python exception is a value: every operation that can raise returns
      an [outcome], and the exception kind is kept ([KeyError], [IndexError],
      [ValueError], [AttributeError], ...).
    - A division by zero raises nothing on numpy floats: the quotient is
      [inf], [-inf] or [nan].  The model follows an infinity as far as the
      code brings it back to a real number (the clamp of the trigonometric
      branch does); where a value that is no real number would be stored,
      the model stops with the marker [NonFinite], which stands for no
      exception.
    - Objects are records and mutation is explicit state passing.
    - [np.random.rand] reads an explicit stream of uniform draws.
    - The modules [lib/state_mgr.py], [lib/quaternion.py] and
      [lib/constants.py] are not among the sources; what the simulator needs
      from them is modelled from the design document and marked so. *)

From Stdlib Require Import Reals Lra Lia List String Bool Arith.
Import ListNotations.
Open Scope string_scope.
Open Scope list_scope.
Open Scope R_scope.

(* ================================================================== *)
(** * Exceptions *)

(** The ways a modelled run ends early: the Python exceptions the code can
    raise, and [NonFinite], which is not an exception but the point where a
    float value stops being a real number. *)
Inductive exn : Type :=
| KeyError (key : string)
| IndexError
| ValueError
| NonFinite
| AttributeError
| TypeError
| NameError.

Inductive outcome (A : Type) : Type :=
| Ok (a : A)
| Raise (e : exn).
Arguments Ok {A} a.
Arguments Raise {A} e.

Definition bind {A B : Type} (m : outcome A) (k : A -> outcome B) : outcome B :=
  match m with
  | Ok a => k a
  | Raise e => Raise e
  end.

Notation "x <- m ;; k" := (bind m (fun x => k))
  (at level 61, m at next level, right associativity).
Notation "' p <- m ;; k" := (bind m (fun x => let p := x in k))
  (at level 61, p pattern, m at next level, right associativity).

Definition is_ok {A : Type} (m : outcome A) : bool :=
  match m with Ok _ => true | Raise _ => false end.

(** A numpy float as far as the model follows it: a real number, an
    infinity or [nan]. *)
Inductive np_float : Type :=
| Finite (x : R)
| PosInf
| NegInf
| NaN.

(** [x / y] on numpy floats.  A zero divisor raises nothing: the quotient
    is [inf] or [-inf] by the sign of the dividend, and [nan] for [0 / 0],
    with a warning.  (The zero divisor is [+0.0]; the reals have no [-0.0].) *)
Definition np_div (x y : R) : np_float :=
  if Req_dec_T y 0 then
    if Rlt_dec 0 x then PosInf
    else if Rlt_dec x 0 then NegInf
    else NaN
  else Finite (x / y).

(** The model goes on with real numbers only. *)
Definition finite (v : np_float) : outcome R :=
  match v with
  | Finite x => Ok x
  | _ => Raise NonFinite
  end.

(** A quotient that is used as a real number. *)
Definition div (x y : R) : outcome R := finite (np_div x y).

(** An attribute that is still [None] (or not yet assigned) cannot be used. *)
Definition attr {A : Type} (o : option A) : outcome A :=
  match o with Some a => Ok a | None => Raise AttributeError end.

(** [l[i]] on a list or array. *)
Definition index {A : Type} (l : list A) (i : nat) : outcome A :=
  match nth_error l i with Some a => Ok a | None => Raise IndexError end.

(* ================================================================== *)
(** * Name-keyed dictionaries *)

Definition dict : Type := list (string * R).

(** [d[k] = v]: replaces the value of an existing key in place, appends a
    new key at the end. *)
Fixpoint dict_set (d : dict) (k : string) (v : R) : dict :=
  match d with
  | [] => [(k, v)]
  | (k', v') :: t =>
      if String.eqb k' k then (k, v) :: t else (k', v') :: dict_set t k v
  end.

(** [k in d] *)
Fixpoint dict_has (d : dict) (k : string) : bool :=
  match d with
  | [] => false
  | (k', _) :: t => if String.eqb k' k then true else dict_has t k
  end.

(** [d[k]] *)
Fixpoint dict_get (d : dict) (k : string) : outcome R :=
  match d with
  | [] => Raise (KeyError k)
  | (k', v) :: t => if String.eqb k' k then Ok v else dict_get t k
  end.

(* ================================================================== *)
(** * Vectors, matrices and scalar helpers *)

Definition Vec3 : Type := (R * R * R)%type.

Definition vadd (a b : Vec3) : Vec3 :=
  let '(x, y, z) := a in let '(x', y', z') := b in (x + x', y + y', z + z').

(** [np.linalg.norm] of a 3-vector. *)
Definition norm3 (x y z : R) : R := sqrt (x * x + y * y + z * z).

(** [np.sign] *)
Definition sign (x : R) : R :=
  if Rlt_dec x 0 then -1 else if Rlt_dec 0 x then 1 else 0.

Fixpoint dot (row v : list R) : R :=
  match row, v with
  | a :: row', b :: v' => a * b + dot row' v'
  | _, _ => 0
  end.

(** [A @ state]: every row must be as long as the vector. *)
Fixpoint matvec (A : list (list R)) (v : list R) : outcome (list R) :=
  match A with
  | [] => Ok []
  | row :: rest =>
      if Nat.eqb (List.length row) (List.length v)
      then (t <- matvec rest v ;; Ok (dot row v :: t))
      else Raise ValueError
  end.

(** The rows of a row-major flat array: [rows] chunks of [cols] entries. *)
Fixpoint chunks (cols rows : nat) (flat : list R) : list (list R) :=
  match rows with
  | O => []
  | S r => firstn cols flat :: chunks cols r (skipn cols flat)
  end.

(** [np.array(flat).reshape(rows, cols)]: raises unless the sizes agree. *)
Definition reshape (flat : list R) (rows cols : nat) : outcome (list (list R)) :=
  if Nat.eqb (List.length flat) (rows * cols)
  then Ok (chunks cols rows flat)
  else Raise ValueError.

(** [math.asin]: a domain error outside [-1, 1]. *)
Definition py_asin (x : R) : outcome R :=
  if Rlt_dec x (-1) then Raise ValueError
  else if Rlt_dec 1 x then Raise ValueError
  else Ok (asin x).

(** [math.atan2 y x], by quadrant. *)
Definition atan2 (y x : R) : R :=
  if Rlt_dec 0 x then atan (y / x)
  else if Rlt_dec x 0 then
         (if Rlt_dec y 0 then atan (y / x) - PI else atan (y / x) + PI)
  else if Rlt_dec 0 y then PI / 2
  else if Rlt_dec y 0 then - (PI / 2)
  else 0.

(* ================================================================== *)
(** * Random numbers *)

(** The generator behind [np.random.rand]: an endless stream of uniform
    draws, read from the front. *)
Definition Rng : Type := nat -> R.

(** [np.random.rand(n)]: the next [n] draws, and the stream that is left. *)
Definition rand (g : Rng) (n : nat) : list R * Rng :=
  (map g (seq 0 n), fun k => g (n + k)%nat).

(* ================================================================== *)
(** * lib/constants.py and lib/quaternion.py *)

Module constants.

(** Modelled from the spec: [lib/constants.py] is not among the sources;
    [d2r] is the degrees-to-radians factor behind the design's 25 degree
    envelope, [r2d] its inverse, [kt2mps] the knots to metres-per-second
    factor, and [rho] the fixed sea-level air density of the dynamic
    pressure [qbar = 0.5 * rho * airspeed^2]. *)
Definition d2r : R := PI / 180.
Definition r2d : R := 180 / PI.
Definition kt2mps : R := 1852 / 3600.
Definition rho : R := 1225 / 1000.

End constants.

Module quaternion.

Record Quat : Type := mkQuat { q0 : R; q1 : R; q2 : R; q3 : R }.



(** Modelled from the spec: [lib/quaternion.py] is not among the sources.
    [eul2quat phi the psi] is the rotation with roll [phi], pitch [the] and
    yaw [psi] (the small-angle rotation of the attitude step when the
    angles are [(p, q, r) * dt]), in the usual aerospace yaw-pitch-roll
    convention. *)
Definition eul2quat (phi the psi : R) : Quat :=
  let sphi := sin (phi / 2) in let cphi := cos (phi / 2) in
  let sthe := sin (the / 2) in let cthe := cos (the / 2) in
  let spsi := sin (psi / 2) in let cpsi := cos (psi / 2) in
  mkQuat (cphi * cthe * cpsi + sphi * sthe * spsi)
         (sphi * cthe * cpsi - cphi * sthe * spsi)
         (cphi * sthe * cpsi + sphi * cthe * spsi)
         (cphi * cthe * spsi - sphi * sthe * cpsi).

(** Modelled from the spec: the composition of two rotations, the
    quaternion (Hamilton) product. *)
Definition multiply (a b : Quat) : Quat :=
  mkQuat (q0 a * q0 b - q1 a * q1 b - q2 a * q2 b - q3 a * q3 b)
         (q0 a * q1 b + q1 a * q0 b + q2 a * q3 b - q3 a * q2 b)
         (q0 a * q2 b - q1 a * q3 b + q2 a * q0 b + q3 a * q1 b)
         (q0 a * q3 b + q1 a * q2 b - q2 a * q1 b + q3 a * q0 b).


End quaternion.

(* ================================================================== *)
(** * The model file *)

(** One entry of the model's [parameters] list.  [ptype] is the entry's
    [type] string ("independent" or "dependent"); [noise] is the optional
    list of [frequency, amplitude] pairs. *)
Record Param : Type := mkParam {
  pname : string;
  ptype : string;
  pmin : R;
  pmax : R;
  pmedian : R;
  pstd : R;
  noise : option (list (R * R))
}.

(** The parsed model document: [dt], [parameters] and the flat array [A]. *)
Record ModelFile : Type := mkModelFile {
  mf_dt : R;
  mf_parameters : list Param;
  mf_A : list R
}.

(* ================================================================== *)
(** * lib/state_mgr.py *)

Module state_mgr.
Import constants quaternion.

(** The quantities the state manager derives rather than receives: the
    lift, drag and thrust terms, the lift and drag coefficients, gravity in
    the body frame and the body-frame accelerations. *)
Record Derived : Type := mkDerived {
  lift : R;
  drag : R;
  thrust : R;
  Cl : R;
  Cd : R;
  g_body : Vec3;
  a_body : Vec3
}.

(** Modelled from the spec: [lib/state_mgr.py] is not among the sources.
    The state manager holds the channels its setters receive (stored as
    they are given), the state names in canonical order and the derived
    quantities. *)
Record StateManager : Type := mkStateManager {
  ind_states : list string;
  dep_states : list string;
  dt : option R;
  time : R;
  throttle : R;
  aileron : R;
  elevator : R;
  rudder : R;
  airspeed_mps : R;
  qbar : R;
  alpha : R;
  beta : R;
  euler : Vec3;
  gyros : Vec3;
  accels : Vec3;
  v_ned : Vec3;
  wind_ned : Vec3;
  wind : R * R;
  v_body : Vec3;
  terms : Derived
}.

(** The numerical collaborators whose formulas the design leaves open:
    Euler-angle extraction and vector rotation of the quaternion module,
    and the state manager's body-frame derivations. *)
Class Collaborators : Type := {
  quat2eul : Quat -> Vec3;
  backTransform : Quat -> Vec3 -> Vec3;
  ned2body_velocity : StateManager -> Vec3;
  body_terms : StateManager -> Derived
}.

(** Modelled from the spec: a fresh [StateManager()], every channel zero,
    no state names, no [dt]. *)
Definition init : StateManager :=
  mkStateManager [] [] None 0 0 0 0 0 0 0 0 0 (0, 0, 0) (0, 0, 0) (0, 0, 0)
    (0, 0, 0) (0, 0, 0) (0, 0) (0, 0, 0)
    (mkDerived 0 0 0 0 0 (0, 0, 0) (0, 0, 0)).

Definition state_list (sm : StateManager) : list string :=
  (ind_states sm ++ dep_states sm)%list.

(** ** Setters *)

(** Modelled from the spec: each setter stores the values it receives
    verbatim in the channels it names and touches nothing else. *)

Definition set_state_names (ind dep : list string) (sm : StateManager) :=
  mkStateManager ind dep (dt sm) (time sm) (throttle sm) (aileron sm)
    (elevator sm) (rudder sm) (airspeed_mps sm) (qbar sm) (alpha sm) (beta sm)
    (euler sm) (gyros sm) (accels sm) (v_ned sm) (wind_ned sm) (wind sm)
    (v_body sm) (terms sm).

Definition set_dt (d : R) (sm : StateManager) :=
  mkStateManager (ind_states sm) (dep_states sm) (Some d) (time sm)
    (throttle sm) (aileron sm) (elevator sm) (rudder sm) (airspeed_mps sm)
    (qbar sm) (alpha sm) (beta sm) (euler sm) (gyros sm) (accels sm)
    (v_ned sm) (wind_ned sm) (wind sm) (v_body sm) (terms sm).

Definition set_time (t : R) (sm : StateManager) :=
  mkStateManager (ind_states sm) (dep_states sm) (dt sm) t
    (throttle sm) (aileron sm) (elevator sm) (rudder sm) (airspeed_mps sm)
    (qbar sm) (alpha sm) (beta sm) (euler sm) (gyros sm) (accels sm)
    (v_ned sm) (wind_ned sm) (wind sm) (v_body sm) (terms sm).

Definition set_throttle (t : R) (sm : StateManager) :=
  mkStateManager (ind_states sm) (dep_states sm) (dt sm) (time sm)
    t (aileron sm) (elevator sm) (rudder sm) (airspeed_mps sm)
    (qbar sm) (alpha sm) (beta sm) (euler sm) (gyros sm) (accels sm)
    (v_ned sm) (wind_ned sm) (wind sm) (v_body sm) (terms sm).

Definition set_flight_surfaces (ail ele rud : R) (sm : StateManager) :=
  mkStateManager (ind_states sm) (dep_states sm) (dt sm) (time sm)
    (throttle sm) ail ele rud (airspeed_mps sm)
    (qbar sm) (alpha sm) (beta sm) (euler sm) (gyros sm) (accels sm)
    (v_ned sm) (wind_ned sm) (wind sm) (v_body sm) (terms sm).

(** Modelled from the spec: dynamic pressure, [0.5 * rho * airspeed^2]. *)
Definition dynamic_pressure (airspeed : R) : R :=
  (1 / 2) * rho * (airspeed * airspeed).

(** Modelled from the spec: [set_airdata] stores the airspeed as given and
    touches nothing else; the dynamic pressure is derived by
    [compute_body_frame_values]. *)
Definition set_airdata (airspeed : R) (sm : StateManager) :=
  mkStateManager (ind_states sm) (dep_states sm) (dt sm) (time sm)
    (throttle sm) (aileron sm) (elevator sm) (rudder sm) airspeed
    (qbar sm) (alpha sm) (beta sm) (euler sm) (gyros sm)
    (accels sm) (v_ned sm) (wind_ned sm) (wind sm) (v_body sm) (terms sm).

Definition set_alpha (a : R) (sm : StateManager) :=
  mkStateManager (ind_states sm) (dep_states sm) (dt sm) (time sm)
    (throttle sm) (aileron sm) (elevator sm) (rudder sm) (airspeed_mps sm)
    (qbar sm) a (beta sm) (euler sm) (gyros sm) (accels sm)
    (v_ned sm) (wind_ned sm) (wind sm) (v_body sm) (terms sm).

Definition set_beta (b : R) (sm : StateManager) :=
  mkStateManager (ind_states sm) (dep_states sm) (dt sm) (time sm)
    (throttle sm) (aileron sm) (elevator sm) (rudder sm) (airspeed_mps sm)
    (qbar sm) (alpha sm) b (euler sm) (gyros sm) (accels sm)
    (v_ned sm) (wind_ned sm) (wind sm) (v_body sm) (terms sm).

Definition set_orientation (phi the psi : R) (sm : StateManager) :=
  mkStateManager (ind_states sm) (dep_states sm) (dt sm) (time sm)
    (throttle sm) (aileron sm) (elevator sm) (rudder sm) (airspeed_mps sm)
    (qbar sm) (alpha sm) (beta sm) (phi, the, psi) (gyros sm) (accels sm)
    (v_ned sm) (wind_ned sm) (wind sm) (v_body sm) (terms sm).

Definition set_gyros (p q r : R) (sm : StateManager) :=
  mkStateManager (ind_states sm) (dep_states sm) (dt sm) (time sm)
    (throttle sm) (aileron sm) (elevator sm) (rudder sm) (airspeed_mps sm)
    (qbar sm) (alpha sm) (beta sm) (euler sm) (p, q, r) (accels sm)
    (v_ned sm) (wind_ned sm) (wind sm) (v_body sm) (terms sm).

Definition set_accels (ax ay az : R) (sm : StateManager) :=
  mkStateManager (ind_states sm) (dep_states sm) (dt sm) (time sm)
    (throttle sm) (aileron sm) (elevator sm) (rudder sm) (airspeed_mps sm)
    (qbar sm) (alpha sm) (beta sm) (euler sm) (gyros sm) (ax, ay, az)
    (v_ned sm) (wind_ned sm) (wind sm) (v_body sm) (terms sm).

Definition set_ned_velocity (vn ve vd wn we wd : R) (sm : StateManager) :=
  mkStateManager (ind_states sm) (dep_states sm) (dt sm) (time sm)
    (throttle sm) (aileron sm) (elevator sm) (rudder sm) (airspeed_mps sm)
    (qbar sm) (alpha sm) (beta sm) (euler sm) (gyros sm) (accels sm)
    (vn, ve, vd) (wn, we, wd) (wind sm) (v_body sm) (terms sm).

Definition set_wind (a b : R) (sm : StateManager) :=
  mkStateManager (ind_states sm) (dep_states sm) (dt sm) (time sm)
    (throttle sm) (aileron sm) (elevator sm) (rudder sm) (airspeed_mps sm)
    (qbar sm) (alpha sm) (beta sm) (euler sm) (gyros sm) (accels sm)
    (v_ned sm) (wind_ned sm) (a, b) (v_body sm) (terms sm).

Definition set_body_velocity (bx by' bz : R) (sm : StateManager) :=
  mkStateManager (ind_states sm) (dep_states sm) (dt sm) (time sm)
    (throttle sm) (aileron sm) (elevator sm) (rudder sm) (airspeed_mps sm)
    (qbar sm) (alpha sm) (beta sm) (euler sm) (gyros sm) (accels sm)
    (v_ned sm) (wind_ned sm) (wind sm) (bx, by', bz) (terms sm).

Definition set_terms (d : Derived) (sm : StateManager) :=
  mkStateManager (ind_states sm) (dep_states sm) (dt sm) (time sm)
    (throttle sm) (aileron sm) (elevator sm) (rudder sm) (airspeed_mps sm)
    (qbar sm) (alpha sm) (beta sm) (euler sm) (gyros sm) (accels sm)
    (v_ned sm) (wind_ned sm) (wind sm) (v_body sm) d.

Definition set_qbar (qb : R) (sm : StateManager) :=
  mkStateManager (ind_states sm) (dep_states sm) (dt sm) (time sm)
    (throttle sm) (aileron sm) (elevator sm) (rudder sm) (airspeed_mps sm)
    qb (alpha sm) (beta sm) (euler sm) (gyros sm) (accels sm)
    (v_ned sm) (wind_ned sm) (wind sm) (v_body sm) (terms sm).

(** ** Body-frame values *)

(** Modelled from the spec: [compute_body_frame_values].  The body-frame
    velocity is recomputed from the NED velocity only on request; the
    dynamic pressure, [alpha = atan2(body_z_vel, body_x_vel)],
    [beta = atan2(-body_y_vel, body_x_vel)] and the derived terms follow
    from the stored channels. *)
Definition compute_body_frame_values `{Collaborators}
    (compute_body_vel : bool) (sm : StateManager) : StateManager :=
  let sm1 :=
    if compute_body_vel
    then (let '(bx, by', bz) := ned2body_velocity sm in
          set_body_velocity bx by' bz sm)
    else sm in
  let '(bx, by', bz) := v_body sm1 in
  let sm2 := set_qbar (dynamic_pressure (airspeed_mps sm1)) sm1 in
  let sm3 := set_beta (atan2 (- by') bx) (set_alpha (atan2 bz bx) sm2) in
  set_terms (body_terms sm3) sm3.

(** ** The state vector *)

(** Modelled from the spec: the value of each named state.  Control
    deflections and the sines of the flow angles are scaled by [qbar]
    (with their absolute-value variants); the rest are the stored or
    derived quantities themselves. *)
Definition state_table (sm : StateManager) : dict :=
  let '(p, q, r) := gyros sm in
  let '(ax, ay, az) := accels sm in
  let '(bvx, bvy, bvz) := v_body sm in
  let '(bgx, bgy, bgz) := g_body (terms sm) in
  let '(bax, bay, baz) := a_body (terms sm) in
  [ ("aileron", aileron sm * qbar sm);
    ("abs(aileron)", Rabs (aileron sm) * qbar sm);
    ("elevator", elevator sm * qbar sm);
    ("rudder", rudder sm * qbar sm);
    ("abs(rudder)", Rabs (rudder sm) * qbar sm);
    ("throttle", throttle sm);
    ("lift", lift (terms sm));
    ("drag", drag (terms sm));
    ("thrust", thrust (terms sm));
    ("bgx", bgx); ("bgy", bgy); ("bgz", bgz);
    ("bax", bax); ("bay", bay); ("baz", baz);
    ("airspeed", airspeed_mps sm);
    ("sin(alpha)", sin (alpha sm) * qbar sm);
    ("sin(beta)", sin (beta sm) * qbar sm);
    ("abs(sin(beta))", Rabs (sin (beta sm)) * qbar sm);
    ("bvx", bvx); ("bvy", bvy); ("bvz", bvz);
    ("p", p); ("q", q); ("r", r);
    ("ax", ax); ("ay", ay); ("az", az) ].

(** A value forced into [lo, hi]: first raised to [lo], then lowered to
    [hi]. *)
Definition clamp (lo hi v : R) : R :=
  let v1 := if Rlt_dec v lo then lo else v in
  if Rlt_dec hi v1 then hi else v1.

(** Modelled from the spec: with the model's parameters at hand, the entry
    at position [i] is held within the [min] and [max] of parameter [i]
    (the fitted statistics are the simulation's hard clamps). *)
Definition clamp_entry (params : option (list Param)) (i : nat) (v : R) : R :=
  match params with
  | None => v
  | Some ps =>
      match nth_error ps i with
      | Some prm => clamp (pmin prm) (pmax prm) v
      | None => v
      end
  end.

Fixpoint gen_entries (sm : StateManager) (params : option (list Param))
    (fields : list string) (i : nat) : outcome (list R) :=
  match fields with
  | [] => Ok []
  | field :: rest =>
      v <- dict_get (state_table sm) field ;;
      t <- gen_entries sm params rest (S i) ;;
      Ok (clamp_entry params i v :: t)
  end.

(** Modelled from the spec: [gen_state_vector], one entry per state name in
    canonical order (the independent block, then the dependent block). *)
Definition gen_state_vector (sm : StateManager) (params : option (list Param))
    : outcome (list R) :=
  gen_entries sm params (state_list sm) 0.

(** The loop [for i in range(len(names)): result[names[i]] = vec[i]]. *)
Fixpoint vec2dict (names : list string) (vec : list R) (acc : dict)
    : outcome dict :=
  match names with
  | [] => Ok acc
  | n :: ns =>
      match vec with
      | [] => Raise IndexError
      | v :: vs => vec2dict ns vs (dict_set acc n v)
      end
  end.

(** Modelled from the spec: [state2dict] and [dep2dict] turn a numeric
    vector back into a name-keyed mapping, over all state names and over
    the dependent names. *)
Definition state2dict (sm : StateManager) (vec : list R) : outcome dict :=
  vec2dict (state_list sm) vec [].

Definition dep2dict (sm : StateManager) (vec : list R) : outcome dict :=
  vec2dict (dep_states sm) vec [].

End state_mgr.

(* ================================================================== *)
(** * lib/simulator.py *)

Module simulator.
Import constants quaternion.

(** What [print] writes while [trim] runs. *)
Inductive Printed : Type :=
| PrintDict (d : dict)
| PrintList (l : list R)
| PrintRes (x : list R) (success : bool)
| PrintValue (label : string) (v : R).

(** The result object of [scipy.optimize.least_squares]: the last iterate
    [x] and whether a convergence criterion was met. *)
Record OptimizeResult : Type := mkOptimizeResult {
  x : list R;
  success : bool
}.

(** The attributes of a [Simulator] object.  [params], [alpha], [beta] and
    [trim_airspeed_mps] do not exist until first assigned; [A], [dt] and
    [trand] start as [None]. *)
Record Simulator : Type := mkSimulator {
  A : option (list (list R));
  dt : option R;
  trand : option (list R);
  params : option (list Param);
  state_mgr : state_mgr.StateManager;
  airspeed_mps : R;
  pos_ned : Vec3;
  vel_ned : Vec3;
  phi_rad : R;
  the_rad : R;
  psi_rad : R;
  ned2body : Quat;
  p : R;
  q : R;
  r : R;
  ax : R;
  ay : R;
  az : R;
  bvx : R;
  bvy : R;
  bvz : R;
  alpha : option R;
  beta : option R;
  time : R;
  data : list (list R);
  trim_airspeed_mps : option R
}.

(** A value that must not be [None] where it is used. *)
Definition not_none {T : Type} (o : option T) : outcome T :=
  match o with Some a => Ok a | None => Raise TypeError end.

Definition set_state_mgr (sm : state_mgr.StateManager) (s : Simulator) :=
  mkSimulator (A s) (dt s) (trand s) (params s) sm (airspeed_mps s)
    (pos_ned s) (vel_ned s) (phi_rad s) (the_rad s) (psi_rad s) (ned2body s)
    (p s) (q s) (r s) (ax s) (ay s) (az s) (bvx s) (bvy s) (bvz s)
    (alpha s) (beta s) (time s) (data s) (trim_airspeed_mps s).

Definition set_trim_airspeed_mps (v : R) (s : Simulator) :=
  mkSimulator (A s) (dt s) (trand s) (params s) (state_mgr s) (airspeed_mps s)
    (pos_ned s) (vel_ned s) (phi_rad s) (the_rad s) (psi_rad s) (ned2body s)
    (p s) (q s) (r s) (ax s) (ay s) (az s) (bvx s) (bvy s) (bvz s)
    (alpha s) (beta s) (time s) (data s) (Some v).

(** ** reset *)

Definition initial_airspeed_mps : R := 10.

Definition reset (s : Simulator) : Simulator :=
  let sm := state_mgr.set_airdata initial_airspeed_mps (state_mgr s) in
  let sm := state_mgr.set_throttle (1 / 2) sm in
  let sm := state_mgr.set_flight_surfaces 0 (- (1 / 10)) 0 sm in
  let sm := state_mgr.set_ned_velocity initial_airspeed_mps 0 0 0 0 0 sm in
  let sm := state_mgr.set_body_velocity initial_airspeed_mps 0 0 sm in
  let sm := state_mgr.set_orientation 0 0 0 sm in
  let sm := state_mgr.set_gyros 0 0 0 sm in
  let sm := state_mgr.set_accels 0 0 0 sm in
  let sm := state_mgr.set_time 0 sm in
  mkSimulator (A s) (dt s) (trand s) (params s) sm 0
    (0, 0, 0) (initial_airspeed_mps, 0, 0) 0 0 0 (eul2quat 0 0 0)
    0 0 0 0 0 0 0 0 0
    (alpha s) (beta s) 0 [] (trim_airspeed_mps s).

(** [Simulator()]: the constructor sets [A], [dt] and [trand] to [None],
    makes a state manager and resets. *)
Definition new : Simulator :=
  reset (mkSimulator None None None None state_mgr.init 0
           (0, 0, 0) (0, 0, 0) 0 0 0 (eul2quat 0 0 0)
           0 0 0 0 0 0 0 0 0 None None 0 [] None).

(** ** load *)

(** [rows]: the number of parameters whose type is "dependent". *)
Fixpoint count_dependent (ps : list Param) : nat :=
  match ps with
  | [] => O
  | prm :: rest =>
      if String.eqb (ptype prm) "dependent"
      then S (count_dependent rest)
      else count_dependent rest
  end.

(** The names of the parameters typed "independent", in file order. *)
Fixpoint ind_names (ps : list Param) : list string :=
  match ps with
  | [] => []
  | prm :: rest =>
      if String.eqb (ptype prm) "independent"
      then pname prm :: ind_names rest
      else ind_names rest
  end.

(** The names of all other parameters, in file order. *)
Fixpoint dep_names (ps : list Param) : list string :=
  match ps with
  | [] => []
  | prm :: rest =>
      if String.eqb (ptype prm) "independent"
      then dep_names rest
      else pname prm :: dep_names rest
  end.

(** [load(model)], from the parsed model document on.  The reshape is the
    one step that can raise; an exception leaves no loaded simulator. *)
Definition load (model : ModelFile) (s : Simulator) : outcome Simulator :=
  let ps := mf_parameters model in
  let cols := List.length ps in
  let rows := count_dependent ps in
  a <- reshape (mf_A model) rows cols ;;
  let sm := state_mgr.set_state_names (ind_names ps) (dep_names ps)
              (state_mgr s) in
  let sm := state_mgr.set_dt (mf_dt model) sm in
  Ok (mkSimulator (Some a) (Some (mf_dt model)) (trand s) (Some ps) sm
        (airspeed_mps s) (pos_ned s) (vel_ned s) (phi_rad s) (the_rad s)
        (psi_rad s) (ned2body s) (p s) (q s) (r s) (ax s) (ay s) (az s)
        (bvx s) (bvy s) (bvz s) (alpha s) (beta s) (time s) (data s)
        (trim_airspeed_mps s)).

(** ** add_noise *)

(** The inner loop over one parameter's noise points: the [j]-th sinusoid
    is evaluated at phase [trand[j] + time * 2 * pi * frequency] and scaled
    by its amplitude. *)
Fixpoint noise_sum (tr : list R) (t : R) (pts : list (R * R)) (j : nat)
    (sum : R) : outcome R :=
  match pts with
  | [] => Ok sum
  | (freq, amp) :: rest =>
      ph <- index tr j ;;
      noise_sum tr t rest (S j) (sum + sin (ph + t * 2 * PI * freq) * amp)
  end.

(** [self.trand] where it is used: the stored array, or, while it is still
    [None], [np.random.rand(n) * 2 * pi] for the [n] noise points at hand. *)
Definition phase_array (tr : option (list R)) (g : Rng) (n : nat)
    : list R * Rng :=
  match tr with
  | Some a => (a, g)
  | None => let '(u, g') := rand g n in (map (fun v => v * 2 * PI) u, g')
  end.

(** The loop [for i in range(len(next))] from position [i] on: [next] is
    what is left of the array, [ps] is [self.params]. *)
Fixpoint add_noise_from (ps : list Param) (t : R) (next : list R) (i : nat)
    (tr : option (list R)) (g : Rng)
    : outcome (list R * option (list R) * Rng) :=
  match next with
  | [] => Ok ([], tr, g)
  | v :: rest =>
      prm <- index ps i ;;
      match noise prm with
      | None =>
          ' (rest', tr', g') <- add_noise_from ps t rest (S i) tr g ;;
          Ok (v :: rest', tr', g')
      | Some pts =>
          let '(a, g1) := phase_array tr g (List.length pts) in
          sum <- noise_sum a t pts 0 0 ;;
          ' (rest', tr', g') <- add_noise_from ps t rest (S i) (Some a) g1 ;;
          Ok (v + sum :: rest', tr', g')
      end
  end.

(** [add_noise(next)]: the array with the noise added, the phase array
    [self.trand] afterwards and the generator afterwards. *)
Definition add_noise (s : Simulator) (g : Rng) (next : list R)
    : outcome (list R * option (list R) * Rng) :=
  ps <- attr (params s) ;;
  add_noise_from ps (time s) next 0 (trand s) g.

(** ** update: the body-velocity resolution *)

(** Which of the three resolutions a predicted dependent state selects. *)
Inductive OutputMode : Type :=
| AccelBased
| VelocityBased
| TrigBased
| NoOutput.

Definition output_mode (result : dict) : OutputMode :=
  if dict_has result "bax" && dict_has result "airspeed" then AccelBased
  else if dict_has result "bvx" then VelocityBased
  else if dict_has result "sin(alpha)" then TrigBased
  else NoOutput.

(** What the resolution leaves behind: the state manager, the simulator's
    body velocity and its own [alpha] and [beta] attributes. *)
Record Resolved : Type := mkResolved {
  r_mgr : state_mgr.StateManager;
  r_bvx : R;
  r_bvy : R;
  r_bvz : R;
  r_alpha : option R;
  r_beta : option R
}.

(** [if abs(w / bvx) > 0.1: w = np.sign(w) * abs(bvx) * 0.1].  In
    [update] the divisor is the floored forward velocity, at least 0.1. *)
Definition clamp_ratio (w vx : R) : outcome R :=
  ratio <- div w vx ;;
  Ok (if Rlt_dec (1 / 10) (Rabs ratio) then sign w * Rabs vx * (1 / 10) else w).

Definition resolve_accel (result : dict) (dt_ airspeed : R) (s : Simulator)
    (sm : state_mgr.StateManager) : outcome Resolved :=
  bax <- dict_get result "bax" ;;
  let vx := bvx s + bax * dt_ in
  bay <- dict_get result "bay" ;;
  let vy := bvy s + bay * dt_ in
  baz <- dict_get result "baz" ;;
  let vz := bvz s + baz * dt_ in
  let vx := if Rlt_dec vx (1 / 10) then 1 / 10 else vx in
  vy <- clamp_ratio vy vx ;;
  vz <- clamp_ratio vz vx ;;
  scale <- div airspeed (norm3 vx vy vz) ;;
  let vx := vx * scale in
  let vy := vy * scale in
  let vz := vz * scale in
  Ok (mkResolved (state_mgr.set_body_velocity vx vy vz sm) vx vy vz
        (Some (atan2 vz vx)) (Some (atan2 (- vy) vx))).

Definition resolve_velocity (result : dict) (s : Simulator)
    (sm : state_mgr.StateManager) : outcome Resolved :=
  vx <- dict_get result "bvx" ;;
  vy <- dict_get result "bvy" ;;
  vz <- dict_get result "bvz" ;;
  Ok (mkResolved (state_mgr.set_body_velocity vx vy vz sm) vx vy vz
        (Some (atan2 vz vx)) (Some (atan2 (- vy) vx))).

(** [if v > 1: v = 1] then [if v < -1: v = -1] *)
Definition clamp_unit (v : R) : R :=
  let v1 := if Rlt_dec 1 v then 1 else v in
  if Rlt_dec v1 (-1) then -1 else v1.

Definition max_angle : R := 25 * d2r.

(** [if a > max_angle: a = max_angle] then
    [if a < -max_angle: a = -max_angle] *)
Definition clamp_angle (a : R) : R :=
  let a1 := if Rlt_dec max_angle a then max_angle else a in
  if Rlt_dec a1 (- max_angle) then - max_angle else a1.

(** The same two tests on a quotient: [inf > 1] and [-inf < -1] hold, so
    an infinity is clamped like any large value; every comparison with
    [nan] is false, so [nan] stays. *)
Definition np_clamp_unit (v : np_float) : np_float :=
  match v with
  | Finite x => Finite (clamp_unit x)
  | PosInf => Finite 1
  | NegInf => Finite (-1)
  | NaN => NaN
  end.

Definition resolve_trig (result : dict) (airspeed qbar : R) (s : Simulator)
    (sm : state_mgr.StateManager) : outcome Resolved :=
  sa <- dict_get result "sin(alpha)" ;;
  let s_alpha := np_div sa qbar in
  sb <- dict_get result "sin(beta)" ;;
  let s_beta := np_div sb qbar in
  s_alpha <- finite (np_clamp_unit s_alpha) ;;
  s_beta <- finite (np_clamp_unit s_beta) ;;
  a <- py_asin s_alpha ;;
  b <- py_asin s_beta ;;
  let a := clamp_angle a in
  let b := clamp_angle b in
  let sm := state_mgr.set_beta b (state_mgr.set_alpha a sm) in
  let vx := cos a * airspeed in
  let vy := sin b * airspeed in
  let vz := sin a * airspeed in
  Ok (mkResolved (state_mgr.set_body_velocity vx vy vz sm) vx vy vz
        (alpha s) (beta s)).

Definition resolve (result : dict) (dt_ airspeed qbar : R) (s : Simulator)
    (sm : state_mgr.StateManager) : outcome Resolved :=
  match output_mode result with
  | AccelBased => resolve_accel result dt_ airspeed s sm
  | VelocityBased => resolve_velocity result s sm
  | TrigBased => resolve_trig result airspeed qbar s sm
  | NoOutput =>
      Ok (mkResolved sm (bvx s) (bvy s) (bvz s) (alpha s) (beta s))
  end.

(** ** update *)

(** [v * k] on a 3-array. *)
Definition times (v : Vec3) (k : R) : Vec3 :=
  let '(a, b, c) := v in (a * k, b * k, c * k).

Definition tolist (v : Vec3) : list R :=
  let '(a, b, c) := v in [a; b; c].

(** [self.airspeed_mps] of the step: the predicted airspeed when the model
    has one, the length of the predicted body velocity otherwise. *)
Definition resolve_airspeed (result : dict) : outcome R :=
  if dict_has result "airspeed" then dict_get result "airspeed"
  else
    vx <- dict_get result "bvx" ;;
    vy <- dict_get result "bvy" ;;
    vz <- dict_get result "bvz" ;;
    Ok (norm3 vx vy vz).

(** [if "ax" in result]: the predicted accelerations replace the stored
    ones. *)
Definition resolve_accels (result : dict) (s : Simulator)
    (sm : state_mgr.StateManager)
    : outcome (R * R * R * state_mgr.StateManager) :=
  if dict_has result "ax" then
    x <- dict_get result "ax" ;;
    y <- dict_get result "ay" ;;
    z <- dict_get result "az" ;;
    Ok (x, y, z, state_mgr.set_accels x y z sm)
  else Ok (ax s, ay s, az s, sm).

(** The attitude step: the rotation by [(p, q, r) * dt] composed with the
    current orientation. *)
Definition integrate_attitude (n2b : Quat) (p_ q_ r_ dt_ : R) : Quat :=
  let rot_body := eul2quat (p_ * dt_) (q_ * dt_) (r_ * dt_) in
  multiply n2b rot_body.

Section Dynamics.
Context `{state_mgr.Collaborators}.

(** The first half of [update]: the state vector, the one-step prediction
    with its noise, and the prediction as a name-keyed mapping [result];
    with it the phase array and the generator after [add_noise]. *)
Definition predict (s : Simulator) (g : Rng)
    : outcome (dict * option (list R) * Rng) :=
  ps <- attr (params s) ;;
  state <- state_mgr.gen_state_vector (state_mgr s) (Some ps) ;;
  a <- not_none (A s) ;;
  next <- matvec a state ;;
  ' (next, tr, g') <- add_noise s g next ;;
  input <- state_mgr.state2dict (state_mgr s) state ;;
  result <- state_mgr.dep2dict (state_mgr s) next ;;
  Ok (result, tr, g').

(** The second half of [update]: from [result] to the next simulator
    state, with the new trajectory sample appended. *)
Definition advance (s : Simulator) (result : dict) (tr : option (list R))
    : outcome Simulator :=
  airspeed <- resolve_airspeed result ;;
  let sm := state_mgr.set_airdata airspeed (state_mgr s) in
  let qbar := state_mgr.qbar sm in
  dt_ <- not_none (dt s) ;;
  rv <- resolve result dt_ airspeed qbar s sm ;;
  p_ <- dict_get result "p" ;;
  q_ <- dict_get result "q" ;;
  r_ <- dict_get result "r" ;;
  let sm := state_mgr.set_gyros p_ q_ r_ (r_mgr rv) in
  ' (ax_, ay_, az_, sm) <- resolve_accels result s sm ;;
  let n2b := integrate_attitude (ned2body s) p_ q_ r_ dt_ in
  let '(phi, the, psi) := state_mgr.quat2eul n2b in
  let sm := state_mgr.set_orientation phi the psi sm in
  let sm := state_mgr.compute_body_frame_values false sm in
  let vel := state_mgr.backTransform n2b (r_bvx rv, r_bvy rv, r_bvz rv) in
  let sm := (let '(vn, ve, vd) := vel in
             state_mgr.set_ned_velocity vn ve vd 0 0 0 sm) in
  let pos := vadd (pos_ned s) (times vel dt_) in
  let row :=
    ([ time s; airspeed;
       state_mgr.throttle sm; state_mgr.aileron sm;
       state_mgr.elevator sm; state_mgr.rudder sm;
       phi; the; psi;
       state_mgr.alpha sm; state_mgr.beta sm;
       p_; q_; r_ ] ++ tolist pos ++ tolist vel)%list in
  Ok (mkSimulator (A s) (dt s) tr (params s) sm airspeed pos vel
        phi the psi n2b p_ q_ r_ ax_ ay_ az_
        (r_bvx rv) (r_bvy rv) (r_bvz rv) (r_alpha rv) (r_beta rv)
        (time s + dt_) (data s ++ [row])%list (trim_airspeed_mps s)).

Definition update (s : Simulator) (g : Rng) : outcome (Simulator * Rng) :=
  ' (result, tr, g') <- predict s g ;;
  s' <- advance s result tr ;;
  Ok (s', g').

(** [n] calls of [update] in a row. *)
Fixpoint run (n : nat) (s : Simulator) (g : Rng) : outcome (Simulator * Rng) :=
  match n with
  | O => Ok (s, g)
  | S k => ' (s', g') <- update s g ;; run k s' g'
  end.

(** The columns of a trajectory sample that [plot] reads. *)
Definition sample_airspeed (row : list R) : R := nth 1 row 0.
Definition sample_alpha (row : list R) : R := nth 9 row 0.
Definition sample_beta (row : list R) : R := nth 10 row 0.

(** ** trim *)

(** The residual vector [errors] of [trim_error], from the predicted
    state: airspeed-tracking error (the predicted airspeed floored at
    zero), thrust minus drag, lateral acceleration, and the three rates. *)
Definition trim_residuals (target : R) (result : dict) : outcome (list R) :=
  next_asi <- dict_get result "airspeed" ;;
  let next_asi := if Rlt_dec next_asi 0 then 0 else next_asi in
  thrust <- dict_get result "thrust" ;;
  drag <- dict_get result "drag" ;;
  bay <- dict_get result "bay" ;;
  p_ <- dict_get result "p" ;;
  q_ <- dict_get result "q" ;;
  r_ <- dict_get result "r" ;;
  Ok [target - next_asi; thrust - drag; bay; p_; q_; r_].

(** The first statements of [trim_error]: the controls and the attitude of
    the trial point [xk], read as
    [(throttle, aileron, elevator, rudder, phi, theta)], written into the
    state manager. *)
Definition apply_controls (xk : list R) (sm : state_mgr.StateManager)
    : outcome state_mgr.StateManager :=
  x0 <- index xk 0 ;;
  let sm := state_mgr.set_throttle x0 sm in
  x1 <- index xk 1 ;;
  x2 <- index xk 2 ;;
  x3 <- index xk 3 ;;
  let sm := state_mgr.set_flight_surfaces x1 x2 x3 sm in
  x4 <- index xk 4 ;;
  x5 <- index xk 5 ;;
  let sm := state_mgr.set_orientation x4 x5 0 sm in
  Ok (state_mgr.set_alpha x5 sm).

(** The statements that follow: the target airspeed, no wind, no rates,
    level flight at the target airspeed, and the derived quantities. *)
Definition apply_target (target : R) (sm : state_mgr.StateManager)
    : state_mgr.StateManager :=
  let sm := state_mgr.set_airdata target sm in
  let sm := state_mgr.set_wind 0 0 sm in
  let sm := state_mgr.set_gyros 0 0 0 sm in
  let sm := state_mgr.set_ned_velocity target 0 0 0 0 0 sm in
  state_mgr.compute_body_frame_values false sm.

(** The trial point [xk] at the target airspeed [target]: the state
    manager [trim_error] predicts from, once a target is stored. *)
Definition apply_trial (xk : list R) (target : R)
    (sm : state_mgr.StateManager) : outcome state_mgr.StateManager :=
  sm <- apply_controls xk sm ;;
  Ok (apply_target target sm).

(** [trim_error(xk)]; the state is the simulator and what has been
    printed so far.  The entries of [xk] are read before
    [self.trim_airspeed_mps] is. *)
Definition trim_error (xk : list R) (st : Simulator * list Printed)
    : outcome (list R * (Simulator * list Printed)) :=
  let '(s, out) := st in
  sm <- apply_controls xk (state_mgr s) ;;
  target <- attr (trim_airspeed_mps s) ;;
  let sm := apply_target target sm in
  ps <- attr (params s) ;;
  state <- state_mgr.gen_state_vector sm (Some ps) ;;
  a <- not_none (A s) ;;
  next <- matvec a state ;;
  current <- state_mgr.state2dict sm state ;;
  result <- state_mgr.state2dict sm next ;;
  errors <- trim_residuals target result ;;
  Ok (errors,
      (set_state_mgr sm s, (out ++ [PrintDict result; PrintList errors])%list)).

(** The initial guess of [trim]. *)
Definition initial : list R := [1 / 2; 0; 0; 0; 0; 8 / 100].

Section Trim.

(** [scipy.optimize.least_squares]: it can only call the residual function,
    threading whatever state that function carries; it raises when the
    residual function raises, and otherwise returns a result object,
    converged or not. *)
Variable least_squares :
  forall S : Type,
    (list R -> S -> outcome (list R * S)) -> list R -> S ->
    outcome (OptimizeResult * S).

(** [trim(airspeed_mps)].  The first component is the value the call
    returns to its caller: the method has no [return] statement. *)
Definition trim (airspeed_mps_ : R) (s : Simulator)
    : outcome (option (list R) * Simulator * list Printed) :=
  let s := set_trim_airspeed_mps airspeed_mps_ s in
  ' (res, (s, out)) <- least_squares _ trim_error initial (s, []) ;;
  let out := (out ++ [PrintRes (x res) (success res)])%list in
  x0 <- index (x res) 0 ;;
  x1 <- index (x res) 1 ;;
  x2 <- index (x res) 2 ;;
  x3 <- index (x res) 3 ;;
  x3' <- index (x res) 3 ;;
  x4 <- index (x res) 4 ;;
  Ok (None, s,
      (out ++ [ PrintValue "throttle:" x0; PrintValue "aileron:" x1;
                PrintValue "elevator:" x2; PrintValue "rudder:" x3;
                PrintValue "phi:" x3'; PrintValue "theta:" x4 ])%list).

End Trim.
End Dynamics.

End simulator.

(* ================================================================== *)
(** * build_full_model.py: the two passes over the flight log *)

Module build_full_model.
Import constants.

(** The keyed groups of one record of the flight log.  A group that is
    absent from the record is [None]; optional keys inside a group are
    options as well. *)
Record ImuPt : Type := mkImuPt {
  imu_time : R; imu_p : R; imu_q : R; imu_r : R
}.

Record ActPt : Type := mkActPt {
  act_throttle : R; act_aileron : R; act_elevator : R; act_rudder : R
}.

Record AirPt : Type := mkAirPt {
  air_airspeed : R;
  pitot_scale : option R;
  wind_dir : option R;
  wind_speed : option R
}.

Record NavPt : Type := mkNavPt {
  nav_phi : R; nav_the : R; nav_psi : R;
  nav_vn : R; nav_ve : R; nav_vd : R;
  p_bias : option R; q_bias : option R; r_bias : option R
}.

Record LogRecord : Type := mkLogRecord {
  imu : option ImuPt;
  act : option ActPt;
  air : option AirPt;
  filter : option NavPt;
  gps : bool
}.

Definition present {T : Type} (o : option T) : nat :=
  match o with Some _ => 1%nat | None => 0%nat end.

(** [len(record)] *)
Definition record_len (rec : LogRecord) : nat :=
  (present (imu rec) + present (act rec) + present (air rec)
   + present (filter rec) + (if gps rec then 1 else 0))%nat.

Definition independent_states : list string :=
  [ "aileron"; "abs(aileron)"; "elevator"; "rudder"; "abs(rudder)";
    "lift"; "drag"; "thrust"; "bgx"; "bgy"; "bgz"; "bay" ].

Definition dependent_states : list string :=
  [ "airspeed"; "sin(alpha)"; "sin(beta)"; "abs(sin(beta))"; "p"; "q"; "r" ].

(** ** The dt-estimation pass *)

(** One iteration of the first loop: [last_time] and [dt_data] before and
    after the record. *)
Definition dt_step (st : option R * list R) (rec : LogRecord)
    : option R * list R :=
  let '(last_time, dt_data) := st in
  if Nat.eqb (record_len rec) 0 then st
  else
    match imu rec with
    | Some imupt =>
        let last := match last_time with
                    | None => imu_time imupt
                    | Some t => t
                    end in
        (Some (imu_time imupt), (dt_data ++ [imu_time imupt - last])%list)
    | None => st
    end.

(** [dt_data] after the first loop. *)
Definition dt_estimation (log : list LogRecord) : list R :=
  snd (fold_left dt_step log (None, [])).

(** ** The training pass *)

(** The variables the second loop carries from one record to the next: the
    script's state manager, the last [filter] group ([navpt], an empty dict
    at first), the wind components (unbound until an [air] record is met),
    the training set and the coefficient list. *)
Record Pass : Type := mkPass {
  mgr : state_mgr.StateManager;
  navpt : option NavPt;
  wind_components : option Vec3;
  traindata : list (list R);
  coeff : list (list R)
}.

Definition on_imu (navpt_ : option NavPt) (rec : LogRecord)
    (sm : state_mgr.StateManager) : outcome state_mgr.StateManager :=
  match imu rec with
  | None => Ok sm
  | Some imupt =>
      let sm := state_mgr.set_time (imu_time imupt) sm in
      ' (p, q, r) <-
        match navpt_ with
        | Some nav =>
            match p_bias nav with
            | Some pb =>
                qb <- match q_bias nav with
                      | Some v => Ok v | None => Raise (KeyError "q_bias")
                      end ;;
                rb <- match r_bias nav with
                      | Some v => Ok v | None => Raise (KeyError "r_bias")
                      end ;;
                Ok (imu_p imupt - pb, imu_q imupt - qb, imu_r imupt - rb)
            | None => Ok (imu_p imupt, imu_q imupt, imu_r imupt)
            end
        | None => Ok (imu_p imupt, imu_q imupt, imu_r imupt)
        end ;;
      Ok (state_mgr.set_gyros p q r sm)
  end.

Definition on_act (rec : LogRecord) (sm : state_mgr.StateManager)
    : state_mgr.StateManager :=
  match act rec with
  | None => sm
  | Some actpt =>
      state_mgr.set_flight_surfaces
        (act_aileron actpt) (act_elevator actpt) (act_rudder actpt)
        (state_mgr.set_throttle (act_throttle actpt) sm)
  end.

Definition on_air (rec : LogRecord) (w : option Vec3)
    (sm : state_mgr.StateManager)
    : outcome (state_mgr.StateManager * option Vec3) :=
  match air rec with
  | None => Ok (sm, w)
  | Some airpt =>
      let asi_mps := air_airspeed airpt * kt2mps in
      let asi_mps := match pitot_scale airpt with
                     | Some k => asi_mps * k
                     | None => asi_mps
                     end in
      let sm := state_mgr.set_airdata asi_mps sm in
      match wind_dir airpt with
      | Some dir =>
          let wind_psi := (1 / 2) * PI - dir * d2r in
          speed <- match wind_speed airpt with
                   | Some v => Ok v | None => Raise (KeyError "wind_speed")
                   end ;;
          let wind_mps := speed * kt2mps in
          let we := cos wind_psi * wind_mps in
          let wn := sin wind_psi * wind_mps in
          Ok (sm, Some (wn, we, 0))
      | None => Ok (sm, Some (0, 0, 0))
      end
  end.

Definition on_filter (rec : LogRecord) (navpt_ : option NavPt)
    (w : option Vec3) (sm : state_mgr.StateManager)
    : outcome (state_mgr.StateManager * option NavPt) :=
  match filter rec with
  | None => Ok (sm, navpt_)
  | Some nav =>
      let sm := state_mgr.set_orientation
                  (nav_phi nav) (nav_the nav) (nav_psi nav) sm in
      match w with
      | None => Raise NameError
      | Some (wn, we, wd) =>
          Ok (state_mgr.set_ned_velocity
                (nav_vn nav) (nav_ve nav) (nav_vd nav) wn we wd sm,
              Some nav)
      end
  end.

Section Passes.
Context `{state_mgr.Collaborators}.

(** The state manager's airborne gate; its thresholds are not among the
    sources. *)
Variable is_flying : state_mgr.StateManager -> bool.

(** The channels of one record written into the state manager (and the
    carried [navpt] and wind), before the gate is consulted. *)
Definition ingest (st : Pass) (rec : LogRecord)
    : outcome (state_mgr.StateManager * option NavPt * option Vec3) :=
  sm <- on_imu (navpt st) rec (mgr st) ;;
  let sm := on_act rec sm in
  ' (sm, w) <- on_air rec (wind_components st) sm ;;
  ' (sm, nav) <- on_filter rec (navpt st) w sm ;;
  Ok (sm, nav, w).

(** One iteration of the second loop.  [sysid.add_state_vec] appends the
    vector to the training set, in call order. *)
Definition train_step (st : Pass) (rec : LogRecord) : outcome Pass :=
  if Nat.eqb (record_len rec) 0 then Ok st
  else
    ' (sm, nav, w) <- ingest st rec ;;
    if is_flying sm then
      let sm := state_mgr.compute_body_frame_values true sm in
      state <- state_mgr.gen_state_vector sm None ;;
      Ok (mkPass sm nav w
            (traindata st ++ [state])%list
            (coeff st ++ [[ state_mgr.alpha sm;
                            state_mgr.Cl (state_mgr.terms sm);
                            state_mgr.Cd (state_mgr.terms sm) ]])%list)
    else Ok (mkPass sm nav w (traindata st) (coeff st)).

Fixpoint train_from (st : Pass) (log : list LogRecord) : outcome Pass :=
  match log with
  | [] => Ok st
  | rec :: rest => st' <- train_step st rec ;; train_from st' rest
  end.

(** The script's state manager when the second loop starts: the state
    names registered, [dt] set to the estimate of the first pass. *)
Definition start (imu_dt : R) : Pass :=
  mkPass (state_mgr.set_dt imu_dt
            (state_mgr.set_state_names independent_states dependent_states
               state_mgr.init))
         None None [] [].

Definition training_pass (imu_dt : R) (log : list LogRecord) : outcome Pass :=
  train_from (start imu_dt) log.

End Passes.

End build_full_model.

(* ================================================================== *)
(** * Arrays and Python indexing *)

(** [np.array(rows)] on a list of rows: a two-dimensional array when all
    rows have one length, an empty one-dimensional array for the empty
    list; rows of different lengths are refused. *)
Definition np_array (rows : list (list R)) : outcome (list (list R)) :=
  match rows with
  | [] => Ok []
  | first :: _ =>
      if forallb (fun row => Nat.eqb (List.length row) (List.length first)) rows
      then Ok rows
      else Raise ValueError
  end.

(** [arr[:, j]]: the empty array has one dimension only, and a column past
    the width does not exist. *)
Definition column (arr : list (list R)) (j : nat) : outcome (list R) :=
  match arr with
  | [] => Raise IndexError
  | first :: _ =>
      if Nat.ltb j (List.length first)
      then Ok (map (fun row => nth j row 0) arr)
      else Raise IndexError
  end.

(** [np.mean] of a one-dimensional array. *)
Definition mean (l : list R) : R :=
  fold_right Rplus 0 l / INR (List.length l).

(** The position a Python index [i] denotes in a sequence of length [n]: a
    negative index counts from the end. *)
Definition py_position (n : nat) (i : Z) : outcome nat :=
  let k := if (i <? 0)%Z then (i + Z.of_nat n)%Z else i in
  if ((0 <=? k) && (k <? Z.of_nat n))%Z then Ok (Z.to_nat k)
  else Raise IndexError.

Fixpoint set_nth (l : list R) (k : nat) (x : R) : list R :=
  match l, k with
  | [], _ => []
  | _ :: rest, O => x :: rest
  | a :: rest, S k' => a :: set_nth rest k' x
  end.

(** [l[i]] and [l[i] = x] *)
Definition py_index (l : list R) (i : Z) : outcome R :=
  k <- py_position (List.length l) i ;; index l k.

Definition py_set (l : list R) (i : Z) (x : R) : outcome (list R) :=
  k <- py_position (List.length l) i ;; Ok (set_nth l k x).

(** [l[-n:]]: the last [n] entries, all of them when there are fewer; and
    [l[-0:]] is the whole list. *)
Definition py_last (l : list R) (n : nat) : list R :=
  if Nat.eqb n 0 then l else skipn (List.length l - n) l.

(* ================================================================== *)
(** * lib/simulator.py: plot *)

Module simulator_plot.
Import constants.

(** One [plt.plot(x, y, label=...)] call. *)
Record Series : Type := mkSeries {
  label : string;
  xs : list R;
  ys : list R
}.

(** A line of the trajectory array against its time column; some columns
    are converted to degrees. *)
Definition line (data : list (list R)) (j : nat) (scale : option R)
    (label_ : string) : outcome Series :=
  t <- column data 0 ;;
  y <- column data j ;;
  Ok (mkSeries label_ t
        (match scale with
         | Some k => map (fun v => v * k) y
         | None => y
         end)).

(** [plot()]: the figures, each with its lines, in the order they are
    drawn.  The call also rebinds [self.data] to the array it plots from,
    which has no [append]: an [update] after [plot()] is outside the
    model, which takes [plot] as the last call on a simulator. *)
Definition plot (data : list (list R)) : outcome (list (list Series)) :=
  data <- np_array data ;;
  airspeed <- line data 1 None "Airspeed (mps)" ;;
  roll <- line data 6 (Some r2d) "Roll (deg)" ;;
  pitch <- line data 7 (Some r2d) "Pitch (deg)" ;;
  alpha <- line data 9 (Some r2d) "self.alpha (deg)" ;;
  beta <- line data 10 (Some r2d) "self.beta (deg)" ;;
  roll_rate <- line data 11 (Some r2d) "Roll rate (deg/sec)" ;;
  pitch_rate <- line data 12 (Some r2d) "Pitch rate (deg/sec)" ;;
  yaw_rate <- line data 13 (Some r2d) "Yaw rate (deg/sec)" ;;
  down <- line data 19 None "Pos 'down' (m)" ;;
  Ok [ [airspeed]; [roll; pitch]; [alpha; beta];
       [roll_rate; pitch_rate; yaw_rate]; [down] ].

End simulator_plot.

(* ================================================================== *)
(** * build_full_model.py: the report and the feed-forward estimate *)

Module build_full_model_estimate.

(** [coeff = np.array(coeff)] and [np.mean(coeff[:,2])], the mean drag
    coefficient the script prints after the training pass. *)
Definition mean_cd (coeff : list (list R)) : outcome R :=
  arr <- np_array coeff ;;
  cd <- column arr 2 ;;
  Ok (mean cd).

Section FeedForward.

(** [sysid.A], [sysid.model["parameters"]] and the positions of the
    dependent states in the state list, [est_index_list]; [states] is the
    length of the first training vector. *)
Variable A : list (list R).
Variable parameters : list Param.
Variable est_index_list : list nat.
Variable states : nat.

(** [for j, index in enumerate(est_index_list): v[index-states] = est_val[j]],
    from position [j] on. *)
Fixpoint feed (idx : list nat) (j : nat) (est_val v : list R)
    : outcome (list R) :=
  match idx with
  | [] => Ok v
  | index_ :: rest =>
      e <- index est_val j ;;
      v <- py_set v (Z.of_nat index_ - Z.of_nat states)%Z e ;;
      feed rest (S j) est_val v
  end.

(** The loop that reads the prediction [p] back into [est_val], each value
    held within the [min] and [max] of its parameter. *)
Fixpoint collect (idx : list nat) (j : nat) (p est_val : list R)
    : outcome (list R) :=
  match idx with
  | [] => Ok est_val
  | index_ :: rest =>
      e <- py_index p (Z.of_nat index_ - Z.of_nat states)%Z ;;
      est_val <- py_set est_val (Z.of_nat j) e ;;
      param <- index parameters index_ ;;
      est_val <- py_set est_val (Z.of_nat j)
                   (state_mgr.clamp (pmin param) (pmax param) e) ;;
      collect rest (S j) p est_val
  end.

(** One iteration of the loop over the training set: [v], [est_val] and
    [pred] before and after. *)
Definition estimate_step (st : list R * list R * list (list R))
    (row : list R) : outcome (list R * list R * list (list R)) :=
  let '(v, est_val, pred) := st in
  let v := py_last (v ++ row) states in
  v <- feed est_index_list 0 est_val v ;;
  if Nat.eqb (List.length v) states then
    p <- matvec A v ;;
    est_val <- collect est_index_list 0 p est_val ;;
    Ok (v, est_val, (pred ++ [p])%list)
  else Ok (v, est_val, pred).

Fixpoint estimate_from (st : list R * list R * list (list R))
    (traindata : list (list R)) : outcome (list R * list R * list (list R)) :=
  match traindata with
  | [] => Ok st
  | row :: rest => st' <- estimate_step st row ;; estimate_from st' rest
  end.

End FeedForward.

(** The running estimate of the dependent states, [pred]: [states] is read
    from the first training vector, [est_val] starts as one zero per
    dependent state. *)
Definition feed_forward (A : list (list R)) (parameters : list Param)
    (est_index_list : list nat) (traindata : list (list R))
    : outcome (list (list R)) :=
  first <- index traindata 0 ;;
  let states := List.length first in
  let est_val := repeat 0 (List.length build_full_model.dependent_states) in
  ' (v, est_val, pred) <-
    estimate_from A parameters est_index_list states ([], est_val, []) traindata ;;
  Ok pred.

End build_full_model_estimate.

(* ================================================================== *)
(** * Vocabulary of the statements *)

(** ** Noise injection *)

(** The noise lists [add_noise] meets, in order, when it walks [n] array
    entries from position [i]: those of the parameters at positions
    [i .. i + n - 1] that have one. *)
Fixpoint visited_noise (ps : list Param) (i n : nat) : list (list (R * R)) :=
  match n with
  | O => []
  | S k =>
      match nth_error ps i with
      | Some prm =>
          match noise prm with
          | Some pts => pts :: visited_noise ps (S i) k
          | None => visited_noise ps (S i) k
          end
      | None => []
      end
  end.

(** The noise list of the first parameter, in file order, that has one. *)
Fixpoint first_noise (ps : list Param) : option (list (R * R)) :=
  match ps with
  | [] => None
  | prm :: rest =>
      match noise prm with
      | Some pts => Some pts
      | None => first_noise rest
      end
  end.

(** The one phase array of a call: the stored one, or the fresh draw made
    for the first noise list met. *)
Definition shared_phases (tr : option (list R)) (g : Rng)
    (met : list (list (R * R))) : option (list R) :=
  match tr, met with
  | Some a, _ => Some a
  | None, pts :: _ =>
      Some (map (fun v => v * 2 * PI) (fst (rand g (List.length pts))))
  | None, [] => None
  end.

(** The generator after the call: one draw at most. *)
Definition rng_after (tr : option (list R)) (g : Rng)
    (met : list (list (R * R))) : Rng :=
  match tr, met with
  | None, pts :: _ => snd (rand g (List.length pts))
  | _, _ => g
  end.

Definition phases_or_empty (o : option (list R)) : list R :=
  match o with Some a => a | None => [] end.

(** Every noise list met is at most as long as the phase array. *)
Definition all_fit (T : list R) (met : list (list (R * R))) : bool :=
  forallb (fun pts => Nat.leb (List.length pts) (List.length T)) met.

(** The sum of the sinusoids of one noise list, sinusoid [j] shifted by
    entry [j] of the phase array [T]. *)
Fixpoint sinusoids (T : list R) (t : R) (pts : list (R * R)) (j : nat) : R :=
  match pts with
  | [] => 0
  | (freq, amp) :: rest =>
      sin (nth j T 0 + t * 2 * PI * freq) * amp + sinusoids T t rest (S j)
  end.

(** The array after noise injection with the phase array [T]. *)
Fixpoint with_noise (ps : list Param) (T : list R) (t : R) (next : list R)
    (i : nat) : list R :=
  match next with
  | [] => []
  | v :: rest =>
      match nth_error ps i with
      | Some prm =>
          match noise prm with
          | Some pts => v + sinusoids T t pts 0
          | None => v
          end
      | None => v
      end :: with_noise ps T t rest (S i)
  end.

(** The reading of the design document, for comparison: every parameter
    with noise has a phase offset of its own, drawn when the parameter is
    first met and kept in [store]; that one offset shifts each of the
    parameter's sinusoids. *)
Fixpoint own_phase (store : list (nat * R)) (i : nat) : option R :=
  match store with
  | [] => None
  | (k, ph) :: rest => if Nat.eqb k i then Some ph else own_phase rest i
  end.

Fixpoint own_phase_sum (ph t : R) (pts : list (R * R)) (sum : R) : R :=
  match pts with
  | [] => sum
  | (freq, amp) :: rest =>
      own_phase_sum ph t rest (sum + sin (ph + t * 2 * PI * freq) * amp)
  end.

Fixpoint add_noise_own_phases (ps : list Param) (t : R) (next : list R)
    (i : nat) (store : list (nat * R)) (g : Rng)
    : outcome (list R * list (nat * R) * Rng) :=
  match next with
  | [] => Ok ([], store, g)
  | v :: rest =>
      prm <- index ps i ;;
      match noise prm with
      | None =>
          ' (rest', store', g') <- add_noise_own_phases ps t rest (S i) store g ;;
          Ok (v :: rest', store', g')
      | Some pts =>
          let '(ph, store1, g1) :=
            match own_phase store i with
            | Some ph => (ph, store, g)
            | None =>
                let '(u, g') := rand g 1 in
                let ph := nth 0 u 0 * 2 * PI in
                (ph, ((i, ph) :: store)%list, g')
            end in
          ' (rest', store', g') <-
            add_noise_own_phases ps t rest (S i) store1 g1 ;;
          Ok (v + own_phase_sum ph t pts 0 :: rest', store', g')
      end
  end.

(** ** The trigonometric branch *)


(** ** The passes over the flight log *)

(** The record has an [imu] group. *)
Definition has_imu (rec : build_full_model.LogRecord) : bool :=
  match build_full_model.imu rec with Some _ => true | None => false end.

(** A state vector the gate lets through: the vector generated from a
    state manager at which [is_flying] holds. *)
Definition gated `{state_mgr.Collaborators}
    (is_flying : state_mgr.StateManager -> bool) (state : list R) : Prop :=
  exists sm,
    is_flying sm = true
    /\ state_mgr.gen_state_vector
         (state_mgr.compute_body_frame_values true sm) None = Ok state.

(* ================================================================== *)
(** * Concrete models and logs *)

Module examples.
Import quaternion.

(** A reference implementation of the collaborators the design leaves
    open, to run the simulator on concrete models: the textbook Euler-angle
    extraction and vector rotations; the derived terms stay as stored. *)
Definition rotate (a : Quat) (v : Vec3) : Vec3 :=
  let '(x, y, z) := v in
  let w := multiply (multiply a (mkQuat 0 x y z))
                    (mkQuat (q0 a) (- q1 a) (- q2 a) (- q3 a)) in
  (q1 w, q2 w, q3 w).

Definition conjugate (a : Quat) : Quat :=
  mkQuat (q0 a) (- q1 a) (- q2 a) (- q3 a).

Definition reference : state_mgr.Collaborators :=
  {| state_mgr.quat2eul := fun a =>
       (atan2 (2 * (q2 a * q3 a + q0 a * q1 a))
              (2 * (q0 a * q0 a + q3 a * q3 a) - 1),
        asin (- (2 * (q1 a * q3 a - q0 a * q2 a))),
        atan2 (2 * (q1 a * q2 a + q0 a * q3 a))
              (2 * (q0 a * q0 a + q1 a * q1 a) - 1));
     state_mgr.backTransform := fun a v => rotate a v;
     state_mgr.ned2body_velocity := fun sm =>
       let '(phi, the, psi) := state_mgr.euler sm in
       let '(vn, ve, vd) := state_mgr.v_ned sm in
       let '(wn, we, wd) := state_mgr.wind_ned sm in
       rotate (conjugate (eul2quat phi the psi)) (vn - wn, ve - we, vd - wd);
     state_mgr.body_terms := fun sm => state_mgr.terms sm |}.

(** A model file over the given parameters with [dt = 0.01] and the given
    flat array, and the simulator that has loaded it. *)
Definition model_of (ps : list Param) (flat : list R) : ModelFile :=
  mkModelFile (1 / 100) ps flat.

Definition loaded (ps : list Param) (flat : list R) : simulator.Simulator :=
  match simulator.load (model_of ps flat) simulator.new with
  | Ok s => s
  | Raise _ => simulator.new
  end.

(** A dependent parameter without and with a noise spectrum. *)
Definition output (name : string) (lo hi med : R) : Param :=
  mkParam name "dependent" lo hi med 1 None.

Definition noisy (name : string) (pts : list (R * R)) : Param :=
  mkParam name "dependent" (-1) 1 0 1 (Some pts).

(** A random stream whose first draw is [1/4] and whose later draws are
    [3/4]. *)
Definition quarters : Rng :=
  fun k => match k with O => 1 / 4 | S _ => 3 / 4 end.

(** Two parameters with noise: the first with two noise points, the
    second with one; and the same two the other way round. *)
Definition two_then_one : list Param :=
  [ noisy "p" [(0, 1); (0, 1)]; noisy "q" [(0, 1)] ].

Definition one_then_two : list Param :=
  [ noisy "p" [(0, 1)]; noisy "q" [(0, 1); (0, 1)] ].

(** A model with an airspeed output and the three rates, in steady
    flight: the transition matrix is the identity. *)
Definition airspeed_and_rates : list Param :=
  [ output "airspeed" 0 100 10;
    output "p" (-1) 1 0; output "q" (-1) 1 0; output "r" (-1) 1 0 ].

Definition steady : list R :=
  [ 1; 0; 0; 0;
    0; 1; 0; 0;
    0; 0; 1; 0;
    0; 0; 0; 1 ].

(** The same parameters with a transition matrix whose airspeed row
    reverses the airspeed. *)
Definition reversing : list R :=
  [ -1; 0; 0; 0;
     0; 0; 0; 0;
     0; 0; 0; 0;
     0; 0; 0; 0 ].

(** A model with direct body-velocity outputs and the rates; the predicted
    forward and vertical velocities are both a tenth of the current forward
    velocity. *)
Definition velocity_and_rates : list Param :=
  [ output "bvx" 0 100 10; output "bvy" (-10) 10 0; output "bvz" (-10) 10 0;
    output "p" (-1) 1 0; output "q" (-1) 1 0; output "r" (-1) 1 0 ].

Definition climbing : list R :=
  [ 1 / 10; 0; 0; 0; 0; 0;
    0;      0; 0; 0; 0; 0;
    1 / 10; 0; 0; 0; 0; 0;
    0;      0; 0; 0; 0; 0;
    0;      0; 0; 0; 0; 0;
    0;      0; 0; 0; 0; 0 ].

(** A model with body-acceleration and body-velocity outputs but no
    airspeed output; the predicted forward velocity is half the current
    one. *)
Definition accel_and_velocity : list Param :=
  [ output "bax" (-10) 10 0; output "bay" (-10) 10 0; output "baz" (-10) 10 0;
    output "bvx" 0 100 10; output "bvy" (-10) 10 0; output "bvz" (-10) 10 0;
    output "p" (-1) 1 0; output "q" (-1) 1 0; output "r" (-1) 1 0 ].

Definition halving : list R :=
  (repeat 0 30 ++ [1 / 2] ++ repeat 0 50)%list.




(** The model [airspeed_and_rates] with a two-point noise spectrum on the
    roll rate. *)
Definition noisy_rates : list Param :=
  [ output "airspeed" 0 100 10;
    noisy "p" [(0, 1); (0, 1)]; output "q" (-1) 1 0; output "r" (-1) 1 0 ].




(** A model every parameter of which is an output, with the outputs
    [trim_error] reads, and the identity as transition matrix. *)
Definition trimmable : list Param :=
  [ output "airspeed" 0 100 15;
    output "thrust" (-10) 10 0; output "drag" (-10) 10 0;
    output "bay" (-10) 10 0;
    output "p" (-1) 1 0; output "q" (-1) 1 0; output "r" (-1) 1 0 ].

Definition identity7 : list R :=
  [ 1; 0; 0; 0; 0; 0; 0;
    0; 1; 0; 0; 0; 0; 0;
    0; 0; 1; 0; 0; 0; 0;
    0; 0; 0; 1; 0; 0; 0;
    0; 0; 0; 0; 1; 0; 0;
    0; 0; 0; 0; 0; 1; 0;
    0; 0; 0; 0; 0; 0; 1 ].

(** A solver that stops after one evaluation of the residuals, at the
    initial guess, without having converged. *)
Definition one_shot (S : Type)
    (f : list R -> S -> outcome (list R * S)) (x0 : list R) (st : S)
    : outcome (simulator.OptimizeResult * S) :=
  ' (errors, st') <- f x0 st ;;
  Ok (simulator.mkOptimizeResult x0 false, st').


(** An airborne gate on an airspeed threshold of 5 m/s. *)
Definition airspeed_gate (sm : state_mgr.StateManager) : bool :=
  if Rlt_dec 5 (state_mgr.airspeed_mps sm) then true else false.

(** Two records of a vehicle taxiing at 2 knots, each with an [imu] and an
    [air] group, a hundredth of a second apart; and two records of a
    vehicle flying at 40 knots. *)
Definition taxi_record (t : R) : build_full_model.LogRecord :=
  build_full_model.mkLogRecord
    (Some (build_full_model.mkImuPt t 0 0 0)) None
    (Some (build_full_model.mkAirPt 2 None None None)) None false.

Definition flight_record (t : R) : build_full_model.LogRecord :=
  build_full_model.mkLogRecord
    (Some (build_full_model.mkImuPt t 0 0 0)) None
    (Some (build_full_model.mkAirPt 40 None None None)) None false.

Definition taxi_log : list build_full_model.LogRecord :=
  [ taxi_record 0; taxi_record (1 / 100) ].

End examples.

(* ================================================================== *)
(** * Further vocabulary *)

(** The parameters of a model file whose type is neither "independent" nor
    "dependent". *)
Definition other_typed (ps : list Param) : list Param :=
  List.filter
    (fun prm => negb (String.eqb (ptype prm) "independent")
                && negb (String.eqb (ptype prm) "dependent"))
    ps.

(** The labelled values [trim] prints after the solver's result. *)
Definition trim_report (x0 x1 x2 x3 x4 : R) : list simulator.Printed :=
  [ simulator.PrintValue "throttle:" x0; simulator.PrintValue "aileron:" x1;
    simulator.PrintValue "elevator:" x2; simulator.PrintValue "rudder:" x3;
    simulator.PrintValue "phi:" x3; simulator.PrintValue "theta:" x4 ].

(** The time stamps of the records that carry an [imu] group, in log
    order. *)
Definition imu_times (log : list build_full_model.LogRecord) : list R :=
  flat_map
    (fun rec => match build_full_model.imu rec with
                | Some pt => [build_full_model.imu_time pt]
                | None => []
                end)
    log.

(** The steps of a sequence of time stamps that follows [prev]: each stamp
    minus the one before it. *)
Fixpoint steps (prev : R) (ts : list R) : list R :=
  match ts with
  | [] => []
  | t :: rest => (t - prev) :: steps t rest
  end.

(** The steps of a sequence, the first stamp being compared with itself. *)
Definition steps_from_first (ts : list R) : list R :=
  match ts with
  | [] => []
  | t0 :: _ => steps t0 ts
  end.

Definition total (l : list R) : R := fold_right Rplus 0 l.

(** The first record of the log that has an [air] or a [filter] group has
    a [filter] group and no [air] group. *)
Fixpoint filter_before_air (log : list build_full_model.LogRecord) : bool :=
  match log with
  | [] => false
  | rec :: rest =>
      match build_full_model.air rec, build_full_model.filter rec with
      | Some _, _ => false
      | None, Some _ => true
      | None, None => filter_before_air rest
      end
  end.

(** ** The training pass *)

(** Two state managers with the same state names. *)
Definition same_names (a b : state_mgr.StateManager) : Prop :=
  state_mgr.ind_states a = state_mgr.ind_states b
  /\ state_mgr.dep_states a = state_mgr.dep_states b.

(** The script's state manager still has the state names it was given. *)
Definition named (st : build_full_model.Pass) : Prop :=
  state_mgr.ind_states (build_full_model.mgr st) = build_full_model.independent_states
  /\ state_mgr.dep_states (build_full_model.mgr st) = build_full_model.dependent_states.

(** The agreement of the two output lists and the size of their rows. *)
Definition well_shaped (st : build_full_model.Pass) : Prop :=
  List.length (build_full_model.traindata st) = List.length (build_full_model.coeff st)
  /\ Forall (fun v => List.length v = 19%nat) (build_full_model.traindata st)
  /\ Forall (fun c => List.length c = 3%nat) (build_full_model.coeff st).

(** Which exceptions the channels of one record can raise. *)
Definition pass_error (e : exn) : Prop :=
  e = NameError \/ e = KeyError "q_bias" \/ e = KeyError "r_bias"
  \/ e = KeyError "wind_speed".


(** ** Trajectory columns *)

(** Column [j] of a list of rows. *)
Definition col (j : nat) (data : list (list R)) : list R :=
  map (fun row => nth j row 0) data.

(** Every row has [w] entries. *)
Definition uniform (w : nat) (data : list (list R)) : Prop :=
  Forall (fun row => List.length row = w) data.

(** The north, east and down parts of a 3-vector. *)
Definition north (v : Vec3) : R := fst (fst v).
Definition east (v : Vec3) : R := snd (fst v).
Definition down (v : Vec3) : R := snd v.

(** ** The feed-forward estimate *)

(** A training vector with the estimates written over the entries at the
    given positions. *)
Fixpoint fed (idx : list nat) (est_val row : list R) : list R :=
  match idx, est_val with
  | i :: idx', e :: est' => fed idx' est' (set_nth row i e)
  | _, _ => row
  end.

(** The matrix-vector product, row by row. *)
Definition product (A : list (list R)) (v : list R) : list R :=
  map (fun row => dot row v) A.

(** The estimates read back from a prediction [p]: the entry of each
    dependent state, counted from the end of [p], held within the [min]
    and [max] of its parameter. *)
Definition read_back (parameters : list Param) (states : nat)
    (idx : list nat) (p : list R) : list R :=
  map (fun i =>
         match nth_error parameters i with
         | Some prm =>
             state_mgr.clamp (pmin prm) (pmax prm)
               (nth (i + List.length p - states) p 0)
         | None => 0
         end)
      idx.

(** The predictions of the feed-forward loop, started with the estimates
    [est_val]. *)
Fixpoint forward (A : list (list R)) (parameters : list Param) (states : nat)
    (idx : list nat) (est_val : list R) (traindata : list (list R))
    : list (list R) :=
  match traindata with
  | [] => []
  | row :: rest =>
      let p := product A (fed idx est_val row) in
      p :: forward A parameters states idx
             (read_back parameters states idx p) rest
  end.

(** Two vectors of one length that agree at every position outside
    [idx]. *)
Definition agree_outside (idx : list nat) (a b : list R) : Prop :=
  List.length a = List.length b
  /\ forall k, ~ In k idx -> nth k a 0 = nth k b 0.

(** A gate that never holds, and one that always does. *)
Definition never_flying (sm : state_mgr.StateManager) : bool := false.
Definition always_flying (sm : state_mgr.StateManager) : bool := true.

(** ** Noise amplitudes *)

(** The sum of the amplitude magnitudes of a noise spectrum; a parameter
    without a spectrum has amplitude zero. *)
Definition amplitude (pts : list (R * R)) : R :=
  fold_right (fun pt acc => Rabs (snd pt) + acc) 0 pts.

Definition noise_amplitude (prm : Param) : R :=
  match noise prm with
  | Some pts => amplitude pts
  | None => 0
  end.

(* ================================================================== *)
(** * Further example data *)

Module samples.
Import build_full_model.

(** A prediction with body-acceleration outputs only. *)
Definition accelerating : dict := [ ("bax", 1); ("bay", 0); ("baz", 0) ].

(** A prediction with zero [sin(alpha)] and [sin(beta)] outputs. *)
Definition level : dict := [ ("sin(alpha)", 0); ("sin(beta)", 0) ].

(** A model file with one independent and two dependent parameters. *)
Definition mixed : list Param :=
  [ mkParam "throttle" "independent" 0 1 (1 / 2) 1 None;
    examples.output "airspeed" 0 100 10;
    examples.output "p" (-1) 1 0 ].

Definition mixed_model : ModelFile :=
  mkModelFile (1 / 100) mixed [ 0; 1; 0;  0; 0; 1 ].

(** A record with an [imu], an [air] and a [filter] group: wind from the
    east at 10 knots, and a filter solution that carries gyro biases. *)
Definition windy_record : LogRecord :=
  mkLogRecord
    (Some (mkImuPt 0 (1 / 10) (2 / 10) (3 / 10))) None
    (Some (mkAirPt 40 None (Some 90) (Some 10)))
    (Some (mkNavPt 0 0 0 20 0 0 (Some (1 / 100)) (Some (1 / 100)) (Some (1 / 100))))
    false.

(** A training set of two vectors of eight states, the last seven of them
    dependent, with the zero matrix of seven rows. *)
Definition eight : list Param :=
  repeat (examples.output "x" (-1) 1 0) 8.

Definition seven_by_eight : list (list R) := repeat (repeat 0 8) 7.

Definition last_seven : list nat := [1; 2; 3; 4; 5; 6; 7]%nat.

Definition two_vectors : list (list R) :=
  [ [1; 9; 9; 9; 9; 9; 9; 9]; [2; 9; 9; 9; 9; 9; 9; 9] ].

End samples.

(* ================================================================== *)
(** * A simulator that has loaded a model *)

(** The model attributes are set, the matrix has one column per parameter
    and the state manager has one state name per parameter. *)
Definition ready (s : simulator.Simulator) : Prop :=
  exists ps a d,
    simulator.params s = Some ps
    /\ simulator.A s = Some a
    /\ simulator.dt s = Some d
    /\ uniform (List.length ps) a
    /\ List.length (state_mgr.state_list (simulator.state_mgr s)) = List.length ps.

(* ================================================================== *)
(** * Properties *)

(** ** Reshaping the flat array *)

Section Reshape.

Lemma chunks_length (cols rows : nat) (flat : list R) :
  List.length (chunks cols rows flat) = rows.
Proof.
  revert flat; induction rows as [|r IH]; intros flat; simpl.
  - reflexivity.
  - now rewrite IH.
Qed.

Lemma chunks_row_length (cols rows : nat) (flat : list R) :
  List.length flat = (rows * cols)%nat ->
  forall row, In row (chunks cols rows flat) -> List.length row = cols.
Proof.
  revert flat; induction rows as [|r IH]; intros flat Hlen row Hin; simpl in *.
  - contradiction.
  - destruct Hin as [<- | Hin].
    + rewrite length_firstn. lia.
    + apply (IH (skipn cols flat)); [rewrite length_skipn; lia | exact Hin].
Qed.

Lemma chunks_nth (cols rows : nat) (flat : list R) (i j : nat) :
  (i < rows)%nat -> (j < cols)%nat ->
  nth j (nth i (chunks cols rows flat) []) 0 = nth (i * cols + j) flat 0.
Proof.
  revert flat i; induction rows as [|r IH]; intros flat i Hi Hj; [lia|].
  destruct i as [|i]; simpl.
  - now rewrite nth_firstn, (proj2 (Nat.ltb_lt j cols) Hj).
  - rewrite IH by lia. rewrite nth_skipn. f_equal. lia.
Qed.

Lemma count_dependent_filter (ps : list Param) :
  simulator.count_dependent ps =
  List.length (List.filter (fun prm => String.eqb (ptype prm) "dependent") ps).
Proof.
  induction ps as [|prm ps IH]; simpl; [reflexivity|].
  destruct (String.eqb (ptype prm) "dependent"); simpl; now rewrite IH.
Qed.

End Reshape.

(** C7: [load] raises (a [ValueError] from the reshape, no simulator is
    returned) on every model whose flat array [A] does not have
    [dependent_count * total_count] entries.  On every other model it
    succeeds, and the loaded [A] has one row per parameter typed
    "dependent", each row as long as the parameter list, with entry
    [(i, j)] the flat entry [i * cols + j]: column [j] belongs to the
    [j]-th parameter of the file, and the parameter list is kept in file
    order. *)
Theorem load_validates_shape (model : ModelFile) (s : simulator.Simulator) :
  let ps := mf_parameters model in
  let rows := List.length
                (List.filter (fun prm => String.eqb (ptype prm) "dependent") ps) in
  let cols := List.length ps in
  (List.length (mf_A model) <> (rows * cols)%nat ->
   simulator.load model s = Raise ValueError)
  /\
  (List.length (mf_A model) = (rows * cols)%nat ->
   exists s' a,
     simulator.load model s = Ok s'
     /\ simulator.A s' = Some a
     /\ simulator.params s' = Some ps
     /\ simulator.dt s' = Some (mf_dt model)
     /\ List.length a = rows
     /\ (forall row, In row a -> List.length row = cols)
     /\ (forall i j, (i < rows)%nat -> (j < cols)%nat ->
           nth j (nth i a []) 0 = nth (i * cols + j) (mf_A model) 0)).
Proof.
  intros ps rows cols. subst rows.
  rewrite <- count_dependent_filter. fold ps.
  unfold simulator.load, reshape. fold ps. fold cols.
  split; intros Hlen.
  - apply Nat.eqb_neq in Hlen. now rewrite Hlen.
  - rewrite (proj2 (Nat.eqb_eq _ _) Hlen). simpl.
    eexists; eexists. split; [reflexivity|]. simpl.
    repeat split.
    + apply chunks_length.
    + apply chunks_row_length; exact Hlen.
    + intros i j Hi Hj. now apply chunks_nth.
Qed.

(** ** Noise injection *)

Section Noise.

Lemma noise_sum_spec (T : list R) (t : R) (pts : list (R * R)) :
  forall (j : nat) (acc : R),
    simulator.noise_sum T t pts j acc =
    if Nat.leb (j + List.length pts) (List.length T)
    then Ok (acc + sinusoids T t pts j)
    else if Nat.eqb (List.length pts) 0 then Ok (acc + sinusoids T t pts j)
    else Raise IndexError.
Proof.
  induction pts as [|[freq amp] rest IH]; intros j acc; simpl.
  - destruct (Nat.leb (j + 0) (List.length T)); f_equal; lra.
  - unfold index.
    destruct (nth_error T j) as [ph|] eqn:Hj; simpl.
    + assert (Hlt : (j < List.length T)%nat)
        by (apply nth_error_Some; congruence).
      rewrite IH.
      rewrite (nth_error_nth _ _ 0 Hj).
      replace (S j + List.length rest)%nat with (j + S (List.length rest))%nat by lia.
      destruct (Nat.leb (j + S (List.length rest)) (List.length T)) eqn:Hfit.
      * f_equal; lra.
      * destruct rest as [|pt rest']; simpl in *.
        -- apply Nat.leb_gt in Hfit. lia.
        -- reflexivity.
    + apply nth_error_None in Hj.
      destruct (Nat.leb (j + S (List.length rest)) (List.length T)) eqn:Hfit.
      * apply Nat.leb_le in Hfit. lia.
      * reflexivity.
Qed.

Lemma noise_sum_from_zero (T : list R) (t : R) (pts : list (R * R)) :
  simulator.noise_sum T t pts 0 0 =
  if Nat.leb (List.length pts) (List.length T)
  then Ok (sinusoids T t pts 0)
  else Raise IndexError.
Proof.
  rewrite noise_sum_spec. simpl. rewrite Rplus_0_l.
  destruct (Nat.leb (List.length pts) (List.length T)) eqn:Hfit; [reflexivity|].
  destruct pts; simpl in *; [discriminate | reflexivity].
Qed.

Lemma phase_array_shared (tr : option (list R)) (g : Rng)
    (pts : list (R * R)) (met : list (list (R * R))) :
  simulator.phase_array tr g (List.length pts) =
  (phases_or_empty (shared_phases tr g (pts :: met)), rng_after tr g (pts :: met)).
Proof. destruct tr; reflexivity. Qed.

Lemma add_noise_from_spec (ps : list Param) (t : R) :
  forall (next : list R) (i : nat) (tr : option (list R)) (g : Rng),
    (i + List.length next <= List.length ps)%nat ->
    simulator.add_noise_from ps t next i tr g =
    let met := visited_noise ps i (List.length next) in
    let T := phases_or_empty (shared_phases tr g met) in
    if all_fit T met
    then Ok (with_noise ps T t next i, shared_phases tr g met, rng_after tr g met)
    else Raise IndexError.
Proof.
  induction next as [|v rest IH]; intros i tr g Hlen.
  - simpl. destruct tr; reflexivity.
  - simpl in Hlen. simpl.
    unfold index.
    destruct (nth_error ps i) as [prm|] eqn:Hi;
      [|apply nth_error_None in Hi; lia].
    simpl.
    destruct (noise prm) as [pts|] eqn:Hn.
    + rewrite (phase_array_shared tr g pts (visited_noise ps (S i) (List.length rest))).
      set (met' := visited_noise ps (S i) (List.length rest)).
      set (T := phases_or_empty (shared_phases tr g (pts :: met'))).
      rewrite noise_sum_from_zero.
      simpl all_fit.
      destruct (Nat.leb (List.length pts) (List.length T)) eqn:Hfit; simpl;
        [|reflexivity].
      rewrite IH by lia. fold met'. simpl.
      destruct (all_fit T met'); simpl; [|reflexivity].
      subst T. destruct tr; reflexivity.
    + rewrite IH by lia. simpl.
      destruct (all_fit _ _); reflexivity.
Qed.

End Noise.

(** ** Inverting a successful computation *)

Lemma bind_ok {X Y : Type} (m : outcome X) (k : X -> outcome Y) (y : Y) :
  bind m k = Ok y -> exists x, m = Ok x /\ k x = Ok y.
Proof. destruct m as [x|e]; simpl; [eauto | discriminate]. Qed.

Lemma bind_Ok {X Y : Type} (a : X) (k : X -> outcome Y) : bind (Ok a) k = k a.
Proof. reflexivity. Qed.

Tactic Notation "bind_inv" hyp(H) "as" ident(x) ident(E) :=
  apply bind_ok in H; destruct H as (x & E & H).

Section NoiseRuns.
Context `{state_mgr.Collaborators}.

Lemma add_noise_from_in_range (ps : list Param) (t : R) :
  forall next i tr g out,
    (i <= List.length ps)%nat ->
    simulator.add_noise_from ps t next i tr g = Ok out ->
    (i + List.length next <= List.length ps)%nat.
Proof.
  induction next as [|v rest IH]; intros i tr g out Hi0 Hok; simpl in *.
  - lia.
  - bind_inv Hok as prm Eprm. unfold index in Eprm.
    destruct (nth_error ps i) eqn:Hi; [|discriminate].
    assert (i < List.length ps)%nat by (apply nth_error_Some; congruence).
    destruct (noise prm) as [pts|].
    + destruct (simulator.phase_array tr g (List.length pts)) as [a g1].
      bind_inv Hok as sum Esum. bind_inv Hok as tl Etl. apply IH in Etl; lia.
    + bind_inv Hok as tl Etl. apply IH in Etl; lia.
Qed.

Lemma advance_keeps (s s' : simulator.Simulator) (result : dict)
    (tr : option (list R)) :
  simulator.advance s result tr = Ok s' ->
  simulator.trand s' = tr
  /\ simulator.params s' = simulator.params s
  /\ simulator.A s' = simulator.A s
  /\ simulator.dt s' = simulator.dt s.
Proof.
  unfold simulator.advance. intros Hok.
  bind_inv Hok as airspeed Ea.
  bind_inv Hok as dt_ Edt.
  bind_inv Hok as rv Erv.
  bind_inv Hok as p_ Ep.
  bind_inv Hok as q_ Eq.
  bind_inv Hok as r_ Er.
  bind_inv Hok as acc Eacc.
  destruct acc as [[[ax_ ay_] az_] sm].
  destruct (state_mgr.quat2eul _) as [[phi the] psi].
  inversion Hok; subst; simpl. auto.
Qed.

Lemma update_phase_array (s s' : simulator.Simulator) (g g' : Rng) :
  simulator.update s g = Ok (s', g') ->
  exists (ps : list Param) (next : list R),
    simulator.params s = Some ps
    /\ (List.length next <= List.length ps)%nat
    /\ simulator.trand s' =
         shared_phases (simulator.trand s) g
           (visited_noise ps 0 (List.length next))
    /\ g' = rng_after (simulator.trand s) g
              (visited_noise ps 0 (List.length next))
    /\ simulator.params s' = simulator.params s.
Proof.
  unfold simulator.update. intros Hok.
  bind_inv Hok as pr Epr. destruct pr as [[result tr] g1].
  bind_inv Hok as s1 Eadv. inversion Hok; subst; clear Hok.
  apply advance_keeps in Eadv. destruct Eadv as (Etr & Eps & _).
  unfold simulator.predict in Epr.
  bind_inv Epr as ps Eps0.
  bind_inv Epr as state Est.
  bind_inv Epr as a Ea.
  bind_inv Epr as next Enext.
  bind_inv Epr as noised Enoise. destruct noised as [[next' tr'] g2].
  bind_inv Epr as input Ein.
  bind_inv Epr as res Eres.
  inversion Epr; subst; clear Epr.
  unfold simulator.add_noise in Enoise.
  destruct (simulator.params s) as [ps'|] eqn:Hps; simpl in Eps0, Enoise;
    [|discriminate].
  inversion Eps0; subst ps'; clear Eps0.
  pose proof (add_noise_from_in_range _ _ _ _ _ _ _ (Nat.le_0_l _) Enoise) as Hlen.
  rewrite add_noise_from_spec in Enoise by exact Hlen.
  simpl in Enoise.
  destruct (all_fit _ _); [|discriminate].
  inversion Enoise; subst.
  exists ps, next. simpl in Hlen. auto.
Qed.

End NoiseRuns.

(** After [load], the predicted array is never longer than the parameter
    list: it has one entry per row of [A], one row per parameter typed
    "dependent". *)
Section LoadedRange.

Lemma count_dependent_le (ps : list Param) :
  (simulator.count_dependent ps <= List.length ps)%nat.
Proof.
  induction ps as [|prm ps IH]; simpl; [lia|].
  destruct (String.eqb (ptype prm) "dependent"); simpl; lia.
Qed.

Lemma matvec_length (a : list (list R)) (v : list R) :
  forall next, matvec a v = Ok next -> List.length next = List.length a.
Proof.
  induction a as [|row a IH]; intros next Hok; simpl in Hok.
  - inversion Hok; subst. reflexivity.
  - destruct (Nat.eqb (List.length row) (List.length v)); [|discriminate].
    bind_inv Hok as t Et. inversion Hok; subst. simpl. now rewrite (IH t Et).
Qed.

Lemma loaded_prediction_in_range (model : ModelFile)
    (s0 s : simulator.Simulator) (a : list (list R)) (ps : list Param)
    (state next : list R) :
  simulator.load model s0 = Ok s ->
  simulator.A s = Some a ->
  simulator.params s = Some ps ->
  matvec a state = Ok next ->
  (List.length next <= List.length ps)%nat.
Proof.
  unfold simulator.load, reshape. intros Hload Ha Hps Hnext.
  destruct (Nat.eqb _ _); [|discriminate].
  simpl in Hload. inversion Hload; subst s; clear Hload.
  simpl in Ha, Hps. inversion Ha; subst a. inversion Hps; subst ps.
  rewrite (matvec_length _ _ _ Hnext), chunks_length.
  apply count_dependent_le.
Qed.

End LoadedRange.

Section NoiseClaims.
Context `{state_mgr.Collaborators}.

Lemma shared_phases_fresh_length (g : Rng) (pts : list (R * R))
    (later : list (list (R * R))) :
  List.length (phases_or_empty (shared_phases None g (pts :: later))) =
  List.length pts.
Proof. simpl. now rewrite !length_map, length_seq. Qed.

Lemma add_noise_call (s : simulator.Simulator) (g : Rng) (next : list R)
    (ps : list Param) :
  simulator.params s = Some ps ->
  (List.length next <= List.length ps)%nat ->
  simulator.add_noise s g next =
  let met := visited_noise ps 0 (List.length next) in
  let T := phases_or_empty (shared_phases (simulator.trand s) g met) in
  if all_fit T met
  then Ok (with_noise ps T (simulator.time s) next 0,
           shared_phases (simulator.trand s) g met,
           rng_after (simulator.trand s) g met)
  else Raise IndexError.
Proof.
  intros Hps Hlen. unfold simulator.add_noise. rewrite Hps. simpl.
  now rewrite add_noise_from_spec by exact Hlen.
Qed.

(** C10: [add_noise] works with one phase array for the whole call: the
    stored [self.trand], or, while that is still [None], an array drawn for
    the first parameter met that has noise, with one entry per noise point
    of that parameter.  The same array is indexed by sinusoid position for
    every parameter with noise.  The call (and with it [update]) succeeds
    exactly when no noise list met is longer than that array, that is, when
    no later parameter's noise list is longer than the first one's;
    otherwise the phase lookup raises [IndexError]. *)
Theorem add_noise_single_phase_array
    (s : simulator.Simulator) (g : Rng) (next : list R) (ps : list Param) :
  simulator.params s = Some ps ->
  (List.length next <= List.length ps)%nat ->
  let met := visited_noise ps 0 (List.length next) in
  let T := phases_or_empty (shared_phases (simulator.trand s) g met) in
  (all_fit T met = true ->
   simulator.add_noise s g next =
   Ok (with_noise ps T (simulator.time s) next 0,
       shared_phases (simulator.trand s) g met,
       rng_after (simulator.trand s) g met))
  /\ (all_fit T met = false ->
      simulator.add_noise s g next = Raise IndexError)
  /\ (forall pts later,
        simulator.trand s = None -> met = (pts :: later)%list ->
        List.length T = List.length pts
        /\ all_fit T met =
           forallb (fun l => Nat.leb (List.length l) (List.length pts)) later)
  /\ (forall state a,
        state_mgr.gen_state_vector (simulator.state_mgr s) (Some ps) = Ok state ->
        simulator.A s = Some a ->
        matvec a state = Ok next ->
        all_fit T met = false ->
        simulator.update s g = Raise IndexError).
Proof.
  intros Hps Hlen met T.
  pose proof (add_noise_call s g next ps Hps Hlen) as Hcall.
  cbv zeta in Hcall. fold met in Hcall. fold T in Hcall.
  split; [|split; [|split]].
  - intros Hfit. now rewrite Hcall, Hfit.
  - intros Hfit. now rewrite Hcall, Hfit.
  - intros pts later Htr Hmet. subst T. rewrite Htr, Hmet.
    pose proof (shared_phases_fresh_length g pts later) as HT.
    split; [exact HT|].
    set (T0 := phases_or_empty (shared_phases None g (pts :: later))) in *.
    change (all_fit T0 (pts :: later))
      with (Nat.leb (List.length pts) (List.length T0)
            && forallb (fun l => Nat.leb (List.length l) (List.length T0)) later).
    rewrite HT, Nat.leb_refl. reflexivity.
  - intros state a Hstate Ha Hnext Hfit.
    unfold simulator.update, simulator.predict.
    rewrite Hps. simpl. rewrite Hstate. simpl. rewrite Ha. simpl.
    rewrite Hnext. simpl. rewrite Hcall, Hfit. reflexivity.
Qed.

Lemma visited_noise_shift (prm : Param) (ps : list Param) :
  forall n i, visited_noise (prm :: ps) (S i) n = visited_noise ps i n.
Proof.
  induction n as [|n IH]; intros i; simpl; [reflexivity|].
  destruct (nth_error ps i) as [x|]; [|reflexivity].
  destruct (noise x); now rewrite IH.
Qed.

(** The first noise list met, whatever the number of entries walked, is
    that of the first parameter with noise. *)
Lemma visited_noise_first (ps : list Param) :
  forall n pts later,
    visited_noise ps 0 n = (pts :: later)%list -> first_noise ps = Some pts.
Proof.
  induction ps as [|prm ps IH]; intros n pts later Hmet.
  - destruct n; discriminate.
  - destruct n as [|n]; [discriminate|]. simpl in Hmet. simpl.
    rewrite visited_noise_shift in Hmet.
    destruct (noise prm) as [l|].
    + now inversion Hmet.
    + exact (IH n pts later Hmet).
Qed.

Lemma with_noise_nth (ps : list Param) (T : list R) (t : R) :
  forall next i k prm pts,
    (k < List.length next)%nat ->
    nth_error ps (i + k) = Some prm ->
    noise prm = Some pts ->
    nth k (with_noise ps T t next i) 0 = nth k next 0 + sinusoids T t pts 0.
Proof.
  induction next as [|v rest IH]; intros i k prm pts Hk Hprm Hn; simpl in Hk.
  - lia.
  - destruct k as [|k]; simpl.
    + rewrite Nat.add_0_r in Hprm. now rewrite Hprm, Hn.
    + apply (IH (S i) k prm pts); [lia| |exact Hn].
      rewrite <- Hprm. f_equal. lia.
Qed.

Lemma shared_phases_settled (tr : option (list R)) (g : Rng)
    (met : list (list (R * R))) :
  shared_phases (shared_phases tr g met) (rng_after tr g met) met =
    shared_phases tr g met
  /\ rng_after (shared_phases tr g met) (rng_after tr g met) met =
     rng_after tr g met.
Proof. destruct tr as [T|]; destruct met as [|pts later]; split; reflexivity. Qed.

(** One update: the prediction has one entry per row of [A], so the
    parameters walked by [add_noise] are the first [len(A)] ones. *)
Lemma update_phase_array_rows (s s' : simulator.Simulator) (g g' : Rng) :
  simulator.update s g = Ok (s', g') ->
  exists (ps : list Param) (a : list (list R)),
    simulator.params s = Some ps
    /\ simulator.A s = Some a
    /\ simulator.params s' = Some ps
    /\ simulator.A s' = Some a
    /\ simulator.trand s' =
         shared_phases (simulator.trand s) g
           (visited_noise ps 0 (List.length a))
    /\ g' = rng_after (simulator.trand s) g
              (visited_noise ps 0 (List.length a)).
Proof.
  unfold simulator.update. intros Hok.
  bind_inv Hok as pr Epr. destruct pr as [[result tr] g1].
  bind_inv Hok as s1 Eadv. inversion Hok; subst; clear Hok.
  apply advance_keeps in Eadv. destruct Eadv as (Etr & Eps & EA & _).
  unfold simulator.predict in Epr.
  bind_inv Epr as ps Eps0.
  bind_inv Epr as state Est.
  bind_inv Epr as a Ea.
  bind_inv Epr as next Enext.
  bind_inv Epr as noised Enoise. destruct noised as [[next' tr'] g2].
  bind_inv Epr as input Ein.
  bind_inv Epr as res Eres.
  inversion Epr; subst; clear Epr.
  unfold simulator.add_noise in Enoise.
  destruct (simulator.params s) as [ps'|] eqn:Hps; simpl in Eps0, Enoise;
    [|discriminate].
  inversion Eps0; subst ps'; clear Eps0.
  destruct (simulator.A s) as [a'|] eqn:HA; simpl in Ea; [|discriminate].
  inversion Ea; subst a'; clear Ea.
  pose proof (add_noise_from_in_range _ _ _ _ _ _ _ (Nat.le_0_l _) Enoise) as Hlen.
  rewrite add_noise_from_spec in Enoise by exact Hlen.
  simpl in Enoise.
  destruct (all_fit _ _); [|discriminate].
  inversion Enoise; subst.
  rewrite (matvec_length _ _ _ Enext).
  exists ps, a. rewrite Eps, EA. auto 10.
Qed.

Lemma run_phase_array (n : nat) :
  forall (s s' : simulator.Simulator) (g g' : Rng),
    simulator.run (S n) s g = Ok (s', g') ->
    exists (ps : list Param) (a : list (list R)),
      simulator.params s = Some ps
      /\ simulator.A s = Some a
      /\ simulator.trand s' =
           shared_phases (simulator.trand s) g
             (visited_noise ps 0 (List.length a))
      /\ g' = rng_after (simulator.trand s) g
                (visited_noise ps 0 (List.length a)).
Proof.
  induction n as [|n IH]; intros s s' g g' Hrun.
  - simpl in Hrun. bind_inv Hrun as st Eup. destruct st as [s1 g1].
    inversion Hrun; subst s1 g1; clear Hrun.
    destruct (update_phase_array_rows _ _ _ _ Eup)
      as (ps & a & Hps & HA & _ & _ & Htr & Hg).
    exists ps, a. auto.
  - change (simulator.run (S (S n)) s g)
      with (bind (simulator.update s g)
              (fun st => let '(s1, g1) := st in simulator.run (S n) s1 g1))
      in Hrun.
    bind_inv Hrun as st Eup. destruct st as [s1 g1].
    destruct (update_phase_array_rows _ _ _ _ Eup)
      as (ps & a & Hps & HA & Hps1 & HA1 & Htr & Hg).
    destruct (IH s1 s' g1 g' Hrun) as (ps' & a' & Hps' & HA' & Htr' & Hg').
    assert (ps' = ps) by congruence. assert (a' = a) by congruence.
    subst ps' a'.
    exists ps, a. split; [exact Hps|]. split; [exact HA|].
    destruct (shared_phases_settled (simulator.trand s) g
                (visited_noise ps 0 (List.length a))) as (Hs1 & Hs2).
    rewrite Htr', Hg', Htr, Hg. split; assumption.
Qed.

(** C3 (as amended): one phase array serves the whole run, and it is
    shared by all parameters.

    One noise injection.  The array [T] of the call is the stored
    [self.trand] when there is one: then nothing is drawn and the array is
    not changed.  While [self.trand] is [None] and no parameter with noise
    is met, nothing is drawn either.  While [self.trand] is [None] and a
    parameter with noise is met, the array is drawn then, once, for the
    first such parameter: one draw per noise point of that parameter, each
    scaled by [2 * pi].  In every case entry [j] of [T] is the offset of
    sinusoid [j] of every parameter with noise.

    One update walks the first [len(A)] parameters, and a run of one or
    more updates leaves the array of its first update: the stored one, or
    the one drawn for the first parameter with noise, or none. *)
Theorem phase_array_drawn_once_and_shared :
  (forall (s : simulator.Simulator) (g : Rng) (next : list R)
          (ps : list Param),
      simulator.params s = Some ps ->
      (List.length next <= List.length ps)%nat ->
      let met := visited_noise ps 0 (List.length next) in
      let T := phases_or_empty (shared_phases (simulator.trand s) g met) in
      all_fit T met = true ->
      exists (tr' : option (list R)) (g' : Rng),
        simulator.add_noise s g next =
          Ok (with_noise ps T (simulator.time s) next 0, tr', g')
        /\ (forall i prm pts,
              (i < List.length next)%nat ->
              nth_error ps i = Some prm ->
              noise prm = Some pts ->
              nth i (with_noise ps T (simulator.time s) next 0) 0 =
              nth i next 0 + sinusoids T (simulator.time s) pts 0)
        /\ (forall T0, simulator.trand s = Some T0 ->
              T = T0 /\ tr' = Some T0 /\ g' = g)
        /\ (simulator.trand s = None -> met = [] -> tr' = None /\ g' = g)
        /\ (forall pts later,
              simulator.trand s = None -> met = (pts :: later)%list ->
              first_noise ps = Some pts
              /\ T = map (fun v => v * 2 * PI) (fst (rand g (List.length pts)))
              /\ List.length T = List.length pts
              /\ tr' = Some T
              /\ g' = snd (rand g (List.length pts))))
  /\
  (forall (n : nat) (s s' : simulator.Simulator) (g g' : Rng),
      simulator.run (S n) s g = Ok (s', g') ->
      exists (ps : list Param) (a : list (list R)),
        simulator.params s = Some ps
        /\ simulator.A s = Some a
        /\ let met := visited_noise ps 0 (List.length a) in
           (forall T0, simulator.trand s = Some T0 ->
              simulator.trand s' = Some T0 /\ g' = g)
           /\ (simulator.trand s = None -> met = [] ->
               simulator.trand s' = None /\ g' = g)
           /\ (forall pts later,
                 simulator.trand s = None -> met = (pts :: later)%list ->
                 first_noise ps = Some pts
                 /\ simulator.trand s' =
                    Some (map (fun v => v * 2 * PI)
                            (fst (rand g (List.length pts))))
                 /\ g' = snd (rand g (List.length pts)))).
Proof.
  split.
  - intros s g next ps Hps Hlen met T Hfit.
    pose proof (add_noise_call s g next ps Hps Hlen) as Hcall.
    cbv zeta in Hcall. fold met in Hcall. fold T in Hcall.
    rewrite Hfit in Hcall.
    exists (shared_phases (simulator.trand s) g met),
           (rng_after (simulator.trand s) g met).
    split; [exact Hcall|]. split; [|split; [|split]].
    + intros i prm pts Hi Hprm Hn.
      now apply (with_noise_nth ps T (simulator.time s) next 0 i prm pts).
    + intros T0 Htr. subst T. rewrite Htr. repeat split.
    + intros Htr Hmet. rewrite Htr, Hmet. split; reflexivity.
    + intros pts later Htr Hmet.
      split; [exact (visited_noise_first ps _ pts later Hmet)|].
      subst T. rewrite Htr, Hmet.
      split; [reflexivity|].
      split; [apply (shared_phases_fresh_length g pts later)|].
      split; reflexivity.
  - intros n s s' g g' Hrun.
    destruct (run_phase_array n s s' g g' Hrun) as (ps & a & Hps & HA & Htr & Hg).
    exists ps, a. split; [exact Hps|]. split; [exact HA|]. cbv zeta.
    split; [|split].
    + intros T0 H0. rewrite H0 in Htr, Hg. split; assumption.
    + intros H0 Hmet. rewrite H0, Hmet in Htr, Hg. split; assumption.
    + intros pts later H0 Hmet.
      split; [exact (visited_noise_first ps _ pts later Hmet)|].
      rewrite H0, Hmet in Htr, Hg. split; assumption.
Qed.

End NoiseClaims.

Section NoiseExamples.
Import examples.

Lemma sin_quarter_turn (t : R) : sin (1 / 4 * 2 * PI + t * 2 * PI * 0) = 1.
Proof.
  replace (1 / 4 * 2 * PI + t * 2 * PI * 0) with (PI / 2) by lra.
  exact sin_PI2.
Qed.

Lemma sin_three_quarter_turn (t : R) :
  sin (3 / 4 * 2 * PI + t * 2 * PI * 0) = -1.
Proof.
  replace (3 / 4 * 2 * PI + t * 2 * PI * 0) with (3 * (PI / 2)) by lra.
  exact sin_3PI2.
Qed.

(** C3, counterexample.  Two parameters with noise, the first with two
    sinusoids; the stream draws 1/4 and then 3/4.  The code draws one
    two-entry array: the two sinusoids of the first parameter get
    different offsets (sum [1 - 1 = 0]) and the second parameter reuses the
    first entry (sum [1]).  With one offset per parameter, drawn per
    parameter, the sums would be [2] and [-1]. *)
Lemma per_parameter_offset_refuted :
  (exists g',
     simulator.add_noise (loaded two_then_one [0; 0; 0; 0]) quarters [0; 0] =
     Ok ([0; 1], Some [1 / 4 * 2 * PI; 3 / 4 * 2 * PI], g'))
  /\
  (exists store g',
     add_noise_own_phases two_then_one 0 [0; 0] 0 [] quarters =
     Ok ([2; -1], store, g')).
Proof.
  split.
  - eexists. unfold simulator.add_noise. simpl.
    rewrite !sin_quarter_turn, !sin_three_quarter_turn.
    replace (0 + (0 + 1 * 1 + -1 * 1)) with 0 by lra.
    replace (0 + (0 + 1 * 1)) with 1 by lra.
    reflexivity.
  - eexists. eexists. simpl.
    rewrite !sin_quarter_turn, !sin_three_quarter_turn.
    replace (0 + (0 + 1 * 1 + 1 * 1)) with 2 by lra.
    replace (0 + (0 + -1 * 1)) with (-1) by lra.
    reflexivity.
Qed.

End NoiseExamples.

(** ** The guards of the body-velocity resolution *)

Section Guards.
Import constants.

Lemma max_angle_pos : 0 < simulator.max_angle.
Proof.
  unfold simulator.max_angle, d2r. pose proof PI_RGT_0. lra.
Qed.

Lemma clamp_unit_bounds (v : R) : -1 <= simulator.clamp_unit v <= 1.
Proof.
  unfold simulator.clamp_unit.
  destruct (Rlt_dec 1 v); destruct (Rlt_dec _ (-1)); lra.
Qed.

Lemma clamp_unit_id (v : R) : -1 <= v <= 1 -> simulator.clamp_unit v = v.
Proof.
  intros Hv. unfold simulator.clamp_unit.
  destruct (Rlt_dec 1 v); destruct (Rlt_dec _ (-1)); lra.
Qed.

Lemma clamp_angle_bounds (a : R) :
  - simulator.max_angle <= simulator.clamp_angle a <= simulator.max_angle.
Proof.
  pose proof max_angle_pos. unfold simulator.clamp_angle.
  destruct (Rlt_dec simulator.max_angle a); destruct (Rlt_dec _ (- _)); lra.
Qed.

Lemma clamp_angle_id (a : R) :
  - simulator.max_angle <= a <= simulator.max_angle ->
  simulator.clamp_angle a = a.
Proof.
  intros Ha. unfold simulator.clamp_angle.
  destruct (Rlt_dec simulator.max_angle a); destruct (Rlt_dec _ (- _)); lra.
Qed.

Lemma py_asin_in_domain (v : R) : -1 <= v <= 1 -> py_asin v = Ok (asin v).
Proof.
  intros Hv. unfold py_asin.
  destruct (Rlt_dec v (-1)); [lra|]. destruct (Rlt_dec 1 v); [lra|reflexivity].
Qed.

Lemma np_div_finite (x y : R) : y <> 0 -> np_div x y = Finite (x / y).
Proof.
  intros Hy. unfold np_div.
  destruct (Req_dec_T y 0); [contradiction|reflexivity].
Qed.

Lemma div_ok (x y : R) : y <> 0 -> div x y = Ok (x / y).
Proof. intros Hy. unfold div. now rewrite np_div_finite. Qed.

Lemma sign_abs (w : R) : Rabs (sign w) <= 1.
Proof.
  unfold sign.
  destruct (Rlt_dec w 0); [|destruct (Rlt_dec 0 w)];
    unfold Rabs; destruct (Rcase_abs _); lra.
Qed.

Lemma clamp_ratio_spec (w vx : R) :
  0 < vx ->
  exists w',
    simulator.clamp_ratio w vx = Ok w'
    /\ Rabs w' <= vx / 10
    /\ (Rabs (w / vx) <= 1 / 10 -> w' = w).
Proof.
  intros Hvx. unfold simulator.clamp_ratio.
  rewrite div_ok by lra. simpl.
  destruct (Rlt_dec (1 / 10) (Rabs (w / vx))) as [Hbig|Hsmall].
  - eexists. split; [reflexivity|]. split; [|lra].
    rewrite !Rabs_mult, Rabs_Rabsolu.
    rewrite (Rabs_pos_eq vx) by lra. rewrite (Rabs_pos_eq (1 / 10)) by lra.
    pose proof (sign_abs w). pose proof (Rabs_pos (sign w)). nra.
  - eexists. split; [reflexivity|]. split; [|reflexivity].
    assert (Hle : Rabs (w / vx) <= 1 / 10) by lra.
    unfold Rdiv in Hle. rewrite Rabs_mult in Hle.
    rewrite (Rabs_pos_eq (/ vx)) in Hle
      by (left; now apply Rinv_0_lt_compat).
    assert (Hinv : 0 < / vx) by now apply Rinv_0_lt_compat.
    assert (Hone : / vx * vx = 1) by (field; lra).
    pose proof (Rabs_pos w). nra.
Qed.

Lemma norm3_pos (x y z : R) : 0 < x -> 0 < norm3 x y z.
Proof.
  intros Hx. unfold norm3. apply sqrt_lt_R0. nra.
Qed.

Lemma norm3_nonneg (x y z : R) : 0 <= norm3 x y z.
Proof. unfold norm3. apply sqrt_pos. Qed.

Lemma norm3_rescaled (x y z a : R) :
  0 < x ->
  let k := a / norm3 x y z in
  norm3 (x * k) (y * k) (z * k) = Rabs a.
Proof.
  intros Hx k. pose proof (norm3_pos x y z Hx) as Hn.
  assert (HN : norm3 x y z * norm3 x y z = x * x + y * y + z * z).
  { unfold norm3. apply sqrt_sqrt. nra. }
  unfold norm3 at 1.
  replace (x * k * (x * k) + y * k * (y * k) + z * k * (z * k))
    with (Rsqr a).
  - apply sqrt_Rsqr_abs.
  - unfold Rsqr, k.
    transitivity (a * a * ((x * x + y * y + z * z)
                           / (norm3 x y z * norm3 x y z))).
    + rewrite HN. field. nra.
    + field. lra.
Qed.

End Guards.

(** ** The body-velocity resolution of [update] *)

Section Resolution.

Lemma floor_is_max (v : R) :
  (if Rlt_dec v (1 / 10) then 1 / 10 else v) = Rmax v (1 / 10).
Proof.
  unfold Rmax. destruct (Rlt_dec v (1 / 10)); destruct (Rle_dec v (1 / 10)); lra.
Qed.

Lemma resolve_accel_spec (result : dict) (dt_ airspeed : R)
    (s : simulator.Simulator) (sm : state_mgr.StateManager) (bax bay baz : R) :
  dict_get result "bax" = Ok bax ->
  dict_get result "bay" = Ok bay ->
  dict_get result "baz" = Ok baz ->
  exists vx vy vz rv,
    simulator.resolve_accel result dt_ airspeed s sm = Ok rv
    /\ vx = Rmax (simulator.bvx s + bax * dt_) (1 / 10)
    /\ Rabs vy <= vx / 10
    /\ Rabs vz <= vx / 10
    /\ (Rabs ((simulator.bvy s + bay * dt_) / vx) <= 1 / 10 ->
        vy = simulator.bvy s + bay * dt_)
    /\ (Rabs ((simulator.bvz s + baz * dt_) / vx) <= 1 / 10 ->
        vz = simulator.bvz s + baz * dt_)
    /\ (simulator.r_bvx rv, simulator.r_bvy rv, simulator.r_bvz rv) =
       simulator.times (vx, vy, vz) (airspeed / norm3 vx vy vz)
    /\ norm3 (simulator.r_bvx rv) (simulator.r_bvy rv) (simulator.r_bvz rv) =
       Rabs airspeed
    /\ simulator.r_mgr rv =
       state_mgr.set_body_velocity (simulator.r_bvx rv) (simulator.r_bvy rv)
         (simulator.r_bvz rv) sm.
Proof.
  intros Hx Hy Hz. unfold simulator.resolve_accel.
  rewrite Hx, Hy, Hz. simpl. rewrite floor_is_max.
  set (vx := Rmax (simulator.bvx s + bax * dt_) (1 / 10)).
  assert (Hvx : 0 < vx).
  { unfold vx. pose proof (Rmax_r (simulator.bvx s + bax * dt_) (1 / 10)). lra. }
  destruct (clamp_ratio_spec (simulator.bvy s + bay * dt_) vx Hvx)
    as (vy & Ey & Hby & Hiy).
  destruct (clamp_ratio_spec (simulator.bvz s + baz * dt_) vx Hvx)
    as (vz & Ez & Hbz & Hiz).
  rewrite Ey. simpl. rewrite Ez. simpl.
  pose proof (norm3_pos vx vy vz Hvx) as Hn.
  rewrite div_ok by lra. simpl.
  exists vx, vy, vz. eexists. split; [reflexivity|]. simpl.
  repeat split; auto.
  apply norm3_rescaled. exact Hvx.
Qed.

Lemma resolve_trig_spec (result : dict) (airspeed qbar : R)
    (s : simulator.Simulator) (sm : state_mgr.StateManager) (sa sb : R) :
  dict_get result "sin(alpha)" = Ok sa ->
  dict_get result "sin(beta)" = Ok sb ->
  qbar <> 0 ->
  exists rv,
    simulator.resolve_trig result airspeed qbar s sm = Ok rv
    /\ let a := simulator.clamp_angle (asin (simulator.clamp_unit (sa / qbar))) in
       let b := simulator.clamp_angle (asin (simulator.clamp_unit (sb / qbar))) in
       state_mgr.alpha (simulator.r_mgr rv) = a
       /\ state_mgr.beta (simulator.r_mgr rv) = b
       /\ (simulator.r_bvx rv, simulator.r_bvy rv, simulator.r_bvz rv) =
          (cos a * airspeed, sin b * airspeed, sin a * airspeed)
       /\ state_mgr.v_body (simulator.r_mgr rv) =
          (cos a * airspeed, sin b * airspeed, sin a * airspeed).
Proof.
  intros Ha Hb Hq. unfold simulator.resolve_trig.
  rewrite Ha, bind_Ok. cbv beta zeta. rewrite Hb, bind_Ok. cbv beta zeta.
  rewrite !np_div_finite by exact Hq.
  cbn [simulator.np_clamp_unit finite]. rewrite !bind_Ok. cbv beta.
  rewrite !py_asin_in_domain by apply clamp_unit_bounds. simpl.
  eexists. split; [reflexivity|]. simpl. auto.
Qed.

(** C5 (as amended): the next body velocity is resolved by the first
    applicable branch, in this order.  (a) The acceleration branch, taken
    when both the body-acceleration outputs and the airspeed output are
    present: the body velocity is advanced by [a * dt], the forward
    component is floored at 0.1, the lateral and vertical components are
    held within a tenth of the forward one, and the vector is rescaled by
    [airspeed / norm], so that its length is the magnitude of the resolved
    airspeed.  (b) Otherwise, when body-velocity outputs are present, they
    are taken as they are.  (c) Otherwise, when a [sin(alpha)] output is
    present, the [sin(alpha)] and [sin(beta)] outputs are divided by [qbar],
    each quotient is clamped to [-1, 1] before the arcsine (which therefore
    never fails), and the angles are clamped to 25 degrees before the body
    velocity is rebuilt from them and the airspeed. *)
Theorem velocity_resolution_priority
    (result : dict) (dt_ airspeed qbar : R)
    (s : simulator.Simulator) (sm : state_mgr.StateManager) :
  (dict_has result "bax" = true -> dict_has result "airspeed" = true ->
   simulator.resolve result dt_ airspeed qbar s sm =
   simulator.resolve_accel result dt_ airspeed s sm)
  /\ (dict_has result "bax" && dict_has result "airspeed" = false ->
      dict_has result "bvx" = true ->
      simulator.resolve result dt_ airspeed qbar s sm =
      simulator.resolve_velocity result s sm)
  /\ (dict_has result "bax" && dict_has result "airspeed" = false ->
      dict_has result "bvx" = false ->
      dict_has result "sin(alpha)" = true ->
      simulator.resolve result dt_ airspeed qbar s sm =
      simulator.resolve_trig result airspeed qbar s sm)
  /\ (forall bax bay baz,
        dict_get result "bax" = Ok bax ->
        dict_get result "bay" = Ok bay ->
        dict_get result "baz" = Ok baz ->
        exists vx vy vz rv,
          simulator.resolve_accel result dt_ airspeed s sm = Ok rv
          /\ vx = Rmax (simulator.bvx s + bax * dt_) (1 / 10)
          /\ Rabs vy <= vx / 10
          /\ Rabs vz <= vx / 10
          /\ (Rabs ((simulator.bvy s + bay * dt_) / vx) <= 1 / 10 ->
              vy = simulator.bvy s + bay * dt_)
          /\ (Rabs ((simulator.bvz s + baz * dt_) / vx) <= 1 / 10 ->
              vz = simulator.bvz s + baz * dt_)
          /\ (simulator.r_bvx rv, simulator.r_bvy rv, simulator.r_bvz rv) =
             simulator.times (vx, vy, vz) (airspeed / norm3 vx vy vz)
          /\ norm3 (simulator.r_bvx rv) (simulator.r_bvy rv)
               (simulator.r_bvz rv) = Rabs airspeed)
  /\ (forall vx vy vz,
        dict_get result "bvx" = Ok vx ->
        dict_get result "bvy" = Ok vy ->
        dict_get result "bvz" = Ok vz ->
        exists rv,
          simulator.resolve_velocity result s sm = Ok rv
          /\ (simulator.r_bvx rv, simulator.r_bvy rv, simulator.r_bvz rv) =
             (vx, vy, vz))
  /\ (forall sa sb,
        dict_get result "sin(alpha)" = Ok sa ->
        dict_get result "sin(beta)" = Ok sb ->
        qbar <> 0 ->
        -1 <= simulator.clamp_unit (sa / qbar) <= 1
        /\ -1 <= simulator.clamp_unit (sb / qbar) <= 1
        /\ exists rv,
             simulator.resolve_trig result airspeed qbar s sm = Ok rv
             /\ let a := simulator.clamp_angle
                           (asin (simulator.clamp_unit (sa / qbar))) in
                let b := simulator.clamp_angle
                           (asin (simulator.clamp_unit (sb / qbar))) in
                - simulator.max_angle <= a <= simulator.max_angle
                /\ - simulator.max_angle <= b <= simulator.max_angle
                /\ state_mgr.alpha (simulator.r_mgr rv) = a
                /\ state_mgr.beta (simulator.r_mgr rv) = b
                /\ (simulator.r_bvx rv, simulator.r_bvy rv, simulator.r_bvz rv) =
                   (cos a * airspeed, sin b * airspeed, sin a * airspeed)).
Proof.
  unfold simulator.resolve, simulator.output_mode.
  repeat split.
  - intros Hb Ha. now rewrite Hb, Ha.
  - intros Hno Hv. now rewrite Hno, Hv.
  - intros Hno Hv Ht. now rewrite Hno, Hv, Ht.
  - intros bax bay baz Hx Hy Hz.
    destruct (resolve_accel_spec result dt_ airspeed s sm bax bay baz Hx Hy Hz)
      as (vx & vy & vz & rv & Hok & Hvx & Hvy & Hvz & Hiy & Hiz & Hsc & Hn & _).
    exists vx, vy, vz, rv. auto 10.
  - intros vx vy vz Hx Hy Hz. unfold simulator.resolve_velocity.
    rewrite Hx, Hy, Hz. simpl. eexists. split; reflexivity.
  - apply clamp_unit_bounds.
  - apply clamp_unit_bounds.
  - apply clamp_unit_bounds.
  - apply clamp_unit_bounds.
  - destruct (resolve_trig_spec result airspeed qbar s sm sa sb H H0 H1)
      as (rv & Hok & Ha & Hb & Hv & _).
    exists rv. split; [exact Hok|]. cbv zeta.
    repeat split; try apply clamp_angle_bounds; auto.
Qed.

End Resolution.

(** ** One step of [update] *)

Section Step.
Context `{state_mgr.Collaborators}.

Lemma body_frame_values_angles (sm : state_mgr.StateManager) (bx by' bz : R) :
  state_mgr.v_body sm = (bx, by', bz) ->
  state_mgr.alpha (state_mgr.compute_body_frame_values false sm) = atan2 bz bx
  /\ state_mgr.beta (state_mgr.compute_body_frame_values false sm) =
     atan2 (- by') bx.
Proof.
  intros Hv. unfold state_mgr.compute_body_frame_values. rewrite Hv. simpl. auto.
Qed.

(** What a successful second half of [update] leaves behind. *)
Lemma advance_inv (s s' : simulator.Simulator) (result : dict)
    (tr : option (list R)) :
  simulator.advance s result tr = Ok s' ->
  exists airspeed dt_ rv row,
    simulator.resolve_airspeed result = Ok airspeed
    /\ simulator.dt s = Some dt_
    /\ simulator.resolve result dt_ airspeed
         (state_mgr.qbar (simulator.state_mgr s)) s
         (state_mgr.set_airdata airspeed (simulator.state_mgr s)) = Ok rv
    /\ dict_get result "p" = Ok (simulator.p s')
    /\ dict_get result "q" = Ok (simulator.q s')
    /\ dict_get result "r" = Ok (simulator.r s')
    /\ simulator.airspeed_mps s' = airspeed
    /\ simulator.ned2body s' =
       simulator.integrate_attitude (simulator.ned2body s)
         (simulator.p s') (simulator.q s') (simulator.r s') dt_
    /\ simulator.bvx s' = simulator.r_bvx rv
    /\ simulator.bvy s' = simulator.r_bvy rv
    /\ simulator.bvz s' = simulator.r_bvz rv
    /\ simulator.alpha s' = simulator.r_alpha rv
    /\ simulator.beta s' = simulator.r_beta rv
    /\ simulator.dt s' = simulator.dt s
    /\ simulator.data s' = (simulator.data s ++ [row])%list
    /\ simulator.sample_airspeed row = airspeed
    /\ (forall bx by' bz,
          state_mgr.v_body (simulator.r_mgr rv) = (bx, by', bz) ->
          simulator.sample_alpha row = atan2 bz bx
          /\ simulator.sample_beta row = atan2 (- by') bx).
Proof.
  unfold simulator.advance. intros Hok.
  bind_inv Hok as airspeed Ea.
  bind_inv Hok as dt_ Edt.
  bind_inv Hok as rv Erv.
  bind_inv Hok as p_ Ep.
  bind_inv Hok as q_ Eq.
  bind_inv Hok as r_ Er.
  bind_inv Hok as acc Eacc.
  destruct acc as [[[ax_ ay_] az_] sm].
  destruct (state_mgr.quat2eul _) as [[phi the] psi] eqn:Heul.
  destruct (state_mgr.backTransform _ _) as [[vn ve] vd] eqn:Hvel.
  destruct (simulator.pos_ned s) as [[pn pe] pd] eqn:Hpos.
  inversion Hok; subst s'; clear Hok. simpl.
  destruct (simulator.dt s) as [d|] eqn:Hdt; simpl in Edt; [|discriminate].
  inversion Edt; subst d; clear Edt.
  exists airspeed, dt_, rv. eexists.
  repeat (split; [first [eassumption | reflexivity]|]).
  intros bx by' bz Hv. unfold simulator.sample_alpha, simulator.sample_beta.
  simpl.
  assert (Hsm : state_mgr.v_body sm = (bx, by', bz)).
  { unfold simulator.resolve_accels in Eacc.
    destruct (dict_has result "ax").
    - bind_inv Eacc as x_ Ex. bind_inv Eacc as y_ Ey. bind_inv Eacc as z_ Ez.
      inversion Eacc; subst. simpl. exact Hv.
    - inversion Eacc; subst. simpl. exact Hv. }
  apply (body_frame_values_angles
           (state_mgr.set_orientation phi the psi sm) bx by' bz).
  simpl. exact Hsm.
Qed.

(** The step from the parts it is made of. *)
Lemma advance_ok (s : simulator.Simulator) (result : dict)
    (tr : option (list R)) (airspeed dt_ p_ q_ r_ : R) (rv : simulator.Resolved) :
  simulator.resolve_airspeed result = Ok airspeed ->
  simulator.dt s = Some dt_ ->
  simulator.resolve result dt_ airspeed
    (state_mgr.qbar (simulator.state_mgr s)) s
    (state_mgr.set_airdata airspeed (simulator.state_mgr s)) = Ok rv ->
  dict_get result "p" = Ok p_ ->
  dict_get result "q" = Ok q_ ->
  dict_get result "r" = Ok r_ ->
  dict_has result "ax" = false ->
  exists s', simulator.advance s result tr = Ok s'.
Proof.
  intros Ha Hdt Hrv Hp Hq Hr Hax. unfold simulator.advance.
  rewrite Ha. simpl. rewrite Hdt. simpl. rewrite Hrv. simpl.
  rewrite Hp, Hq, Hr. simpl. unfold simulator.resolve_accels. rewrite Hax. simpl.
  destruct (state_mgr.quat2eul _) as [[phi the] psi].
  eexists. reflexivity.
Qed.

Lemma update_from_predict (s : simulator.Simulator) (g g' : Rng)
    (result : dict) (tr : option (list R)) (s' : simulator.Simulator) :
  simulator.predict s g = Ok (result, tr, g') ->
  simulator.advance s result tr = Ok s' ->
  simulator.update s g = Ok (s', g').
Proof.
  intros Hp Ha. unfold simulator.update. rewrite Hp. simpl. now rewrite Ha.
Qed.

Lemma update_inv (s s' : simulator.Simulator) (g g' : Rng) :
  simulator.update s g = Ok (s', g') ->
  exists result tr,
    simulator.predict s g = Ok (result, tr, g')
    /\ simulator.advance s result tr = Ok s'.
Proof.
  unfold simulator.update. intros Hok.
  bind_inv Hok as pr Epr. destruct pr as [[result tr] g1].
  bind_inv Hok as s1 Eadv. inversion Hok; subst. eauto.
Qed.

End Step.

(** ** Attitude integration *)

Section Attitude.
Import quaternion.











End Attitude.

Section AttitudeRuns.
Context `{state_mgr.Collaborators}.
Import quaternion.




End AttitudeRuns.

(** ** Recorded airspeed and flow angles *)

Section Recorded.
Context `{state_mgr.Collaborators}.
Import examples.

Lemma clamp_in_range (lo hi v : R) :
  lo <= v <= hi -> state_mgr.clamp lo hi v = v.
Proof.
  intros Hv. unfold state_mgr.clamp.
  destruct (Rlt_dec v lo); destruct (Rlt_dec hi _); lra.
Qed.

Lemma run_one (s s' : simulator.Simulator) (g g' : Rng) :
  simulator.update s g = Ok (s', g') -> simulator.run 1 s g = Ok (s', g').
Proof. intros Hup. simpl. now rewrite Hup. Qed.

(** C1, at the failing input: the simulator that has loaded the model
    [airspeed_and_rates] with the [reversing] matrix.  Its first update
    succeeds and records the airspeed -10. *)
Theorem update_records_negative_airspeed (g : Rng) :
  exists s' row,
    simulator.update (loaded airspeed_and_rates reversing) g = Ok (s', g)
    /\ simulator.airspeed_mps s' = -10
    /\ simulator.data s' = [row]
    /\ simulator.sample_airspeed row = -10
    /\ simulator.sample_airspeed row < 0.
Proof.
  assert (Hp : exists result,
             simulator.predict (loaded airspeed_and_rates reversing) g =
             Ok (result, None, g)
             /\ simulator.resolve_airspeed result =
                Ok (-1 * state_mgr.clamp 0 100 10 + (0 * state_mgr.clamp (-1) 1 0
                    + (0 * state_mgr.clamp (-1) 1 0
                       + (0 * state_mgr.clamp (-1) 1 0 + 0))))
             /\ simulator.output_mode result = simulator.NoOutput
             /\ is_ok (dict_get result "p") = true
             /\ is_ok (dict_get result "q") = true
             /\ is_ok (dict_get result "r") = true
             /\ dict_has result "ax" = false).
  { eexists. split;
      [unfold simulator.predict, loaded; simpl; reflexivity|].
    repeat split. }
  destruct Hp as (result & Hpred & Hair & Hmode & Hp & Hq & Hr & Hax).
  destruct (dict_get result "p") as [p_|] eqn:Ep; [|discriminate].
  destruct (dict_get result "q") as [q_|] eqn:Eq; [|discriminate].
  destruct (dict_get result "r") as [r_|] eqn:Er; [|discriminate].
  assert (Hval : -1 * state_mgr.clamp 0 100 10 + (0 * state_mgr.clamp (-1) 1 0
                    + (0 * state_mgr.clamp (-1) 1 0
                       + (0 * state_mgr.clamp (-1) 1 0 + 0))) = -10).
  { rewrite !clamp_in_range by lra. lra. }
  rewrite Hval in Hair.
  destruct (advance_ok (loaded airspeed_and_rates reversing) result None
              (-10) (1 / 100) p_ q_ r_
              (simulator.mkResolved
                 (state_mgr.set_airdata (-10)
                    (simulator.state_mgr (loaded airspeed_and_rates reversing)))
                 (simulator.bvx (loaded airspeed_and_rates reversing))
                 (simulator.bvy (loaded airspeed_and_rates reversing))
                 (simulator.bvz (loaded airspeed_and_rates reversing))
                 (simulator.alpha (loaded airspeed_and_rates reversing))
                 (simulator.beta (loaded airspeed_and_rates reversing))))
    as (s' & Hadv); auto.
  { unfold simulator.resolve. now rewrite Hmode. }
  pose proof (update_from_predict _ _ _ _ _ _ Hpred Hadv) as Hup.
  destruct (advance_inv _ _ _ _ Hadv)
    as (airspeed & dt_ & rv & row & Ha & _ & _ & _ & _ & _ & Hs & _ & _ & _ & _
        & _ & _ & _ & Hdata & Hrow & _).
  rewrite Hair in Ha. injection Ha as Ha. rewrite <- Ha in Hs, Hrow.
  exists s', row. rewrite Hrow.
  split; [exact Hup|]. split; [exact Hs|].
  split; [rewrite Hdata; reflexivity|]. split; [reflexivity|lra].
Qed.

Lemma atan2_diagonal : atan2 1 1 = PI / 4.
Proof.
  unfold atan2. destruct (Rlt_dec 0 1); [|lra].
  replace (1 / 1) with 1 by field. exact atan_1.
Qed.

Lemma quarter_turn_exceeds_envelope : simulator.max_angle < Rabs (PI / 4).
Proof.
  pose proof PI_RGT_0. rewrite Rabs_pos_eq by lra.
  unfold simulator.max_angle, constants.d2r. lra.
Qed.

(** C4, at the failing input: the simulator that has loaded the model
    [velocity_and_rates] with the [climbing] matrix.  Its first update
    takes the body-velocity branch with predicted forward and vertical
    velocities both 1; the angle of attack the step computes, and the one
    it records, is 45 degrees. *)
Theorem update_records_alpha_beyond_envelope (g : Rng) :
  exists s' row result,
    simulator.predict (loaded velocity_and_rates climbing) g =
      Ok (result, None, g)
    /\ simulator.output_mode result = simulator.VelocityBased
    /\ simulator.update (loaded velocity_and_rates climbing) g = Ok (s', g)
    /\ simulator.data s' = [row]
    /\ simulator.alpha s' = Some (PI / 4)
    /\ simulator.sample_alpha row = PI / 4
    /\ simulator.max_angle < Rabs (simulator.sample_alpha row).
Proof.
  assert (Hp : exists result vx vy vz p_ q_ r_,
             simulator.predict (loaded velocity_and_rates climbing) g =
             Ok (result, None, g)
             /\ dict_get result "bvx" = Ok vx
             /\ dict_get result "bvy" = Ok vy
             /\ dict_get result "bvz" = Ok vz
             /\ dict_get result "p" = Ok p_
             /\ dict_get result "q" = Ok q_
             /\ dict_get result "r" = Ok r_
             /\ simulator.output_mode result = simulator.VelocityBased
             /\ dict_has result "airspeed" = false
             /\ dict_has result "ax" = false
             /\ vx = 1 /\ vz = 1).
  { do 7 eexists. split;
      [unfold simulator.predict, loaded; simpl; reflexivity|].
    do 6 (split; [simpl; reflexivity|]).
    do 3 (split; [reflexivity|]).
    unfold simulator.initial_airspeed_mps.
    rewrite !clamp_in_range by lra. split; lra. }
  destruct Hp as (result & vx & vy & vz & p_ & q_ & r_ & Hpred & Hx & Hy & Hz
                  & Hp & Hq & Hr & Hmode & Hair & Hax & Hvx & Hvz).
  subst vx vz.
  set (s := loaded velocity_and_rates climbing) in *.
  assert (Hspeed : simulator.resolve_airspeed result = Ok (norm3 1 vy 1)).
  { unfold simulator.resolve_airspeed. rewrite Hair, Hx, Hy, Hz. reflexivity. }
  assert (Hres : simulator.resolve result (1 / 100) (norm3 1 vy 1)
                   (state_mgr.qbar (simulator.state_mgr s)) s
                   (state_mgr.set_airdata (norm3 1 vy 1) (simulator.state_mgr s)) =
                 Ok (simulator.mkResolved
                       (state_mgr.set_body_velocity 1 vy 1
                          (state_mgr.set_airdata (norm3 1 vy 1)
                             (simulator.state_mgr s)))
                       1 vy 1 (Some (atan2 1 1)) (Some (atan2 (- vy) 1)))).
  { unfold simulator.resolve, simulator.resolve_velocity.
    rewrite Hmode, Hx, Hy, Hz. reflexivity. }
  destruct (advance_ok s result None _ (1 / 100) p_ q_ r_ _
              Hspeed eq_refl Hres Hp Hq Hr Hax) as (s' & Hadv).
  pose proof (update_from_predict _ _ _ _ _ _ Hpred Hadv) as Hup.
  destruct (advance_inv _ _ _ _ Hadv)
    as (airspeed & dt_ & rv & row & Ha & Hdt & Hrv & _ & _ & _ & _ & _ & _ & _
        & _ & Halpha & _ & _ & Hdata & _ & Hrow).
  rewrite Hspeed in Ha. injection Ha as Ha. subst airspeed.
  assert (Hd : dt_ = 1 / 100) by (simpl in Hdt; congruence). subst dt_.
  rewrite Hres in Hrv. injection Hrv as Hrv. subst rv.
  destruct (Hrow 1 vy 1 eq_refl) as (Hsa & _).
  simpl in Halpha. rewrite atan2_diagonal in Halpha, Hsa.
  exists s', row, result. rewrite Hsa.
  split; [exact Hpred|]. split; [exact Hmode|]. split; [exact Hup|].
  split; [rewrite Hdata; reflexivity|]. split; [exact Halpha|].
  split; [reflexivity|exact quarter_turn_exceeds_envelope].
Qed.

End Recorded.

(** ** The division by [qbar] *)

Section Division.
Context `{state_mgr.Collaborators}.
Import examples.

Lemma dict_has_get (d : dict) (k : string) :
  dict_has d k = true -> exists v, dict_get d k = Ok v.
Proof.
  induction d as [|[k' v'] d IH]; simpl; [discriminate|].
  destruct (String.eqb k' k); eauto.
Qed.

Lemma output_mode_trig (result : dict) :
  simulator.output_mode result = simulator.TrigBased ->
  dict_has result "sin(alpha)" = true.
Proof.
  unfold simulator.output_mode.
  destruct (dict_has result "bax" && dict_has result "airspeed"); [discriminate|].
  destruct (dict_has result "bvx"); [discriminate|].
  destruct (dict_has result "sin(alpha)"); [reflexivity|discriminate].
Qed.









End Division.

(** ** trim *)

Section TrimClaims.
Context `{state_mgr.Collaborators}.

Variable least_squares :
  forall S : Type,
    (list R -> S -> outcome (list R * S)) -> list R -> S ->
    outcome (simulator.OptimizeResult * S).




(** With a target stored, [trim_error] predicts from the state manager of
    the trial point. *)
Lemma trim_error_applies_trial (xk : list R) (s : simulator.Simulator)
    (out : list simulator.Printed) (target : R) :
  simulator.trim_airspeed_mps s = Some target ->
  simulator.trim_error xk (s, out) =
  (sm <- simulator.apply_trial xk target (simulator.state_mgr s) ;;
   ps <- attr (simulator.params s) ;;
   state <- state_mgr.gen_state_vector sm (Some ps) ;;
   a <- simulator.not_none (simulator.A s) ;;
   next <- matvec a state ;;
   current <- state_mgr.state2dict sm state ;;
   result <- state_mgr.state2dict sm next ;;
   errors <- simulator.trim_residuals target result ;;
   Ok (errors,
       (simulator.set_state_mgr sm s,
        (out ++ [simulator.PrintDict result; simulator.PrintList errors])%list))).
Proof.
  intros Ht. unfold simulator.trim_error, simulator.apply_trial. rewrite Ht.
  destruct (simulator.apply_controls xk (simulator.state_mgr s)); reflexivity.
Qed.


End TrimClaims.

(** ** The passes of the model-building script *)

Section PassClaims.
Context `{state_mgr.Collaborators}.
Variable is_flying : state_mgr.StateManager -> bool.
Import build_full_model.

Lemma dt_step_length (st : option R * list R) (rec : LogRecord) :
  List.length (snd (dt_step st rec)) =
  (List.length (snd st) + (if has_imu rec then 1 else 0))%nat.
Proof.
  destruct st as [last acc]. unfold dt_step, has_imu, record_len.
  destruct (imu rec) as [imupt|]; simpl.
  - rewrite length_app. simpl. reflexivity.
  - destruct (Nat.eqb _ 0); simpl; lia.
Qed.

Lemma dt_fold_length (log : list LogRecord) :
  forall st,
    List.length (snd (fold_left dt_step log st)) =
    (List.length (snd st) + List.length (List.filter has_imu log))%nat.
Proof.
  induction log as [|rec log IH]; intros st; simpl.
  - lia.
  - rewrite IH, dt_step_length. destruct (has_imu rec); simpl; lia.
Qed.

Lemma train_step_gate (st st' : Pass) (rec : LogRecord) :
  train_step is_flying st rec = Ok st' ->
  traindata st' = traindata st
  \/ exists sm nav w state,
       Nat.eqb (record_len rec) 0 = false
       /\ ingest st rec = Ok (sm, nav, w)
       /\ is_flying sm = true
       /\ state_mgr.gen_state_vector
            (state_mgr.compute_body_frame_values true sm) None = Ok state
       /\ traindata st' = (traindata st ++ [state])%list.
Proof.
  unfold train_step. intros Hok.
  destruct (Nat.eqb (record_len rec) 0) eqn:Hlen.
  - inversion Hok; subst. now left.
  - bind_inv Hok as ing Eing. destruct ing as [[sm nav] w].
    destruct (is_flying sm) eqn:Hfly.
    + bind_inv Hok as state Est. inversion Hok; subst; simpl.
      right. exists sm, nav, w, state. auto.
    + inversion Hok; subst; simpl. now left.
Qed.

Lemma train_from_gate (log : list LogRecord) :
  forall st st',
    train_from is_flying st log = Ok st' ->
    Forall (gated is_flying) (traindata st) ->
    Forall (gated is_flying) (traindata st').
Proof.
  induction log as [|rec log IH]; intros st st' Hok Hall; simpl in Hok.
  - inversion Hok; subst. exact Hall.
  - bind_inv Hok as st1 Estep.
    apply (IH st1 st' Hok).
    destruct (train_step_gate _ _ _ Estep)
      as [Hsame | (sm & nav & w & state & _ & _ & Hfly & Hgen & Happ)].
    + now rewrite Hsame.
    + rewrite Happ. apply Forall_app. split; [exact Hall|].
      constructor; [|constructor]. exists sm. auto.
Qed.

End PassClaims.

Section PassTheorem.
Context `{state_mgr.Collaborators}.
Import build_full_model.

(** C2 (as amended): the airborne gate guards the training pass only.  In
    the dt-estimation pass every record with an [imu] group contributes one
    entry to the dt data, whatever the state of flight: the gate is not
    consulted there.  In the training pass a state vector is appended to
    the training set only for a non-empty record at which [is_flying] holds
    once the record's channels are stored, and every vector of the
    finished training set came through the gate. *)
Theorem gate_guards_training_pass_only
    (is_flying : state_mgr.StateManager -> bool) :
  (forall log,
      List.length (dt_estimation log) = List.length (List.filter has_imu log))
  /\ (forall st rec st',
        train_step is_flying st rec = Ok st' ->
        traindata st' = traindata st
        \/ exists sm nav w state,
             Nat.eqb (record_len rec) 0 = false
             /\ ingest st rec = Ok (sm, nav, w)
             /\ is_flying sm = true
             /\ state_mgr.gen_state_vector
                  (state_mgr.compute_body_frame_values true sm) None = Ok state
             /\ traindata st' = (traindata st ++ [state])%list)
  /\ (forall imu_dt log st,
        training_pass is_flying imu_dt log = Ok st ->
        Forall (gated is_flying) (traindata st)).
Proof.
  split; [|split].
  - intros log. unfold dt_estimation. now rewrite dt_fold_length.
  - intros st rec st'. apply train_step_gate.
  - intros imu_dt log st Hok.
    apply (train_from_gate is_flying log (start imu_dt) st Hok).
    constructor.
Qed.

End PassTheorem.

(* ================================================================== *)
(** * The properties at concrete inputs *)

Section Instances.
Import examples.

Lemma update_runs `{state_mgr.Collaborators}
    (s : simulator.Simulator) (g g' : Rng) (result : dict)
    (tr : option (list R)) (airspeed dt_ p_ q_ r_ : R)
    (rv : simulator.Resolved) :
  simulator.predict s g = Ok (result, tr, g') ->
  simulator.resolve_airspeed result = Ok airspeed ->
  simulator.dt s = Some dt_ ->
  simulator.resolve result dt_ airspeed
    (state_mgr.qbar (simulator.state_mgr s)) s
    (state_mgr.set_airdata airspeed (simulator.state_mgr s)) = Ok rv ->
  dict_get result "p" = Ok p_ ->
  dict_get result "q" = Ok q_ ->
  dict_get result "r" = Ok r_ ->
  dict_has result "ax" = false ->
  exists s', simulator.update s g = Ok (s', g').
Proof.
  intros Hpred Ha Hdt Hrv Hp Hq Hr Hax.
  destruct (advance_ok s result tr airspeed dt_ p_ q_ r_ rv Ha Hdt Hrv Hp Hq Hr Hax)
    as (s' & Hadv).
  exists s'. now apply (update_from_predict s g g' result tr s').
Qed.

(** C7, witness: a model file with two parameters, one of them dependent,
    whose flat array has two entries loads; with three entries it does
    not. *)
Lemma load_validates_shape_witness :
  simulator.load
    (model_of [ mkParam "aileron" "independent" (-1) 1 0 1 None;
                output "p" (-1) 1 0 ] [1; 2; 3]) simulator.new
  = Raise ValueError
  /\ exists s',
       simulator.load
         (model_of [ mkParam "aileron" "independent" (-1) 1 0 1 None;
                     output "p" (-1) 1 0 ] [1; 2]) simulator.new
       = Ok s'
       /\ simulator.A s' = Some [[1; 2]].
Proof.
  split.
  - apply (proj1 (load_validates_shape
                    (model_of [ mkParam "aileron" "independent" (-1) 1 0 1 None;
                                output "p" (-1) 1 0 ] [1; 2; 3]) simulator.new)).
    simpl. lia.
  - destruct (proj2 (load_validates_shape
                       (model_of [ mkParam "aileron" "independent" (-1) 1 0 1 None;
                                   output "p" (-1) 1 0 ] [1; 2]) simulator.new)
                eq_refl) as (s' & a & Hload & Ha & _).
    exists s'. split; [exact Hload|].
    unfold simulator.load in Hload. simpl in Hload.
    injection Hload as <-. reflexivity.
Defined.

Lemma update_runs_no_output `{state_mgr.Collaborators}
    (s : simulator.Simulator) (g g' : Rng) (result : dict)
    (tr : option (list R)) (airspeed dt_ p_ q_ r_ : R) :
  simulator.predict s g = Ok (result, tr, g') ->
  simulator.resolve_airspeed result = Ok airspeed ->
  simulator.dt s = Some dt_ ->
  simulator.output_mode result = simulator.NoOutput ->
  dict_get result "p" = Ok p_ ->
  dict_get result "q" = Ok q_ ->
  dict_get result "r" = Ok r_ ->
  dict_has result "ax" = false ->
  exists s', simulator.update s g = Ok (s', g').
Proof.
  intros Hpred Ha Hdt Hmode Hp Hq Hr Hax.
  eapply update_runs; eauto.
  unfold simulator.resolve. rewrite Hmode. reflexivity.
Qed.

Ltac eval_predict := unfold simulator.predict, loaded; simpl; reflexivity.

(** C10, witness: the first parameter has one noise point and the second
    has two, so the phase array drawn for the first is too short for the
    second; the other way round the call succeeds. *)
Lemma add_noise_single_phase_array_witness :
  simulator.add_noise (loaded one_then_two [0; 0; 0; 0]) quarters [0; 0]
  = Raise IndexError
  /\ exists out,
       simulator.add_noise (loaded two_then_one [0; 0; 0; 0]) quarters [0; 0]
       = Ok (out, Some [1 / 4 * 2 * PI; 3 / 4 * 2 * PI], snd (rand quarters 2)).
Proof.
  split.
  - apply (proj1 (proj2 (add_noise_single_phase_array (H := reference)
                           (loaded one_then_two [0; 0; 0; 0]) quarters [0; 0]
                           one_then_two eq_refl (le_n 2)))).
    reflexivity.
  - eexists.
    apply (proj1 (add_noise_single_phase_array (H := reference)
                    (loaded two_then_one [0; 0; 0; 0]) quarters [0; 0]
                    two_then_one eq_refl (le_n 2))).
    reflexivity.
Defined.

(** C3, witness: a model with a two-point noise spectrum on the roll
    rate, second of four parameters.  The first update draws the phase
    array, two entries for the two noise points, and moves the generator
    by two draws. *)
Lemma phase_array_drawn_once_and_shared_witness :
  exists s' g',
    simulator.run (H := reference) 1 (loaded noisy_rates steady) quarters
    = Ok (s', g')
    /\ first_noise noisy_rates = Some [(0, 1); (0, 1)]
    /\ simulator.trand s' =
       Some (map (fun v => v * 2 * PI) (fst (rand quarters 2)))
    /\ g' = snd (rand quarters 2).
Proof.
  assert (Hp : exists result tr g' a p_ q_ r_,
             simulator.predict (loaded noisy_rates steady) quarters =
             Ok (result, tr, g')
             /\ simulator.resolve_airspeed result = Ok a
             /\ simulator.output_mode result = simulator.NoOutput
             /\ dict_get result "p" = Ok p_
             /\ dict_get result "q" = Ok q_
             /\ dict_get result "r" = Ok r_
             /\ dict_has result "ax" = false).
  { do 7 eexists. split; [eval_predict|].
    do 2 (split; [reflexivity|]). do 3 (split; [simpl; reflexivity|]).
    reflexivity. }
  destruct Hp as (result & tr & g' & a & p_ & q_ & r_ & Hpred & Ha & Hmode
                  & Hp & Hq & Hr & Hax).
  destruct (update_runs_no_output (H := reference) _ _ _ _ _ _ (1 / 100) _ _ _
              Hpred Ha eq_refl Hmode Hp Hq Hr Hax) as (s' & Hup).
  pose proof (run_one (H := reference) _ _ _ _ Hup) as Hrun.
  exists s', g'. split; [exact Hrun|].
  destruct (proj2 (phase_array_drawn_once_and_shared (H := reference))
              0%nat _ _ _ _ Hrun) as (ps & m & Hps & HA & _ & _ & Hdrawn).
  injection Hps as <-. injection HA as <-.
  exact (Hdrawn [(0, 1); (0, 1)] [] eq_refl eq_refl).
Defined.





(** C5, counterexample: the model [accel_and_velocity] predicts
    body-acceleration outputs and no airspeed output.  The update does not
    take the acceleration branch: it takes the body-velocity branch, and
    the next forward velocity is the predicted one as it is. *)
Lemma accel_outputs_alone_do_not_select_accel_branch :
  exists result s',
    simulator.predict (loaded accel_and_velocity halving) quarters =
      Ok (result, None, quarters)
    /\ dict_has result "bax" = true
    /\ dict_has result "bay" = true
    /\ dict_has result "baz" = true
    /\ dict_has result "airspeed" = false
    /\ simulator.output_mode result = simulator.VelocityBased
    /\ simulator.update (H := reference) (loaded accel_and_velocity halving)
         quarters = Ok (s', quarters)
    /\ dict_get result "bvx" = Ok (simulator.bvx s').
Proof.
  assert (Hp : exists result vx vy vz p_ q_ r_,
             simulator.predict (loaded accel_and_velocity halving) quarters =
             Ok (result, None, quarters)
             /\ dict_get result "bvx" = Ok vx
             /\ dict_get result "bvy" = Ok vy
             /\ dict_get result "bvz" = Ok vz
             /\ dict_get result "p" = Ok p_
             /\ dict_get result "q" = Ok q_
             /\ dict_get result "r" = Ok r_
             /\ dict_has result "bax" = true
             /\ dict_has result "bay" = true
             /\ dict_has result "baz" = true
             /\ dict_has result "airspeed" = false
             /\ simulator.output_mode result = simulator.VelocityBased
             /\ dict_has result "ax" = false).
  { do 7 eexists. split; [eval_predict|].
    do 6 (split; [simpl; reflexivity|]).
    repeat split. }
  destruct Hp as (result & vx & vy & vz & p_ & q_ & r_ & Hpred & Hx & Hy & Hz
                  & Hp & Hq & Hr & Hbax & Hbay & Hbaz & Hair & Hmode & Hax).
  set (s := loaded accel_and_velocity halving) in *.
  assert (Hspeed : simulator.resolve_airspeed result = Ok (norm3 vx vy vz)).
  { unfold simulator.resolve_airspeed. rewrite Hair, Hx, Hy, Hz. reflexivity. }
  assert (Hres : simulator.resolve result (1 / 100) (norm3 vx vy vz)
                   (state_mgr.qbar (simulator.state_mgr s)) s
                   (state_mgr.set_airdata (norm3 vx vy vz) (simulator.state_mgr s)) =
                 Ok (simulator.mkResolved
                       (state_mgr.set_body_velocity vx vy vz
                          (state_mgr.set_airdata (norm3 vx vy vz)
                             (simulator.state_mgr s)))
                       vx vy vz (Some (atan2 vz vx)) (Some (atan2 (- vy) vx)))).
  { unfold simulator.resolve, simulator.resolve_velocity.
    rewrite Hmode, Hx, Hy, Hz. reflexivity. }
  destruct (advance_ok (H := reference) s result None _ (1 / 100) p_ q_ r_ _
              Hspeed eq_refl Hres Hp Hq Hr Hax) as (s' & Hadv).
  pose proof (update_from_predict (H := reference) _ _ _ _ _ _ Hpred Hadv) as Hup.
  destruct (advance_inv (H := reference) _ _ _ _ Hadv)
    as (airspeed & dt_ & rv & row & Ha & Hdt & Hrv & _ & _ & _ & _ & _ & Hbvx & _).
  rewrite Hspeed in Ha. injection Ha as Ha. subst airspeed.
  assert (Hd : dt_ = 1 / 100) by (simpl in Hdt; congruence). subst dt_.
  rewrite Hres in Hrv. injection Hrv as Hrv. subst rv. simpl in Hbvx.
  exists result, s'. rewrite Hbvx. auto 10.
Qed.

(** C5, witness: with body-acceleration and airspeed outputs present the
    acceleration branch is taken, and the resolved body velocity has the
    length of the airspeed. *)
Lemma velocity_resolution_priority_witness :
  exists rv,
    simulator.resolve
      [ ("airspeed", 10); ("bax", 1); ("bay", 0); ("baz", 0);
        ("p", 0); ("q", 0); ("r", 0) ]
      (1 / 100) 10 (state_mgr.dynamic_pressure 10) simulator.new
      (simulator.state_mgr simulator.new) = Ok rv
    /\ norm3 (simulator.r_bvx rv) (simulator.r_bvy rv) (simulator.r_bvz rv)
       = Rabs 10.
Proof.
  pose proof (velocity_resolution_priority
                [ ("airspeed", 10); ("bax", 1); ("bay", 0); ("baz", 0);
                  ("p", 0); ("q", 0); ("r", 0) ]
                (1 / 100) 10 (state_mgr.dynamic_pressure 10) simulator.new
                (simulator.state_mgr simulator.new))
    as (Hsel & _ & _ & Hacc & _).
  destruct (Hacc 1 0 0 eq_refl eq_refl eq_refl)
    as (vx & vy & vz & rv & Hok & _ & _ & _ & _ & _ & _ & Hnorm).
  exists rv. split; [|exact Hnorm].
  rewrite (Hsel eq_refl eq_refl). exact Hok.
Defined.

Lemma is_ok_inv {X : Type} (m : outcome X) :
  is_ok m = true -> exists a, m = Ok a.
Proof. destruct m as [a|e]; simpl; [eauto | discriminate]. Qed.

Lemma trim_error_runs :
  is_ok (simulator.trim_error (H := reference) simulator.initial
           (simulator.set_trim_airspeed_mps 15 (loaded trimmable identity7), []))
  = true.
Proof. reflexivity. Qed.

Lemma one_shot_solves :
  exists s' out,
    one_shot _ (simulator.trim_error (H := reference)) simulator.initial
      (simulator.set_trim_airspeed_mps 15 (loaded trimmable identity7), []) =
    Ok (simulator.mkOptimizeResult simulator.initial false, (s', out)).
Proof.
  destruct (is_ok_inv _ trim_error_runs) as ([errors [s' out]] & He).
  exists s', out. unfold one_shot. rewrite He. reflexivity.
Qed.



Section LogInstances.
Import build_full_model.

Lemma ingest_imu_air (st : Pass) (t knots : R) :
  navpt st = None ->
  ingest st
    (mkLogRecord (Some (mkImuPt t 0 0 0)) None
       (Some (mkAirPt knots None None None)) None false) =
  Ok (state_mgr.set_airdata (knots * constants.kt2mps)
        (state_mgr.set_gyros 0 0 0 (state_mgr.set_time t (mgr st))),
      None, Some (0, 0, 0)).
Proof.
  intros Hnav. unfold ingest, on_imu, on_act, on_air, on_filter. simpl.
  rewrite Hnav. reflexivity.
Qed.

Lemma train_step_grounded `{state_mgr.Collaborators}
    (is_flying : state_mgr.StateManager -> bool) (st : Pass) (rec : LogRecord)
    (sm : state_mgr.StateManager) (nav : option NavPt) (w : option Vec3) :
  Nat.eqb (record_len rec) 0 = false ->
  ingest st rec = Ok (sm, nav, w) ->
  is_flying sm = false ->
  train_step is_flying st rec = Ok (mkPass sm nav w (traindata st) (coeff st)).
Proof.
  intros Hlen Hing Hfly. unfold train_step.
  rewrite Hlen, Hing, bind_Ok. cbv beta iota. now rewrite Hfly.
Qed.

Lemma train_step_airborne `{state_mgr.Collaborators}
    (is_flying : state_mgr.StateManager -> bool) (st : Pass) (rec : LogRecord)
    (sm : state_mgr.StateManager) (nav : option NavPt) (w : option Vec3)
    (state : list R) :
  Nat.eqb (record_len rec) 0 = false ->
  ingest st rec = Ok (sm, nav, w) ->
  is_flying sm = true ->
  state_mgr.gen_state_vector
    (state_mgr.compute_body_frame_values true sm) None = Ok state ->
  exists st',
    train_step is_flying st rec = Ok st'
    /\ traindata st' = (traindata st ++ [state])%list.
Proof.
  intros Hlen Hing Hfly Hgen. unfold train_step.
  rewrite Hlen, Hing, bind_Ok. cbv beta iota. rewrite Hfly, Hgen, bind_Ok.
  eexists. split; reflexivity.
Qed.

Lemma taxi_is_not_flying (sm : state_mgr.StateManager) :
  airspeed_gate (state_mgr.set_airdata (2 * constants.kt2mps) sm) = false.
Proof.
  unfold airspeed_gate. simpl.
  destruct (Rlt_dec 5 (2 * constants.kt2mps)) as [Hlt|]; [|reflexivity].
  unfold constants.kt2mps in Hlt. lra.
Qed.

Lemma cruise_is_flying (sm : state_mgr.StateManager) :
  airspeed_gate (state_mgr.set_airdata (40 * constants.kt2mps) sm) = true.
Proof.
  unfold airspeed_gate. simpl.
  destruct (Rlt_dec 5 (40 * constants.kt2mps)) as [|Hge]; [reflexivity|].
  unfold constants.kt2mps in Hge. lra.
Qed.

(** C2, counterexample: two records of a vehicle taxiing at 2 knots, below
    the gate's threshold.  Both contribute to the dt data of the first
    pass, while the gate holds at neither and the training pass appends
    nothing. *)
Lemma taxi_records_enter_dt_estimate :
  dt_estimation taxi_log = [0 - 0; 1 / 100 - 0]
  /\ exists st1 st2,
       train_step (H := reference) airspeed_gate (start (1 / 100))
         (taxi_record 0) = Ok st1
       /\ airspeed_gate (mgr st1) = false
       /\ train_step (H := reference) airspeed_gate st1
            (taxi_record (1 / 100)) = Ok st2
       /\ airspeed_gate (mgr st2) = false
       /\ training_pass (H := reference) airspeed_gate (1 / 100) taxi_log
          = Ok st2
       /\ traindata st2 = [].
Proof.
  split; [reflexivity|].
  pose proof (train_step_grounded (H := reference) airspeed_gate
                (start (1 / 100)) (taxi_record 0) _ _ _ eq_refl
                (ingest_imu_air (start (1 / 100)) 0 2 eq_refl)
                (taxi_is_not_flying _)) as Hstep1.
  set (st1 := mkPass
                (state_mgr.set_airdata (2 * constants.kt2mps)
                   (state_mgr.set_gyros 0 0 0
                      (state_mgr.set_time 0 (mgr (start (1 / 100))))))
                None (Some (0, 0, 0)) (traindata (start (1 / 100)))
                (coeff (start (1 / 100)))) in *.
  pose proof (train_step_grounded (H := reference) airspeed_gate
                st1 (taxi_record (1 / 100)) _ _ _ eq_refl
                (ingest_imu_air st1 (1 / 100) 2 eq_refl)
                (taxi_is_not_flying _)) as Hstep2.
  exists st1. eexists.
  split; [exact Hstep1|]. split; [apply taxi_is_not_flying|].
  split; [exact Hstep2|]. split; [apply taxi_is_not_flying|].
  split; [|reflexivity].
  unfold training_pass, taxi_log. simpl train_from.
  unfold taxi_record in Hstep1, Hstep2 |- *.
  rewrite Hstep1, bind_Ok. cbv beta. rewrite Hstep2. reflexivity.
Qed.

Lemma cruise_state_vector :
  is_ok (state_mgr.gen_state_vector
           (state_mgr.compute_body_frame_values (H := reference) true
              (state_mgr.set_airdata (40 * constants.kt2mps)
                 (state_mgr.set_gyros 0 0 0
                    (state_mgr.set_time 0 (mgr (start (1 / 100)))))))
           None) = true.
Proof. reflexivity. Qed.

(** C2, witness: one record of a vehicle flying at 40 knots passes the
    gate and its state vector enters the training set. *)
Lemma gate_guards_training_pass_only_witness :
  exists st,
    training_pass (H := reference) airspeed_gate (1 / 100) [flight_record 0]
    = Ok st
    /\ List.length (traindata st) = 1%nat
    /\ Forall (gated (H := reference) airspeed_gate) (traindata st).
Proof.
  destruct (is_ok_inv _ cruise_state_vector) as (state & Hgen).
  destruct (train_step_airborne (H := reference) airspeed_gate
              (start (1 / 100)) (flight_record 0) _ _ _ state eq_refl
              (ingest_imu_air (start (1 / 100)) 0 40 eq_refl)
              (cruise_is_flying _) Hgen) as (st & Hstep & Hdata).
  assert (Hpass : training_pass (H := reference) airspeed_gate (1 / 100)
                    [flight_record 0] = Ok st).
  { unfold training_pass. simpl train_from. rewrite Hstep. reflexivity. }
  exists st. split; [exact Hpass|]. split.
  - rewrite Hdata. reflexivity.
  - exact (proj2 (proj2 (gate_guards_training_pass_only (H := reference)
                           airspeed_gate)) (1 / 100) _ st Hpass).
Defined.

End LogInstances.

End Instances.

(* ================================================================== *)
(** * Further properties of the simulator *)

(** ** What one update keeps, advances and records *)

Section Bookkeeping.
Context `{state_mgr.Collaborators}.

Lemma resolve_keeps_controls (result : dict) (dt_ airspeed qbar : R)
    (s : simulator.Simulator) (sm : state_mgr.StateManager)
    (rv : simulator.Resolved) :
  simulator.resolve result dt_ airspeed qbar s sm = Ok rv ->
  state_mgr.throttle (simulator.r_mgr rv) = state_mgr.throttle sm
  /\ state_mgr.aileron (simulator.r_mgr rv) = state_mgr.aileron sm
  /\ state_mgr.elevator (simulator.r_mgr rv) = state_mgr.elevator sm
  /\ state_mgr.rudder (simulator.r_mgr rv) = state_mgr.rudder sm.
Proof.
  unfold simulator.resolve. intros Hok.
  destruct (simulator.output_mode result).
  - unfold simulator.resolve_accel in Hok.
    bind_inv Hok as bax Ex. bind_inv Hok as bay Ey. bind_inv Hok as baz Ez.
    bind_inv Hok as vy Evy. bind_inv Hok as vz Evz. bind_inv Hok as k Ek.
    inversion Hok; subst; simpl. auto.
  - unfold simulator.resolve_velocity in Hok.
    bind_inv Hok as vx Ex. bind_inv Hok as vy Ey. bind_inv Hok as vz Ez.
    inversion Hok; subst; simpl. auto.
  - unfold simulator.resolve_trig in Hok.
    bind_inv Hok as sa Ea. bind_inv Hok as qa Eqa.
    bind_inv Hok as sb Eb. bind_inv Hok as qb Eqb.
    bind_inv Hok as a Easin. bind_inv Hok as b Ebsin.
    inversion Hok; subst; simpl. auto.
  - inversion Hok; subst; simpl. auto.
Qed.

Lemma body_frame_values_keeps_controls (sm : state_mgr.StateManager) :
  let sm' := state_mgr.compute_body_frame_values false sm in
  state_mgr.throttle sm' = state_mgr.throttle sm
  /\ state_mgr.aileron sm' = state_mgr.aileron sm
  /\ state_mgr.elevator sm' = state_mgr.elevator sm
  /\ state_mgr.rudder sm' = state_mgr.rudder sm.
Proof.
  unfold state_mgr.compute_body_frame_values.
  destruct (state_mgr.v_body sm) as [[bx by'] bz]. simpl. auto.
Qed.

Lemma advance_sample (s s' : simulator.Simulator) (result : dict)
    (tr : option (list R)) :
  simulator.advance s result tr = Ok s' ->
  exists dt_ row,
    simulator.dt s = Some dt_
    /\ simulator.time s' = simulator.time s + dt_
    /\ simulator.data s' = (simulator.data s ++ [row])%list
    /\ row =
       ([ simulator.time s; simulator.airspeed_mps s';
          state_mgr.throttle (simulator.state_mgr s);
          state_mgr.aileron (simulator.state_mgr s);
          state_mgr.elevator (simulator.state_mgr s);
          state_mgr.rudder (simulator.state_mgr s);
          simulator.phi_rad s'; simulator.the_rad s'; simulator.psi_rad s';
          state_mgr.alpha (simulator.state_mgr s');
          state_mgr.beta (simulator.state_mgr s');
          simulator.p s'; simulator.q s'; simulator.r s' ]
        ++ simulator.tolist (simulator.pos_ned s')
        ++ simulator.tolist (simulator.vel_ned s'))%list
    /\ simulator.pos_ned s' =
       vadd (simulator.pos_ned s) (simulator.times (simulator.vel_ned s') dt_)
    /\ state_mgr.throttle (simulator.state_mgr s') =
       state_mgr.throttle (simulator.state_mgr s)
    /\ state_mgr.aileron (simulator.state_mgr s') =
       state_mgr.aileron (simulator.state_mgr s)
    /\ state_mgr.elevator (simulator.state_mgr s') =
       state_mgr.elevator (simulator.state_mgr s)
    /\ state_mgr.rudder (simulator.state_mgr s') =
       state_mgr.rudder (simulator.state_mgr s)
    /\ simulator.A s' = simulator.A s
    /\ simulator.dt s' = simulator.dt s
    /\ simulator.params s' = simulator.params s
    /\ simulator.trim_airspeed_mps s' = simulator.trim_airspeed_mps s.
Proof.
  unfold simulator.advance. intros Hok.
  bind_inv Hok as airspeed Ea.
  bind_inv Hok as dt_ Edt.
  bind_inv Hok as rv Erv.
  bind_inv Hok as p_ Ep.
  bind_inv Hok as q_ Eq.
  bind_inv Hok as r_ Er.
  bind_inv Hok as acc Eacc.
  destruct acc as [[[ax_ ay_] az_] sm].
  destruct (resolve_keeps_controls _ _ _ _ _ _ _ Erv) as (Ht & Hai & He & Hr).
  simpl in Ht, Hai, He, Hr.
  assert (Hsm : state_mgr.throttle sm = state_mgr.throttle (simulator.state_mgr s)
                /\ state_mgr.aileron sm = state_mgr.aileron (simulator.state_mgr s)
                /\ state_mgr.elevator sm = state_mgr.elevator (simulator.state_mgr s)
                /\ state_mgr.rudder sm = state_mgr.rudder (simulator.state_mgr s)).
  { unfold simulator.resolve_accels in Eacc.
    destruct (dict_has result "ax").
    - bind_inv Eacc as x_ Ex. bind_inv Eacc as y_ Ey. bind_inv Eacc as z_ Ez.
      inversion Eacc; subst. simpl. auto.
    - inversion Eacc; subst. simpl. auto. }
  destruct Hsm as (Ht' & Hai' & He' & Hr').
  destruct (state_mgr.quat2eul _) as [[phi the] psi] eqn:Heul.
  destruct (state_mgr.backTransform _ _) as [[vn ve] vd] eqn:Hvel.
  destruct (body_frame_values_keeps_controls
              (state_mgr.set_orientation phi the psi sm)) as (Hc1 & Hc2 & Hc3 & Hc4).
  simpl in Hc1, Hc2, Hc3, Hc4.
  inversion Hok; subst s'; clear Hok. simpl.
  destruct (simulator.dt s) as [d|] eqn:Hdt; simpl in Edt; [|discriminate].
  inversion Edt; subst d; clear Edt.
  rewrite Hc1, Hc2, Hc3, Hc4, Ht', Hai', He', Hr'.
  exists dt_. eexists.
  repeat (split; [reflexivity|]). reflexivity.
Qed.

End Bookkeeping.

Section BookkeepingTheorems.
Context `{state_mgr.Collaborators}.

(** X1: a successful [update] appends exactly one sample of twenty columns
    to the trajectory: the time before the step, the airspeed of the step,
    the four controls, the Euler angles, the state manager's [alpha] and
    [beta], the rates, and the new position and velocity.  It advances the
    time by [dt] and the position by [vel_ned * dt], holds the controls,
    and leaves the loaded model ([A], [dt], [params]) as it is. *)
Theorem update_appends_one_sample
    (s s' : simulator.Simulator) (g g' : Rng) :
  simulator.update s g = Ok (s', g') ->
  exists dt_ row,
    simulator.dt s = Some dt_
    /\ simulator.time s' = simulator.time s + dt_
    /\ simulator.data s' = (simulator.data s ++ [row])%list
    /\ List.length row = 20%nat
    /\ row =
       ([ simulator.time s; simulator.airspeed_mps s';
          state_mgr.throttle (simulator.state_mgr s);
          state_mgr.aileron (simulator.state_mgr s);
          state_mgr.elevator (simulator.state_mgr s);
          state_mgr.rudder (simulator.state_mgr s);
          simulator.phi_rad s'; simulator.the_rad s'; simulator.psi_rad s';
          state_mgr.alpha (simulator.state_mgr s');
          state_mgr.beta (simulator.state_mgr s');
          simulator.p s'; simulator.q s'; simulator.r s' ]
        ++ simulator.tolist (simulator.pos_ned s')
        ++ simulator.tolist (simulator.vel_ned s'))%list
    /\ simulator.pos_ned s' =
       vadd (simulator.pos_ned s) (simulator.times (simulator.vel_ned s') dt_)
    /\ state_mgr.throttle (simulator.state_mgr s') =
       state_mgr.throttle (simulator.state_mgr s)
    /\ state_mgr.aileron (simulator.state_mgr s') =
       state_mgr.aileron (simulator.state_mgr s)
    /\ state_mgr.elevator (simulator.state_mgr s') =
       state_mgr.elevator (simulator.state_mgr s)
    /\ state_mgr.rudder (simulator.state_mgr s') =
       state_mgr.rudder (simulator.state_mgr s)
    /\ simulator.A s' = simulator.A s
    /\ simulator.dt s' = simulator.dt s
    /\ simulator.params s' = simulator.params s.
Proof.
  intros Hup. apply update_inv in Hup. destruct Hup as (result & tr & _ & Hadv).
  destruct (advance_sample _ _ _ _ Hadv)
    as (dt_ & row & Hdt & Htime & Hdata & Hrow & Hpos & Ht & Ha & He & Hr
        & HA & Hdt' & Hps & _).
  exists dt_, row.
  split; [exact Hdt|]. split; [exact Htime|]. split; [exact Hdata|].
  split.
  { rewrite Hrow.
    destruct (simulator.pos_ned s') as [[pn pe] pd].
    destruct (simulator.vel_ned s') as [[vn ve] vd]. reflexivity. }
  auto 15.
Qed.

Lemma run_bookkeeping (n : nat) :
  forall (s s' : simulator.Simulator) (g g' : Rng) (d : R),
    simulator.dt s = Some d ->
    simulator.run n s g = Ok (s', g') ->
    simulator.time s' = simulator.time s + INR n * d
    /\ List.length (simulator.data s') = (List.length (simulator.data s) + n)%nat
    /\ firstn (List.length (simulator.data s)) (simulator.data s') = simulator.data s
    /\ state_mgr.throttle (simulator.state_mgr s') =
       state_mgr.throttle (simulator.state_mgr s)
    /\ state_mgr.aileron (simulator.state_mgr s') =
       state_mgr.aileron (simulator.state_mgr s)
    /\ state_mgr.elevator (simulator.state_mgr s') =
       state_mgr.elevator (simulator.state_mgr s)
    /\ state_mgr.rudder (simulator.state_mgr s') =
       state_mgr.rudder (simulator.state_mgr s)
    /\ simulator.A s' = simulator.A s
    /\ simulator.dt s' = simulator.dt s
    /\ simulator.params s' = simulator.params s.
Proof.
  induction n as [|n IH]; intros s s' g g' d Hd Hrun.
  - simpl in Hrun. inversion Hrun; subst. simpl.
    rewrite firstn_all, Nat.add_0_r. repeat split; auto. lra.
  - change (simulator.run (S n) s g)
      with (bind (simulator.update s g)
              (fun st => let '(s1, g1) := st in simulator.run n s1 g1)) in Hrun.
    bind_inv Hrun as st Eup. destruct st as [s1 g1].
    apply update_inv in Eup. destruct Eup as (result & tr & _ & Hadv).
    destruct (advance_sample _ _ _ _ Hadv)
      as (dt_ & row & Hdt & Htime & Hdata & _ & _ & Ht & Ha & He & Hr
          & HA & Hdt' & Hps & _).
    assert (dt_ = d) by congruence. subst dt_.
    assert (Hd1 : simulator.dt s1 = Some d) by congruence.
    destruct (IH s1 s' g1 g' d Hd1 Hrun)
      as (Itime & Ilen & Ipre & It & Ia & Ie & Ir & IA & Idt & Ips).
    rewrite Hdata in Ilen, Ipre. rewrite length_app in Ilen, Ipre. simpl in Ilen, Ipre.
    split. { rewrite Itime, Htime, S_INR. lra. }
    split. { lia. }
    split.
    { assert (Hcut : firstn (List.length (simulator.data s)) (simulator.data s') =
                     firstn (List.length (simulator.data s))
                       (firstn (List.length (simulator.data s) + 1)
                          (simulator.data s'))).
      { rewrite firstn_firstn. f_equal. lia. }
      rewrite Hcut, Ipre, firstn_app, Nat.sub_diag, firstn_all. simpl.
      apply app_nil_r. }
    repeat split; congruence.
Qed.

(** X2: after [n] successful updates the time has advanced by [n * dt], the
    trajectory has [n] more samples (those recorded before are untouched),
    and the controls and the loaded model are the ones the run started
    with.  From [reset] the time is [n * dt] and the trajectory has exactly
    [n] samples. *)
Theorem run_advances_time_and_trajectory
    (n : nat) (s s' : simulator.Simulator) (g g' : Rng) (d : R) :
  simulator.dt s = Some d ->
  simulator.run n s g = Ok (s', g') ->
  simulator.time s' = simulator.time s + INR n * d
  /\ List.length (simulator.data s') = (List.length (simulator.data s) + n)%nat
  /\ firstn (List.length (simulator.data s)) (simulator.data s') = simulator.data s
  /\ state_mgr.throttle (simulator.state_mgr s') =
     state_mgr.throttle (simulator.state_mgr s)
  /\ state_mgr.aileron (simulator.state_mgr s') =
     state_mgr.aileron (simulator.state_mgr s)
  /\ state_mgr.elevator (simulator.state_mgr s') =
     state_mgr.elevator (simulator.state_mgr s)
  /\ state_mgr.rudder (simulator.state_mgr s') =
     state_mgr.rudder (simulator.state_mgr s)
  /\ simulator.A s' = simulator.A s
  /\ simulator.dt s' = simulator.dt s
  /\ simulator.params s' = simulator.params s
  /\ (forall s0, s = simulator.reset s0 ->
        simulator.time s' = INR n * d
        /\ List.length (simulator.data s') = n
        /\ state_mgr.throttle (simulator.state_mgr s') = 1 / 2
        /\ state_mgr.elevator (simulator.state_mgr s') = - (1 / 10)).
Proof.
  intros Hd Hrun.
  destruct (run_bookkeeping n s s' g g' d Hd Hrun)
    as (Itime & Ilen & Ipre & It & Ia & Ie & Ir & IA & Idt & Ips).
  repeat (split; [assumption|]).
  intros s0 ->. rewrite Itime, Ilen, It, Ie. simpl.
  repeat split; try reflexivity. lra.
Qed.

End BookkeepingTheorems.

(** ** reset *)

Section Reset.
Context `{state_mgr.Collaborators}.

Lemma run_keeps_phase_array (n : nat) :
  forall (s s' : simulator.Simulator) (g g' : Rng) (T : list R),
    simulator.trand s = Some T ->
    simulator.run n s g = Ok (s', g') ->
    simulator.trand s' = Some T /\ g' = g.
Proof.
  induction n as [|n IH]; intros s s' g g' T Htr Hrun; simpl in Hrun.
  - inversion Hrun; subst. auto.
  - bind_inv Hrun as st Eup. destruct st as [s1 g1].
    apply update_phase_array in Eup.
    destruct Eup as (ps & next & _ & _ & Htr1 & Hg1 & _).
    rewrite Htr in Htr1, Hg1. simpl in Htr1, Hg1. subst g1.
    now apply (IH s1 s' g g' T).
Qed.

Lemma state_manager_ext (a b : state_mgr.StateManager) :
  state_mgr.ind_states a = state_mgr.ind_states b ->
  state_mgr.dep_states a = state_mgr.dep_states b ->
  state_mgr.dt a = state_mgr.dt b ->
  state_mgr.time a = state_mgr.time b ->
  state_mgr.throttle a = state_mgr.throttle b ->
  state_mgr.aileron a = state_mgr.aileron b ->
  state_mgr.elevator a = state_mgr.elevator b ->
  state_mgr.rudder a = state_mgr.rudder b ->
  state_mgr.airspeed_mps a = state_mgr.airspeed_mps b ->
  state_mgr.qbar a = state_mgr.qbar b ->
  state_mgr.alpha a = state_mgr.alpha b ->
  state_mgr.beta a = state_mgr.beta b ->
  state_mgr.euler a = state_mgr.euler b ->
  state_mgr.gyros a = state_mgr.gyros b ->
  state_mgr.accels a = state_mgr.accels b ->
  state_mgr.v_ned a = state_mgr.v_ned b ->
  state_mgr.wind_ned a = state_mgr.wind_ned b ->
  state_mgr.wind a = state_mgr.wind b ->
  state_mgr.v_body a = state_mgr.v_body b ->
  state_mgr.terms a = state_mgr.terms b ->
  a = b.
Proof.
  destruct a, b. simpl. intros. subst. reflexivity.
Qed.

Lemma reset_state_mgr (s : simulator.Simulator) :
  simulator.state_mgr (simulator.reset s) =
  state_mgr.mkStateManager
    (state_mgr.ind_states (simulator.state_mgr s))
    (state_mgr.dep_states (simulator.state_mgr s))
    (state_mgr.dt (simulator.state_mgr s))
    0 (1 / 2) 0 (- (1 / 10)) 0 10 (state_mgr.qbar (simulator.state_mgr s))
    (state_mgr.alpha (simulator.state_mgr s))
    (state_mgr.beta (simulator.state_mgr s))
    (0, 0, 0) (0, 0, 0) (0, 0, 0) (10, 0, 0) (0, 0, 0)
    (state_mgr.wind (simulator.state_mgr s))
    (10, 0, 0)
    (state_mgr.terms (simulator.state_mgr s)).
Proof.
  apply state_manager_ext; reflexivity.
Qed.

Lemma reset_normal_form (s : simulator.Simulator) :
  simulator.reset s =
  simulator.mkSimulator (simulator.A s) (simulator.dt s) (simulator.trand s)
    (simulator.params s)
    (simulator.state_mgr (simulator.reset s))
    0 (0, 0, 0) (10, 0, 0) 0 0 0 (quaternion.eul2quat 0 0 0)
    0 0 0 0 0 0 0 0 0
    (simulator.alpha s) (simulator.beta s) 0 []
    (simulator.trim_airspeed_mps s).
Proof. reflexivity. Qed.

Lemma reset_idempotent (s : simulator.Simulator) :
  simulator.reset (simulator.reset s) = simulator.reset s.
Proof.
  rewrite (reset_normal_form (simulator.reset s)).
  rewrite (reset_normal_form s) at 6.
  rewrite (reset_state_mgr (simulator.reset s)), !(reset_state_mgr s).
  reflexivity.
Qed.

(** X3: [reset] is idempotent.  It empties the trajectory and zeroes the
    time, the position and the simulator's airspeed attribute (the state
    manager's airspeed is set to 10), but keeps the loaded model and the
    phase array of the noise: a phase array drawn before a reset is the one
    every later update uses, and no new draw is made. *)
Theorem reset_keeps_model_and_phase_array :
  (forall s, simulator.reset (simulator.reset s) = simulator.reset s)
  /\ (forall s,
        simulator.data (simulator.reset s) = []
        /\ simulator.time (simulator.reset s) = 0
        /\ simulator.pos_ned (simulator.reset s) = (0, 0, 0)
        /\ simulator.airspeed_mps (simulator.reset s) = 0
        /\ state_mgr.airspeed_mps (simulator.state_mgr (simulator.reset s)) = 10
        /\ simulator.A (simulator.reset s) = simulator.A s
        /\ simulator.dt (simulator.reset s) = simulator.dt s
        /\ simulator.params (simulator.reset s) = simulator.params s
        /\ simulator.trand (simulator.reset s) = simulator.trand s)
  /\ (forall n s s' g g' T,
        simulator.trand s = Some T ->
        simulator.run n (simulator.reset s) g = Ok (s', g') ->
        simulator.trand s' = Some T /\ g' = g).
Proof.
  split; [exact reset_idempotent|]. split.
  - intros s. rewrite (reset_state_mgr s). repeat split.
  - intros n s s' g g' T Htr Hrun.
    apply (run_keeps_phase_array n (simulator.reset s) s' g g' T); [|exact Hrun].
    exact Htr.
Qed.

End Reset.

(** ** The airspeed of a step *)

Section StepAirspeed.
Context `{state_mgr.Collaborators}.

Lemma dict_lacks_get (d : dict) (k : string) :
  dict_has d k = false -> dict_get d k = Raise (KeyError k).
Proof.
  induction d as [|[k' v'] d IH]; simpl; [reflexivity|].
  destruct (String.eqb k' k); [discriminate|exact IH].
Qed.

Lemma update_advance (s s' : simulator.Simulator) (g g' g1 : Rng)
    (result : dict) (tr : option (list R)) :
  simulator.predict s g = Ok (result, tr, g1) ->
  simulator.update s g = Ok (s', g') ->
  simulator.advance s result tr = Ok s' /\ g' = g1.
Proof.
  intros Hpred Hup. unfold simulator.update in Hup.
  rewrite Hpred, bind_Ok in Hup. cbv beta iota in Hup.
  bind_inv Hup as s1 Eadv. inversion Hup; subst. auto.
Qed.

(** X4: the airspeed of a step is the predicted airspeed output as it is
    (unclamped) when the prediction has one; otherwise it is the length of
    the predicted body velocity and therefore never negative.  Either way
    it is the value stored in the sample. *)
Theorem step_airspeed_source
    (s s' : simulator.Simulator) (g g' g1 : Rng) (result : dict)
    (tr : option (list R)) :
  simulator.predict s g = Ok (result, tr, g1) ->
  simulator.update s g = Ok (s', g') ->
  (dict_has result "airspeed" = true ->
   dict_get result "airspeed" = Ok (simulator.airspeed_mps s'))
  /\ (dict_has result "airspeed" = false ->
      0 <= simulator.airspeed_mps s'
      /\ exists vx vy vz,
           dict_get result "bvx" = Ok vx
           /\ dict_get result "bvy" = Ok vy
           /\ dict_get result "bvz" = Ok vz
           /\ simulator.airspeed_mps s' = norm3 vx vy vz)
  /\ exists row,
       simulator.data s' = (simulator.data s ++ [row])%list
       /\ simulator.sample_airspeed row = simulator.airspeed_mps s'.
Proof.
  intros Hpred Hup.
  destruct (update_advance _ _ _ _ _ _ _ Hpred Hup) as (Hadv & _).
  destruct (advance_inv _ _ _ _ Hadv)
    as (airspeed & dt_ & rv & row & Ha & _ & _ & _ & _ & _ & Hs & _ & _ & _ & _
        & _ & _ & _ & Hdata & Hrow & _).
  unfold simulator.resolve_airspeed in Ha.
  split; [|split].
  - intros Hhas. rewrite Hhas in Ha. now rewrite Hs.
  - intros Hno. rewrite Hno in Ha.
    bind_inv Ha as vx Ex. bind_inv Ha as vy Ey. bind_inv Ha as vz Ez.
    injection Ha as Ha. rewrite Hs, <- Ha.
    split; [apply norm3_nonneg|]. exists vx, vy, vz. auto.
  - exists row. rewrite Hs. auto.
Qed.

(** X5: a prediction with neither an airspeed output nor body-velocity
    outputs makes [update] raise [KeyError] on ["bvx"]; and a prediction
    whose body velocity resolves but which lacks the roll-rate output makes
    it raise [KeyError] on ["p"]. *)
Theorem update_needs_velocity_and_rate_outputs
    (s : simulator.Simulator) (result : dict) (tr : option (list R)) :
  (dict_has result "airspeed" = false ->
   dict_has result "bvx" = false ->
   simulator.advance s result tr = Raise (KeyError "bvx")
   /\ forall g g1,
        simulator.predict s g = Ok (result, tr, g1) ->
        simulator.update s g = Raise (KeyError "bvx"))
  /\ (forall airspeed dt_ rv,
        simulator.resolve_airspeed result = Ok airspeed ->
        simulator.dt s = Some dt_ ->
        simulator.resolve result dt_ airspeed
          (state_mgr.qbar
             (state_mgr.set_airdata airspeed (simulator.state_mgr s))) s
          (state_mgr.set_airdata airspeed (simulator.state_mgr s)) = Ok rv ->
        dict_has result "p" = false ->
        simulator.advance s result tr = Raise (KeyError "p")).
Proof.
  split.
  - intros Hair Hbvx.
    assert (Hadv : simulator.advance s result tr = Raise (KeyError "bvx")).
    { unfold simulator.advance, simulator.resolve_airspeed.
      rewrite Hair, (dict_lacks_get _ _ Hbvx). reflexivity. }
    split; [exact Hadv|].
    intros g g1 Hpred. unfold simulator.update.
    rewrite Hpred, bind_Ok. cbv beta iota. now rewrite Hadv.
  - intros airspeed dt_ rv Ha Hdt Hrv Hp.
    unfold simulator.advance.
    rewrite Ha, bind_Ok. cbv beta zeta.
    rewrite Hdt. unfold simulator.not_none. rewrite bind_Ok. cbv beta.
    rewrite Hrv, bind_Ok. cbv beta.
    rewrite (dict_lacks_get _ _ Hp). reflexivity.
Qed.

End StepAirspeed.

(** ** The clamps of the trigonometric branch *)

Section Clamps.

Lemma clamp_unit_fixed (v : R) :
  simulator.clamp_unit (simulator.clamp_unit v) = simulator.clamp_unit v.
Proof. apply clamp_unit_id, clamp_unit_bounds. Qed.

Lemma clamp_angle_fixed (a : R) :
  simulator.clamp_angle (simulator.clamp_angle a) = simulator.clamp_angle a.
Proof. apply clamp_angle_id, clamp_angle_bounds. Qed.

(** X6: the two clamps of the trigonometric branch are idempotent, leave
    every value inside their range as it is (the boundary values
    included) and send every value outside to the nearer boundary. *)
Theorem trig_clamps_are_idempotent (v : R) :
  simulator.clamp_unit (simulator.clamp_unit v) = simulator.clamp_unit v
  /\ simulator.clamp_angle (simulator.clamp_angle v) = simulator.clamp_angle v
  /\ (-1 <= v <= 1 -> simulator.clamp_unit v = v)
  /\ (1 < v -> simulator.clamp_unit v = 1)
  /\ (v < -1 -> simulator.clamp_unit v = -1)
  /\ (- simulator.max_angle <= v <= simulator.max_angle ->
      simulator.clamp_angle v = v)
  /\ (simulator.max_angle < v -> simulator.clamp_angle v = simulator.max_angle)
  /\ (v < - simulator.max_angle ->
      simulator.clamp_angle v = - simulator.max_angle).
Proof.
  pose proof max_angle_pos as Hpos.
  split; [apply clamp_unit_fixed|]. split; [apply clamp_angle_fixed|].
  split; [apply clamp_unit_id|].
  unfold simulator.clamp_unit, simulator.clamp_angle.
  repeat split; intros Hv.
  - destruct (Rlt_dec 1 v); destruct (Rlt_dec _ (-1)); lra.
  - destruct (Rlt_dec 1 v); destruct (Rlt_dec _ (-1)); lra.
  - destruct (Rlt_dec simulator.max_angle v); destruct (Rlt_dec _ (- _)); lra.
  - destruct (Rlt_dec simulator.max_angle v); destruct (Rlt_dec _ (- _)); lra.
  - destruct (Rlt_dec simulator.max_angle v); destruct (Rlt_dec _ (- _)); lra.
Qed.

End Clamps.

(** ** The flow angles of the acceleration branch *)

Section AccelAngles.

Lemma atan_monotone (x y : R) : x <= y -> atan x <= atan y.
Proof.
  intros [Hlt | ->]; [left; now apply atan_increasing | right; reflexivity].
Qed.

Lemma atan_abs_le (t c : R) : Rabs t <= c -> Rabs (atan t) <= atan c.
Proof.
  intros Ht. apply Rabs_le.
  assert (Hlo : - c <= t) by (unfold Rabs in Ht; destruct (Rcase_abs t); lra).
  assert (Hhi : t <= c) by (unfold Rabs in Ht; destruct (Rcase_abs t); lra).
  split.
  - rewrite <- atan_opp. now apply atan_monotone.
  - now apply atan_monotone.
Qed.

Lemma atan2_forward (y x : R) : 0 < x -> atan2 y x = atan (y / x).
Proof.
  intros Hx. unfold atan2. destruct (Rlt_dec 0 x); [reflexivity|contradiction].
Qed.

Lemma atan_tenth_within_envelope : atan (1 / 10) < simulator.max_angle.
Proof.
  assert (H5 : atan (1 / 10) < atan (/ 5)) by (apply atan_increasing; lra).
  assert (H239 : atan (/ 239) < PI / 4).
  { rewrite <- atan_1. apply atan_increasing. lra. }
  pose proof Machin_4_5_239 as HM. pose proof PI_RGT_0 as Hpi.
  unfold simulator.max_angle, constants.d2r. lra.
Qed.

Lemma resolve_accel_angles (result : dict) (dt_ airspeed : R)
    (s : simulator.Simulator) (sm : state_mgr.StateManager)
    (rv : simulator.Resolved) :
  simulator.resolve_accel result dt_ airspeed s sm = Ok rv ->
  simulator.r_alpha rv =
    Some (atan2 (simulator.r_bvz rv) (simulator.r_bvx rv))
  /\ simulator.r_beta rv =
     Some (atan2 (- simulator.r_bvy rv) (simulator.r_bvx rv)).
Proof.
  unfold simulator.resolve_accel. intros Hok.
  bind_inv Hok as bax Ex. bind_inv Hok as bay Ey. bind_inv Hok as baz Ez.
  bind_inv Hok as vy Evy. bind_inv Hok as vz Evz. bind_inv Hok as k Ek.
  inversion Hok; subst; simpl. auto.
Qed.

Lemma ratio_within_tenth (w vx k : R) :
  0 < vx -> 0 < k -> Rabs w <= vx / 10 ->
  Rabs (w * k / (vx * k)) <= 1 / 10.
Proof.
  intros Hvx Hk Hw.
  replace (w * k / (vx * k)) with (w / vx) by (field; lra).
  unfold Rdiv. rewrite Rabs_mult, (Rabs_pos_eq (/ vx))
    by (left; now apply Rinv_0_lt_compat).
  assert (Hinv : 0 < / vx) by now apply Rinv_0_lt_compat.
  assert (Hone : vx * / vx = 1) by (field; lra).
  pose proof (Rabs_pos w). nra.
Qed.

(** X7: in the acceleration branch the forward velocity has the sign of
    the resolved airspeed: positive airspeed gives a positive forward
    velocity, negative airspeed a negative one (the floor at 0.1 is applied
    before the rescaling).  With a positive airspeed the angle of attack
    and the sideslip the branch computes are at most [atan(0.1)] in
    magnitude, inside the 25 degree envelope. *)
Theorem accel_branch_flow_angles
    (result : dict) (dt_ airspeed : R) (s : simulator.Simulator)
    (sm : state_mgr.StateManager) (bax bay baz : R) :
  dict_get result "bax" = Ok bax ->
  dict_get result "bay" = Ok bay ->
  dict_get result "baz" = Ok baz ->
  exists rv,
    simulator.resolve_accel result dt_ airspeed s sm = Ok rv
    /\ (0 < airspeed ->
        0 < simulator.r_bvx rv
        /\ exists a b,
             simulator.r_alpha rv = Some a
             /\ simulator.r_beta rv = Some b
             /\ Rabs a <= atan (1 / 10)
             /\ Rabs b <= atan (1 / 10)
             /\ Rabs a < simulator.max_angle
             /\ Rabs b < simulator.max_angle)
    /\ (airspeed < 0 -> simulator.r_bvx rv < 0)
    /\ (airspeed = 0 ->
        simulator.r_bvx rv = 0 /\ simulator.r_bvy rv = 0
        /\ simulator.r_bvz rv = 0).
Proof.
  intros Hx Hy Hz.
  destruct (resolve_accel_spec result dt_ airspeed s sm bax bay baz Hx Hy Hz)
    as (vx & vy & vz & rv & Hok & Hvx & Hvy & Hvz & _ & _ & Hsc & _ & _).
  destruct (resolve_accel_angles _ _ _ _ _ _ Hok) as (Ha & Hb).
  assert (Hpos : 0 < vx).
  { subst vx. pose proof (Rmax_r (simulator.bvx s + bax * dt_) (1 / 10)). lra. }
  pose proof (norm3_pos vx vy vz Hpos) as Hn.
  unfold simulator.times in Hsc. injection Hsc as Hbx Hby Hbz.
  exists rv. split; [exact Hok|].
  set (k := airspeed / norm3 vx vy vz) in *.
  split; [|split].
  - intros Hair.
    assert (Hk : 0 < k) by (unfold k; now apply Rdiv_lt_0_compat).
    assert (Hfx : 0 < simulator.r_bvx rv) by (rewrite Hbx; nra).
    split; [exact Hfx|].
    eexists. eexists. split; [exact Ha|]. split; [exact Hb|].
    rewrite !atan2_forward by exact Hfx.
    assert (Hza : Rabs (atan (simulator.r_bvz rv / simulator.r_bvx rv))
                  <= atan (1 / 10)).
    { apply atan_abs_le. rewrite Hbx, Hbz. now apply ratio_within_tenth. }
    assert (Hzb : Rabs (atan (- simulator.r_bvy rv / simulator.r_bvx rv))
                  <= atan (1 / 10)).
    { apply atan_abs_le. rewrite Hbx, Hby.
      replace (- (vy * k)) with ((- vy) * k) by ring.
      apply ratio_within_tenth; auto. now rewrite Rabs_Ropp. }
    pose proof atan_tenth_within_envelope. repeat split; lra.
  - intros Hair.
    assert (Hk : k < 0).
    { unfold k, Rdiv. assert (0 < / norm3 vx vy vz) by now apply Rinv_0_lt_compat.
      nra. }
    rewrite Hbx. nra.
  - intros Hair.
    assert (Hk : k = 0) by (unfold k; rewrite Hair; field; lra).
    rewrite Hbx, Hby, Hbz, Hk. repeat split; ring.
Qed.

End AccelAngles.

(** ** The shapes a loaded model fixes *)

Section LoadShape.

Lemma names_partition (ps : list Param) :
  (List.length (simulator.ind_names ps) + List.length (simulator.dep_names ps)
   = List.length ps)%nat.
Proof.
  induction ps as [|prm ps IH]; simpl; [reflexivity|].
  destruct (String.eqb (ptype prm) "independent"); simpl; lia.
Qed.

Lemma dep_names_count (ps : list Param) :
  List.length (simulator.dep_names ps) =
  (simulator.count_dependent ps + List.length (other_typed ps))%nat.
Proof.
  unfold other_typed.
  induction ps as [|prm ps IH]; simpl; [reflexivity|].
  destruct (String.eqb (ptype prm) "independent") eqn:Ei.
  - apply String.eqb_eq in Ei.
    destruct (String.eqb (ptype prm) "dependent") eqn:Ed.
    + apply String.eqb_eq in Ed. rewrite Ei in Ed. discriminate.
    + simpl. exact IH.
  - destruct (String.eqb (ptype prm) "dependent"); simpl; rewrite IH; lia.
Qed.

Lemma gen_entries_length (sm : state_mgr.StateManager)
    (params : option (list Param)) (fields : list string) :
  forall (i : nat) (v : list R),
    state_mgr.gen_entries sm params fields i = Ok v ->
    List.length v = List.length fields.
Proof.
  induction fields as [|f rest IH]; intros i v Hok; simpl in Hok.
  - inversion Hok. reflexivity.
  - bind_inv Hok as x Ex. bind_inv Hok as t Et.
    inversion Hok; subst. simpl. f_equal. now apply (IH (S i)).
Qed.

Lemma matvec_fits (a : list (list R)) (v : list R) :
  (forall row, In row a -> List.length row = List.length v) ->
  exists next, matvec a v = Ok next /\ List.length next = List.length a.
Proof.
  induction a as [|row rest IH]; intros Hrows; simpl.
  - exists []. auto.
  - rewrite (Hrows row (or_introl eq_refl)), Nat.eqb_refl.
    destruct IH as (t & Ht & Hlen); [intros r Hr; apply Hrows; now right|].
    rewrite Ht. simpl. exists (dot row v :: t). simpl. auto.
Qed.

(** X8: what a successful [load] fixes.  The state manager gets the names
    of the parameters typed "independent" as independent states and the
    names of all other parameters as dependent states, so the state list
    has one name per parameter; the matrix has one row per parameter typed
    exactly "dependent", so the dependent names outnumber the rows by the
    parameters of any other type.  Every state vector generated for these
    names has as many entries as the matrix has columns: [A @ state] never
    raises and yields one entry per row.  [load] does not reset: the
    trajectory, the time, the attitude and the phase array are kept. *)
Theorem load_fixes_names_and_shapes
    (model : ModelFile) (s s' : simulator.Simulator) :
  simulator.load model s = Ok s' ->
  let ps := mf_parameters model in
  let sm' := simulator.state_mgr s' in
  state_mgr.ind_states sm' = simulator.ind_names ps
  /\ state_mgr.dep_states sm' = simulator.dep_names ps
  /\ state_mgr.dt sm' = Some (mf_dt model)
  /\ List.length (state_mgr.state_list sm') = List.length ps
  /\ List.length (state_mgr.dep_states sm') =
     (simulator.count_dependent ps + List.length (other_typed ps))%nat
  /\ (exists a,
        simulator.A s' = Some a
        /\ List.length a = simulator.count_dependent ps
        /\ forall sm state,
             state_mgr.state_list sm = state_mgr.state_list sm' ->
             state_mgr.gen_state_vector sm (Some ps) = Ok state ->
             exists next,
               matvec a state = Ok next
               /\ List.length next = simulator.count_dependent ps)
  /\ simulator.data s' = simulator.data s
  /\ simulator.time s' = simulator.time s
  /\ simulator.pos_ned s' = simulator.pos_ned s
  /\ simulator.ned2body s' = simulator.ned2body s
  /\ simulator.trand s' = simulator.trand s.
Proof.
  intros Hload ps sm'. subst sm'.
  unfold simulator.load, reshape in Hload. fold ps in Hload.
  destruct (Nat.eqb _ _) eqn:Hlen; [|discriminate].
  apply Nat.eqb_eq in Hlen.
  simpl in Hload. inversion Hload; subst s'; clear Hload. simpl.
  assert (Hstate : List.length
            (state_mgr.state_list
               (state_mgr.set_dt (mf_dt model)
                  (state_mgr.set_state_names (simulator.ind_names ps)
                     (simulator.dep_names ps) (simulator.state_mgr s)))) =
          List.length ps).
  { unfold state_mgr.state_list. simpl. rewrite length_app. apply names_partition. }
  split; [reflexivity|]. split; [reflexivity|]. split; [reflexivity|].
  split; [exact Hstate|]. split; [apply dep_names_count|].
  split; [|auto 10].
  eexists. split; [reflexivity|]. split; [apply chunks_length|].
  intros sm state Hnames Hgen.
  unfold state_mgr.gen_state_vector in Hgen.
  apply gen_entries_length in Hgen. rewrite Hnames, Hstate in Hgen.
  destruct (matvec_fits (chunks (List.length ps) (simulator.count_dependent ps)
                           (mf_A model)) state) as (next & Hn & Hl).
  { intros row Hin. rewrite Hgen. now apply (chunks_row_length _ _ _ Hlen). }
  exists next. split; [exact Hn|]. now rewrite Hl, chunks_length.
Qed.

End LoadShape.

(** ** add_noise on parameters without a spectrum *)

Section QuietNoise.

Lemma add_noise_from_quiet (ps : list Param) (t : R) (next : list R) :
  forall (i : nat) (tr : option (list R)) (g : Rng),
    (i + List.length next <= List.length ps)%nat ->
    (forall k prm, (i <= k < i + List.length next)%nat ->
                   nth_error ps k = Some prm -> noise prm = None) ->
    simulator.add_noise_from ps t next i tr g = Ok (next, tr, g).
Proof.
  induction next as [|v rest IH]; intros i tr g Hfit Hquiet; simpl.
  - reflexivity.
  - simpl in Hfit. unfold index.
    destruct (nth_error ps i) as [prm|] eqn:Hi.
    2:{ apply nth_error_None in Hi. lia. }
    simpl. rewrite (Hquiet i prm) by (simpl; auto; lia).
    rewrite IH.
    + reflexivity.
    + lia.
    + intros k prm' Hk. apply Hquiet. simpl. lia.
Qed.

Lemma add_noise_from_shape (ps : list Param) (t : R) (next : list R) :
  forall (i : nat) (tr tr' : option (list R)) (g g' : Rng) (out : list R),
    simulator.add_noise_from ps t next i tr g = Ok (out, tr', g') ->
    List.length out = List.length next
    /\ forall k prm, nth_error ps (i + k) = Some prm -> noise prm = None ->
                     nth_error out k = nth_error next k.
Proof.
  induction next as [|v rest IH]; intros i tr tr' g g' out Hok; simpl in Hok.
  - inversion Hok; subst. auto.
  - bind_inv Hok as prm Eprm.
    unfold index in Eprm. destruct (nth_error ps i) as [prm0|] eqn:Hi; [|discriminate].
    inversion Eprm; subst prm0; clear Eprm.
    destruct (noise prm) as [pts|] eqn:Hn.
    + destruct (simulator.phase_array tr g (List.length pts)) as [a g1].
      bind_inv Hok as sum Es. bind_inv Hok as st Est.
      destruct st as [[rest' tr1] g2]. inversion Hok; subst; clear Hok.
      destruct (IH _ _ _ _ _ _ Est) as (Hlen & Hsame).
      split; [simpl; now rewrite Hlen|].
      intros [|k] prm' Hk Hq; simpl.
      * rewrite Nat.add_0_r in Hk. congruence.
      * apply (Hsame k prm'); [|exact Hq].
        now replace (S i + k)%nat with (i + S k)%nat by lia.
    + bind_inv Hok as st Est.
      destruct st as [[rest' tr1] g2]. inversion Hok; subst; clear Hok.
      destruct (IH _ _ _ _ _ _ Est) as (Hlen & Hsame).
      split; [simpl; now rewrite Hlen|].
      intros [|k] prm' Hk Hq; simpl.
      * reflexivity.
      * apply (Hsame k prm'); [|exact Hq].
        now replace (S i + k)%nat with (i + S k)%nat by lia.
Qed.

Lemma add_noise_from_overrun (ps : list Param) (t : R) (next : list R) :
  forall (i : nat) (tr : option (list R)) (g : Rng),
    (i <= List.length ps)%nat ->
    (List.length ps < i + List.length next)%nat ->
    simulator.add_noise_from ps t next i tr g = Raise IndexError.
Proof.
  induction next as [|v rest IH]; intros i tr g Hi0 Hover; simpl in *.
  - lia.
  - unfold index. destruct (nth_error ps i) as [prm|] eqn:Hi; [|reflexivity].
    assert (Hlt : (i < List.length ps)%nat) by (apply nth_error_Some; congruence).
    simpl. destruct (noise prm) as [pts|].
    + destruct (simulator.phase_array tr g (List.length pts)) as [a g1].
      rewrite noise_sum_spec.
      destruct (Nat.leb _ _);
        [|destruct (Nat.eqb _ _); [|reflexivity]];
        simpl; rewrite IH by lia; reflexivity.
    + rewrite IH by lia. reflexivity.
Qed.

(** X9: [add_noise] touches only the entries of parameters that have a
    noise spectrum.  A successful call keeps the length of the array and
    every entry whose parameter (by position in the file) has no spectrum;
    when none of the parameters the array reaches has one, the array, the
    phase array and the random generator are all left as they are.  An
    array longer than the parameter list makes the call raise
    [IndexError]. *)
Theorem add_noise_touches_only_noisy_entries
    (s : simulator.Simulator) (g : Rng) (next : list R) (ps : list Param) :
  simulator.params s = Some ps ->
  (forall out tr g',
      simulator.add_noise s g next = Ok (out, tr, g') ->
      List.length out = List.length next
      /\ forall k prm, nth_error ps k = Some prm -> noise prm = None ->
                       nth_error out k = nth_error next k)
  /\ ((List.length next <= List.length ps)%nat ->
      (forall k prm, (k < List.length next)%nat ->
                     nth_error ps k = Some prm -> noise prm = None) ->
      simulator.add_noise s g next = Ok (next, simulator.trand s, g))
  /\ ((List.length ps < List.length next)%nat ->
      simulator.add_noise s g next = Raise IndexError).
Proof.
  intros Hps. unfold simulator.add_noise. rewrite Hps. simpl.
  split; [|split].
  - intros out tr g' Hok. exact (add_noise_from_shape _ _ _ _ _ _ _ _ _ Hok).
  - intros Hfit Hquiet. apply add_noise_from_quiet; [simpl; lia|].
    intros k prm Hk. apply Hquiet. lia.
  - intros Hover. apply add_noise_from_overrun; simpl; lia.
Qed.

End QuietNoise.

(** ** What trim prints, and what trim_error leaves alone *)

Section TrimReport.
Context `{state_mgr.Collaborators}.

Variable least_squares :
  forall S : Type,
    (list R -> S -> outcome (list R * S)) -> list R -> S ->
    outcome (simulator.OptimizeResult * S).

(** X10: after the solver's result, [trim] prints six labelled values read
    from the first five entries of the solution: the value labelled
    "phi:" is entry 3, the rudder, printed a second time, and the value
    labelled "theta:" is entry 4, which [trim_error] uses as the roll
    angle.  Entry 5, the solved pitch angle, is never read, so two
    solutions that differ only from entry 5 on give the same six lines; a
    solution with fewer than five entries makes [trim] raise
    [IndexError]. *)
Theorem trim_prints_rudder_as_phi
    (airspeed : R) (s s1 : simulator.Simulator)
    (res : simulator.OptimizeResult) (out : list simulator.Printed) :
  least_squares _ simulator.trim_error simulator.initial
    (simulator.set_trim_airspeed_mps airspeed s, []) = Ok (res, (s1, out)) ->
  (forall x0 x1 x2 x3 x4 rest,
      simulator.x res = (x0 :: x1 :: x2 :: x3 :: x4 :: rest)%list ->
      simulator.trim least_squares airspeed s =
      Ok (None, s1,
          (out ++ simulator.PrintRes (simulator.x res) (simulator.success res)
               :: trim_report x0 x1 x2 x3 x4)%list))
  /\ ((List.length (simulator.x res) < 5)%nat ->
      simulator.trim least_squares airspeed s = Raise IndexError).
Proof.
  intros Hsolve. unfold simulator.trim. rewrite Hsolve, bind_Ok.
  cbv beta zeta iota. split.
  - intros x0 x1 x2 x3 x4 rest Hx. rewrite Hx. simpl.
    rewrite <- app_assoc. reflexivity.
  - intros Hlen.
    destruct (simulator.x res) as [|x0 [|x1 [|x2 [|x3 [|x4 rest]]]]];
      simpl in Hlen; try reflexivity; lia.
Qed.

Lemma apply_controls_short (xk : list R) (sm : state_mgr.StateManager) :
  (List.length xk < 6)%nat -> simulator.apply_controls xk sm = Raise IndexError.
Proof.
  intros Hlen. unfold simulator.apply_controls.
  destruct xk as [|x0 [|x1 [|x2 [|x3 [|x4 [|x5 rest]]]]]];
    simpl in Hlen; try reflexivity; lia.
Qed.

Lemma apply_controls_long (xk : list R) (sm : state_mgr.StateManager) :
  (6 <= List.length xk)%nat ->
  exists sm', simulator.apply_controls xk sm = Ok sm'.
Proof.
  intros Hlen. unfold simulator.apply_controls.
  destruct xk as [|x0 [|x1 [|x2 [|x3 [|x4 [|x5 rest]]]]]];
    simpl in Hlen; try lia.
  eexists. reflexivity.
Qed.

(** X11: [trim_error] first reads the six entries of the trial point, then
    the target airspeed that [trim] stores.  A trial point with fewer than
    six entries raises [IndexError], whether or not a target is stored; a
    trial point with six entries on a simulator on which [trim] was never
    called raises [AttributeError].  A successful call returns six
    residuals, the first of which never exceeds the target (the predicted
    airspeed is floored at zero); it prints the predicted state and the
    residuals, replaces the state manager, and leaves the model, the time,
    the attitude and the trajectory of the simulator as they are. *)
Theorem trim_error_reads_point_then_target
    (xk : list R) (s : simulator.Simulator) (out : list simulator.Printed) :
  ((List.length xk < 6)%nat ->
   simulator.trim_error xk (s, out) = Raise IndexError)
  /\ ((6 <= List.length xk)%nat ->
      simulator.trim_airspeed_mps s = None ->
      simulator.trim_error xk (s, out) = Raise AttributeError)
  /\ (forall errors s' out',
        simulator.trim_error xk (s, out) = Ok (errors, (s', out')) ->
        exists target result e1 e2 e3 e4 e5 e6,
          simulator.trim_airspeed_mps s = Some target
          /\ (6 <= List.length xk)%nat
          /\ errors = [e1; e2; e3; e4; e5; e6]
          /\ e1 <= target
          /\ out' = (out ++ [simulator.PrintDict result;
                             simulator.PrintList errors])%list
          /\ s' = simulator.set_state_mgr (simulator.state_mgr s') s
          /\ simulator.A s' = simulator.A s
          /\ simulator.params s' = simulator.params s
          /\ simulator.time s' = simulator.time s
          /\ simulator.ned2body s' = simulator.ned2body s
          /\ simulator.pos_ned s' = simulator.pos_ned s
          /\ simulator.data s' = simulator.data s).
Proof.
  split; [|split].
  - intros Hlen. unfold simulator.trim_error.
    now rewrite (apply_controls_short xk _ Hlen).
  - intros Hlen Hnone. unfold simulator.trim_error.
    destruct (apply_controls_long xk (simulator.state_mgr s) Hlen) as (sm & ->).
    rewrite bind_Ok. cbv beta. rewrite Hnone. reflexivity.
  - intros errors s' out' Hok. unfold simulator.trim_error in Hok.
    bind_inv Hok as sm Esm. bind_inv Hok as target Et. bind_inv Hok as ps Eps.
    bind_inv Hok as state Est. bind_inv Hok as a Ea. bind_inv Hok as next En.
    bind_inv Hok as current Ec. bind_inv Hok as result Er.
    bind_inv Hok as errs Ee. inversion Hok; subst; clear Hok.
    unfold simulator.trim_residuals in Ee.
    bind_inv Ee as asi Ea1. bind_inv Ee as thrust Eth. bind_inv Ee as drag Ed.
    bind_inv Ee as bay Eb. bind_inv Ee as p_ Ep. bind_inv Ee as q_ Eq.
    bind_inv Ee as r_ Err. inversion Ee; subst; clear Ee.
    destruct (simulator.trim_airspeed_mps s) as [t0|] eqn:Ht; [|discriminate].
    inversion Et; subst t0.
    assert (Hlen : (6 <= List.length xk)%nat).
    { destruct (Nat.le_gt_cases 6 (List.length xk)) as [Hle|Hlt]; [exact Hle|].
      rewrite (apply_controls_short xk _ Hlt) in Esm. discriminate. }
    exists target, result. do 6 eexists.
    split; [reflexivity|]. split; [exact Hlen|]. split; [reflexivity|].
    split. { destruct (Rlt_dec asi 0); lra. }
    split; [reflexivity|].
    repeat split.
Qed.

End TrimReport.

(** ** build_full_model.py: the dt-estimation pass *)

Section DtEstimation.
Import build_full_model.

Lemma dt_step_imu (last_time : option R) (acc : list R) (rec : LogRecord) :
  dt_step (last_time, acc) rec =
  match imu rec with
  | Some pt =>
      (Some (imu_time pt),
       (acc ++ [imu_time pt - match last_time with
                              | None => imu_time pt
                              | Some t => t
                              end])%list)
  | None => (last_time, acc)
  end.
Proof.
  unfold dt_step, record_len.
  destruct (imu rec); simpl; [reflexivity|].
  destruct (Nat.eqb _ 0); reflexivity.
Qed.

Lemma fold_left_step {X Y : Type} (f : X -> Y -> X) (y : Y) (l : list Y) (a : X) :
  fold_left f (y :: l) a = fold_left f l (f a y).
Proof. reflexivity. Qed.

Lemma last_nonempty {X : Type} (l : list X) :
  forall a d d', last (a :: l) d = last (a :: l) d'.
Proof.
  induction l as [|b l IH]; intros a d d'; [reflexivity|].
  change (last (b :: l) d = last (b :: l) d'). apply IH.
Qed.

Lemma dt_fold_from (log : list LogRecord) :
  forall (t : R) (acc : list R),
    fold_left dt_step log (Some t, acc) =
    (Some (last (imu_times log) t), (acc ++ steps t (imu_times log))%list).
Proof.
  induction log as [|rec log IH]; intros t acc.
  - simpl. now rewrite app_nil_r.
  - rewrite fold_left_step, dt_step_imu. unfold imu_times. simpl flat_map.
    fold (imu_times log).
    destruct (imu rec) as [pt|] eqn:Hi.
    + rewrite IH. rewrite <- app_assoc. simpl.
      f_equal. f_equal. destruct (imu_times log); [reflexivity|].
      apply last_nonempty.
    + simpl. apply IH.
Qed.

Lemma dt_estimation_steps (log : list LogRecord) :
  dt_estimation log = steps_from_first (imu_times log).
Proof.
  unfold dt_estimation.
  induction log as [|rec log IH]; [reflexivity|].
  rewrite fold_left_step, dt_step_imu. unfold imu_times. simpl flat_map.
  fold (imu_times log).
  destruct (imu rec) as [pt|] eqn:Hi.
  - rewrite dt_fold_from. reflexivity.
  - simpl. exact IH.
Qed.

Lemma steps_length (ts : list R) : forall t, List.length (steps t ts) = List.length ts.
Proof. induction ts as [|u ts IH]; intros t; simpl; [reflexivity|now rewrite IH]. Qed.

Lemma steps_total (ts : list R) : forall t, total (steps t ts) = last ts t - t.
Proof.
  induction ts as [|u ts IH]; intros t; simpl.
  - lra.
  - unfold total in *. rewrite IH.
    destruct ts as [|w ts]; [simpl; lra|].
    rewrite (last_nonempty ts w u t). lra.
Qed.

(** X12: the dt data of the first pass has one entry per record that
    carries an [imu] group: the first entry is zero (the first stamp is
    compared with itself) and every later entry is the stamp minus the
    stamp of the imu record before it.  The entries add up to the last
    stamp minus the first. *)
Theorem dt_data_are_successive_differences (log : list build_full_model.LogRecord) :
  build_full_model.dt_estimation log = steps_from_first (imu_times log)
  /\ List.length (build_full_model.dt_estimation log) = List.length (imu_times log)
  /\ (forall t0 rest,
        imu_times log = (t0 :: rest)%list ->
        build_full_model.dt_estimation log = (0 :: steps t0 rest)%list
        /\ total (build_full_model.dt_estimation log) = last rest t0 - t0).
Proof.
  rewrite dt_estimation_steps. split; [reflexivity|]. split.
  - unfold steps_from_first. destruct (imu_times log) as [|t0 rest]; [reflexivity|].
    apply steps_length.
  - intros t0 rest ->. unfold steps_from_first. split.
    + simpl. f_equal. lra.
    + rewrite steps_total. destruct rest as [|w rest]; reflexivity.
Qed.

End DtEstimation.

(** ** build_full_model.py: the training pass *)

Section TrainingPass.
Import build_full_model.
Context `{state_mgr.Collaborators}.
Variable is_flying : state_mgr.StateManager -> bool.

Lemma on_imu_names (nav : option NavPt) (rec : LogRecord)
    (sm sm' : state_mgr.StateManager) :
  on_imu nav rec sm = Ok sm' -> same_names sm' sm.
Proof.
  unfold on_imu. destruct (imu rec) as [pt|]; intros Hok.
  - bind_inv Hok as pqr E. destruct pqr as [[p_ q_] r_].
    inversion Hok; subst. split; reflexivity.
  - inversion Hok; subst. split; reflexivity.
Qed.

Lemma on_act_names (rec : LogRecord) (sm : state_mgr.StateManager) :
  same_names (on_act rec sm) sm.
Proof. unfold on_act. destruct (act rec); split; reflexivity. Qed.

Lemma on_air_names (rec : LogRecord) (w w' : option Vec3)
    (sm sm' : state_mgr.StateManager) :
  on_air rec w sm = Ok (sm', w') -> same_names sm' sm.
Proof.
  unfold on_air. destruct (air rec) as [pt|]; intros Hok.
  - destruct (wind_dir pt).
    + bind_inv Hok as v E. inversion Hok; subst. split; reflexivity.
    + inversion Hok; subst. split; reflexivity.
  - inversion Hok; subst. split; reflexivity.
Qed.

Lemma on_filter_names (rec : LogRecord) (nav nav' : option NavPt)
    (w : option Vec3) (sm sm' : state_mgr.StateManager) :
  on_filter rec nav w sm = Ok (sm', nav') -> same_names sm' sm.
Proof.
  unfold on_filter. destruct (filter rec) as [pt|]; intros Hok.
  - destruct w as [[[wn we] wd]|]; [|discriminate].
    inversion Hok; subst. split; reflexivity.
  - inversion Hok; subst. split; reflexivity.
Qed.

Lemma ingest_names (st : Pass) (rec : LogRecord) (sm : state_mgr.StateManager)
    (nav : option NavPt) (w : option Vec3) :
  ingest st rec = Ok (sm, nav, w) -> same_names sm (mgr st).
Proof.
  unfold ingest. intros Hok.
  bind_inv Hok as sm1 E1. bind_inv Hok as r2 E2. destruct r2 as [sm2 w2].
  bind_inv Hok as r3 E3. destruct r3 as [sm3 nav3].
  inversion Hok; subst; clear Hok.
  destruct (on_imu_names _ _ _ _ E1) as (A1 & B1).
  destruct (on_act_names rec sm1) as (A2 & B2).
  destruct (on_air_names _ _ _ _ _ E2) as (A3 & B3).
  destruct (on_filter_names _ _ _ _ _ _ E3) as (A4 & B4).
  split; congruence.
Qed.

Lemma body_frame_values_names (b : bool) (sm : state_mgr.StateManager) :
  same_names (state_mgr.compute_body_frame_values b sm) sm.
Proof.
  unfold state_mgr.compute_body_frame_values.
  destruct b.
  - destruct (state_mgr.ned2body_velocity sm) as [[bx by'] bz]. simpl.
    split; reflexivity.
  - destruct (state_mgr.v_body sm) as [[bx by'] bz]. simpl. split; reflexivity.
Qed.

Lemma gen_entries_total (sm : state_mgr.StateManager)
    (params : option (list Param)) (fields : list string) :
  (forall f, In f fields -> exists v, dict_get (state_mgr.state_table sm) f = Ok v) ->
  forall i, exists v, state_mgr.gen_entries sm params fields i = Ok v
                      /\ List.length v = List.length fields.
Proof.
  induction fields as [|f rest IH]; intros Hknown i; simpl.
  - exists []. auto.
  - destruct (Hknown f (or_introl eq_refl)) as (x & ->).
    destruct (IH (fun f' Hf => Hknown f' (or_intror Hf)) (S i)) as (t & -> & Hlen).
    simpl. eexists. split; [reflexivity|]. simpl. now rewrite Hlen.
Qed.

Lemma script_names_known (sm : state_mgr.StateManager) (f : string) :
  In f (independent_states ++ dependent_states)%list ->
  exists v, dict_get (state_mgr.state_table sm) f = Ok v.
Proof.
  unfold state_mgr.state_table.
  destruct (state_mgr.gyros sm) as [[p_ q_] r_].
  destruct (state_mgr.accels sm) as [[ax_ ay_] az_].
  destruct (state_mgr.v_body sm) as [[bx by'] bz].
  destruct (state_mgr.g_body (state_mgr.terms sm)) as [[gx gy] gz].
  destruct (state_mgr.a_body (state_mgr.terms sm)) as [[bax bay] baz].
  intros Hin. simpl in Hin.
  repeat (destruct Hin as [<- | Hin]; [eexists; reflexivity|]).
  contradiction.
Qed.

(** With the state names of the script every name has a value: the state
    vector is always produced, and has nineteen entries. *)
Lemma script_state_vector (sm : state_mgr.StateManager) :
  state_mgr.ind_states sm = independent_states ->
  state_mgr.dep_states sm = dependent_states ->
  exists v, state_mgr.gen_state_vector sm None = Ok v
            /\ List.length v = 19%nat.
Proof.
  intros Hi Hd. unfold state_mgr.gen_state_vector, state_mgr.state_list.
  rewrite Hi, Hd.
  destruct (gen_entries_total sm None (independent_states ++ dependent_states)
              (script_names_known sm) 0) as (v & Hv & Hlen).
  exists v. split; [exact Hv|]. rewrite Hlen. reflexivity.
Qed.

Lemma ingest_empty (st : Pass) (rec : LogRecord) :
  record_len rec = 0%nat ->
  ingest st rec = Ok (mgr st, navpt st, wind_components st).
Proof.
  unfold record_len, ingest, on_imu, on_act, on_air, on_filter, present.
  destruct (imu rec), (act rec), (air rec), (filter rec), (gps rec);
    simpl; intros Hlen; try discriminate.
  reflexivity.
Qed.

Lemma train_step_follows_ingest (st : Pass) (rec : LogRecord) :
  named st ->
  (exists e, ingest st rec = Raise e /\ train_step is_flying st rec = Raise e)
  \/ (exists sm nav w st',
        ingest st rec = Ok (sm, nav, w)
        /\ train_step is_flying st rec = Ok st'
        /\ navpt st' = nav
        /\ wind_components st' = w
        /\ named st'
        /\ ((traindata st' = traindata st /\ coeff st' = coeff st)
            \/ exists v c,
                 traindata st' = (traindata st ++ [v])%list
                 /\ coeff st' = (coeff st ++ [c])%list
                 /\ List.length v = 19%nat /\ List.length c = 3%nat)).
Proof.
  intros (Hi & Hd).
  unfold train_step.
  destruct (Nat.eqb (record_len rec) 0) eqn:Hrec.
  - apply Nat.eqb_eq in Hrec. right.
    exists (mgr st), (navpt st), (wind_components st), st.
    split; [now apply ingest_empty|]. split; [reflexivity|].
    unfold named. auto 10.
  - destruct (ingest st rec) as [[[sm nav] w]|e] eqn:Hing.
    2:{ left. exists e. auto. }
    right. destruct (ingest_names _ _ _ _ _ Hing) as (Ni & Nd).
    rewrite bind_Ok. cbv beta iota zeta.
    destruct (is_flying sm).
    + destruct (body_frame_values_names true sm) as (Bi & Bd).
      destruct (script_state_vector (state_mgr.compute_body_frame_values true sm))
        as (v & Hv & Hv19); [congruence | congruence |].
      rewrite Hv, bind_Ok. cbv beta.
      eexists sm, nav, w, _. split; [reflexivity|]. split; [reflexivity|].
      simpl. split; [reflexivity|]. split; [reflexivity|].
      split; [unfold named; simpl; split; congruence|].
      right. eexists. eexists. split; [reflexivity|]. split; [reflexivity|].
      split; [exact Hv19 | reflexivity].
    + eexists sm, nav, w, _. split; [reflexivity|]. split; [reflexivity|].
      simpl. split; [reflexivity|]. split; [reflexivity|].
      split; [unfold named; simpl; split; congruence|].
      left. auto.
Qed.

Lemma start_named (imu_dt : R) : named (start imu_dt).
Proof. unfold named, start. simpl. auto. Qed.

Lemma start_well_shaped (imu_dt : R) : well_shaped (start imu_dt).
Proof. unfold well_shaped, start. simpl. repeat split; constructor. Qed.

Lemma ingest_errors (st : Pass) (rec : LogRecord) (e : exn) :
  ingest st rec = Raise e -> pass_error e.
Proof.
  unfold ingest, pass_error. intros Hr.
  destruct (on_imu (navpt st) rec (mgr st)) as [sm1|e1] eqn:E1.
  - rewrite bind_Ok in Hr. cbv beta zeta in Hr.
    destruct (on_air rec (wind_components st) (on_act rec sm1)) as [[sm2 w2]|e2] eqn:E2.
    + rewrite bind_Ok in Hr. cbv beta iota zeta in Hr.
      destruct (on_filter rec (navpt st) w2 sm2) as [[sm3 nav3]|e3] eqn:E3.
      * rewrite bind_Ok in Hr. discriminate.
      * simpl in Hr. inversion Hr; subst e3.
        unfold on_filter in E3. destruct (filter rec); [|discriminate].
        destruct w2 as [[[wn we] wd]|]; [discriminate|].
        inversion E3. auto.
    + simpl in Hr. inversion Hr; subst e2.
      unfold on_air in E2. destruct (air rec) as [pt|]; [|discriminate].
      destruct (wind_dir pt); [|discriminate].
      destruct (wind_speed pt); simpl in E2; [discriminate|].
      inversion E2. auto 6.
  - simpl in Hr. inversion Hr; subst e1.
    unfold on_imu in E1. destruct (imu rec) as [pt|]; [|discriminate].
    destruct (navpt st) as [nav|]; [|discriminate].
    destruct (p_bias nav); [|discriminate].
    destruct (q_bias nav); simpl in E1.
    + destruct (r_bias nav); simpl in E1; [discriminate|].
      inversion E1. auto 6.
    + inversion E1. auto 6.
Qed.

Lemma train_from_outcomes (log : list LogRecord) :
  forall st,
    named st ->
    well_shaped st ->
    (exists st',
       train_from is_flying st log = Ok st'
       /\ named st'
       /\ well_shaped st'
       /\ (List.length (traindata st')
           <= List.length (traindata st) + List.length log)%nat)
    \/ (exists e, train_from is_flying st log = Raise e /\ pass_error e).
Proof.
  induction log as [|rec log IH]; intros st Hn Hst; simpl.
  - left. exists st. split; [reflexivity|]. split; [exact Hn|].
    split; [exact Hst|]. lia.
  - destruct (train_step_follows_ingest st rec Hn)
      as [(e & Hing & Hstep) | (sm & nav & w & st1 & Hing & Hstep & _ & _ & N1 & Hout)].
    + right. exists e. rewrite Hstep. split; [reflexivity|].
      exact (ingest_errors _ _ _ Hing).
    + rewrite Hstep, bind_Ok.
      assert (H1 : well_shaped st1
                   /\ (List.length (traindata st1) <= S (List.length (traindata st)))%nat).
      { destruct Hst as (Hlen & Ht & Hc). unfold well_shaped.
        destruct Hout as [(-> & ->) | (v & c & -> & -> & Hv & Hc3)].
        - auto.
        - rewrite !length_app. simpl.
          split; [|lia]. split; [lia|].
          split; apply Forall_app; split; auto. }
      destruct H1 as (H1 & Hle).
      destruct (IH st1 N1 H1) as [(st' & Hrun & Hn' & Hs' & Hl') | (e & Hrun & He)].
      * left. exists st'. split; [exact Hrun|]. split; [exact Hn'|].
        split; [exact Hs'|]. lia.
      * right. exists e. auto.
Qed.

(** X13: the training pass either returns or raises one of four
    exceptions: [NameError] (a [filter] group met while the wind components
    are unbound) or [KeyError] on "q_bias", "r_bias" or "wind_speed" (an
    optional key whose companion is present).  When it returns, the state
    names are still those of the script, the training set and the
    coefficient list have the same length, at most one entry per record,
    every training vector has nineteen entries and every coefficient row
    has three. *)
Theorem training_pass_outcomes (imu_dt : R) (log : list build_full_model.LogRecord) :
  (exists st,
     build_full_model.training_pass is_flying imu_dt log = Ok st
     /\ state_mgr.ind_states (build_full_model.mgr st) =
        build_full_model.independent_states
     /\ state_mgr.dep_states (build_full_model.mgr st) =
        build_full_model.dependent_states
     /\ List.length (build_full_model.traindata st) =
        List.length (build_full_model.coeff st)
     /\ (List.length (build_full_model.traindata st) <= List.length log)%nat
     /\ Forall (fun v => List.length v = 19%nat) (build_full_model.traindata st)
     /\ Forall (fun c => List.length c = 3%nat) (build_full_model.coeff st))
  \/ build_full_model.training_pass is_flying imu_dt log = Raise NameError
  \/ build_full_model.training_pass is_flying imu_dt log = Raise (KeyError "q_bias")
  \/ build_full_model.training_pass is_flying imu_dt log = Raise (KeyError "r_bias")
  \/ build_full_model.training_pass is_flying imu_dt log =
     Raise (KeyError "wind_speed").
Proof.
  unfold training_pass.
  destruct (train_from_outcomes log (start imu_dt) (start_named imu_dt)
              (start_well_shaped imu_dt))
    as [(st & Hrun & (Hi & Hd) & (Hlen & Ht & Hc) & Hle) | (e & Hrun & He)].
  - left. exists st. simpl in Hle. auto 10.
  - right. rewrite Hrun. destruct He as [-> | [-> | [-> | ->]]]; auto.
Qed.

(** *** The unbound wind components *)

Lemma ingest_unbound (st : Pass) (rec : LogRecord) :
  wind_components st = None ->
  navpt st = None ->
  match air rec, filter rec with
  | Some _, _ =>
      (exists sm nav w, ingest st rec = Ok (sm, nav, Some w))
      \/ ingest st rec = Raise (KeyError "wind_speed")
  | None, Some _ => ingest st rec = Raise NameError
  | None, None => exists sm, ingest st rec = Ok (sm, None, None)
  end.
Proof.
  intros Hw Hn. unfold ingest. rewrite Hw, Hn.
  assert (Himu : exists sm1, on_imu None rec (mgr st) = Ok sm1).
  { unfold on_imu. destruct (imu rec); eexists; reflexivity. }
  destruct Himu as (sm1 & ->). rewrite bind_Ok. cbv beta zeta.
  unfold on_air. destruct (air rec) as [pt|].
  - destruct (wind_dir pt).
    + destruct (wind_speed pt); simpl; [|now right].
      left. unfold on_filter. destruct (filter rec); simpl; do 3 eexists; reflexivity.
    + left. simpl. unfold on_filter. destruct (filter rec); simpl;
        do 3 eexists; reflexivity.
  - rewrite bind_Ok. cbv beta iota zeta. unfold on_filter.
    destruct (filter rec); simpl; [reflexivity|]. eexists. reflexivity.
Qed.

Lemma ingest_bound (st : Pass) (rec : LogRecord) (w0 : Vec3) :
  wind_components st = Some w0 ->
  (exists sm nav w, ingest st rec = Ok (sm, nav, Some w))
  \/ (exists k, ingest st rec = Raise (KeyError k)).
Proof.
  intros Hw. unfold ingest. rewrite Hw.
  destruct (on_imu (navpt st) rec (mgr st)) as [sm1|e1] eqn:E1.
  2:{ right. simpl.
      unfold on_imu in E1. destruct (imu rec) as [pt|]; [|discriminate].
      destruct (navpt st) as [nav|]; [|discriminate].
      destruct (p_bias nav); [|discriminate].
      destruct (q_bias nav); simpl in E1.
      - destruct (r_bias nav); simpl in E1; [discriminate|].
        inversion E1. eexists. reflexivity.
      - inversion E1. eexists. reflexivity. }
  rewrite bind_Ok. cbv beta zeta.
  unfold on_air. destruct (air rec) as [pt|].
  - destruct (wind_dir pt).
    + destruct (wind_speed pt); simpl; [|right; eexists; reflexivity].
      left. unfold on_filter. destruct (filter rec); simpl; do 3 eexists; reflexivity.
    + left. simpl. unfold on_filter. destruct (filter rec); simpl;
        do 3 eexists; reflexivity.
  - rewrite bind_Ok. cbv beta iota zeta. unfold on_filter.
    left. destruct w0 as [[wn we] wd].
    destruct (filter rec); simpl; do 3 eexists; reflexivity.
Qed.

Lemma train_from_bound (log : list LogRecord) :
  forall st w0,
    named st ->
    wind_components st = Some w0 ->
    (exists st', train_from is_flying st log = Ok st')
    \/ (exists k, train_from is_flying st log = Raise (KeyError k)).
Proof.
  induction log as [|rec log IH]; intros st w0 Hst Hw; simpl.
  - left. eexists. reflexivity.
  - destruct (train_step_follows_ingest st rec Hst)
      as [(e & Hing & Hstep) | (sm & nav & w & st1 & Hing & Hstep & _ & Hw1 & H1 & _)].
    + right. rewrite Hstep. simpl.
      destruct (ingest_bound st rec w0 Hw) as [(sm & nav & w & Hok) | (k & Hk)];
        [congruence|].
      exists k. congruence.
    + rewrite Hstep, bind_Ok.
      destruct (ingest_bound st rec w0 Hw) as [(sm' & nav' & w' & Hok) | (k & Hk)];
        [|congruence].
      assert (Hw' : w = Some w') by congruence. rewrite Hw' in Hw1.
      exact (IH st1 w' H1 Hw1).
Qed.

Lemma train_from_unbound (log : list LogRecord) :
  forall st,
    named st ->
    wind_components st = None ->
    navpt st = None ->
    train_from is_flying st log = Raise NameError <-> filter_before_air log = true.
Proof.
  induction log as [|rec log IH]; intros st Hst Hw Hn; simpl.
  - split; discriminate.
  - pose proof (ingest_unbound st rec Hw Hn) as Hcase.
    destruct (train_step_follows_ingest st rec Hst)
      as [(e & Hing & Hstep) | (sm & nav & w & st1 & Hing & Hstep & Hn1 & Hw1 & H1 & _)].
    + rewrite Hstep. simpl.
      destruct (air rec) as [apt|]; [|destruct (filter rec) as [fpt|]].
      * destruct Hcase as [(sm & nav & w & Hok) | Hk]; [congruence|].
        assert (e = KeyError "wind_speed") by congruence. subst e.
        split; discriminate.
      * assert (e = NameError) by congruence. subst e. split; reflexivity.
      * destruct Hcase as (sm & Hok). congruence.
    + rewrite Hstep, bind_Ok.
      destruct (air rec) as [apt|]; [|destruct (filter rec) as [fpt|]].
      * destruct Hcase as [(sm' & nav' & w' & Hok) | Hk]; [|congruence].
        assert (Hw' : w = Some w') by congruence. rewrite Hw' in Hw1.
        destruct (train_from_bound log st1 w' H1 Hw1) as [(st' & ->) | (k & ->)];
          split; discriminate.
      * congruence.
      * destruct Hcase as (sm' & Hok).
        assert (Hnw : nav = None /\ w = None) by (split; congruence).
        destruct Hnw as (Hn' & Hw'). rewrite Hn' in Hn1. rewrite Hw' in Hw1.
        exact (IH st1 H1 Hw1 Hn1).
Qed.

(** X14: the wind components are bound by the first [air] group.  The
    training pass raises [NameError] exactly when the first record that
    has an [air] or a [filter] group has a [filter] group and no [air]
    group: [set_ned_velocity] then reads [wn], [we], [wd] before any
    assignment.  From a point of the pass at which the wind components are
    bound, the rest of the log never raises [NameError]. *)
Theorem name_error_iff_filter_before_air
    (imu_dt : R) (log : list build_full_model.LogRecord) :
  (build_full_model.training_pass is_flying imu_dt log = Raise NameError
   <-> filter_before_air log = true)
  /\ (forall st w0 rest,
        state_mgr.ind_states (build_full_model.mgr st) =
          build_full_model.independent_states ->
        state_mgr.dep_states (build_full_model.mgr st) =
          build_full_model.dependent_states ->
        build_full_model.wind_components st = Some w0 ->
        (exists st', build_full_model.train_from is_flying st rest = Ok st')
        \/ (exists k,
              build_full_model.train_from is_flying st rest = Raise (KeyError k))).
Proof.
  split.
  - unfold training_pass.
    apply train_from_unbound; [apply start_named | reflexivity | reflexivity].
  - intros st w0 rest Hi Hd Hw.
    apply (train_from_bound rest st w0); [split; assumption | exact Hw].
Qed.

(** *** The channels of one record *)

Lemma quarter_turn_minus (x : R) :
  cos (1 / 2 * PI - x) = sin x /\ sin (1 / 2 * PI - x) = cos x.
Proof.
  replace (1 / 2 * PI - x) with (PI / 2 - x) by lra.
  split; [apply cos_shift | apply sin_shift].
Qed.

(** X15: an [air] group hands the logged airspeed in knots times
    [kt2mps], times the pitot scale when the group has one, to
    [set_airdata], which stores it; the gyros and the orientation stay as
    they are.  It binds the wind components: zero without a wind
    direction; with a direction [d]
    (degrees) and a speed [v] (knots) the north component is
    [cos(d) * v * kt2mps] and the east component [sin(d) * v * kt2mps], so
    the vector has length [v * kt2mps] and no vertical part.  A direction
    without a speed raises [KeyError]. *)
Theorem air_group_sets_airspeed_and_wind
    (rec : build_full_model.LogRecord) (airpt : build_full_model.AirPt)
    (w : option Vec3) (sm : state_mgr.StateManager) :
  build_full_model.air rec = Some airpt ->
  let asi := build_full_model.air_airspeed airpt * constants.kt2mps
             * match build_full_model.pitot_scale airpt with
               | Some k => k
               | None => 1
               end in
  (forall sm' w',
      build_full_model.on_air rec w sm = Ok (sm', w') ->
      sm' = state_mgr.set_airdata asi sm
      /\ state_mgr.airspeed_mps sm' = asi
      /\ state_mgr.gyros sm' = state_mgr.gyros sm
      /\ state_mgr.euler sm' = state_mgr.euler sm
      /\ exists wn we, w' = Some (wn, we, 0))
  /\ (build_full_model.wind_dir airpt = None ->
      exists sm', build_full_model.on_air rec w sm = Ok (sm', Some (0, 0, 0)))
  /\ (forall d v,
        build_full_model.wind_dir airpt = Some d ->
        build_full_model.wind_speed airpt = Some v ->
        exists sm' wn we,
          build_full_model.on_air rec w sm = Ok (sm', Some (wn, we, 0))
          /\ wn = cos (d * constants.d2r) * (v * constants.kt2mps)
          /\ we = sin (d * constants.d2r) * (v * constants.kt2mps)
          /\ wn * wn + we * we = (v * constants.kt2mps) * (v * constants.kt2mps))
  /\ (forall d,
        build_full_model.wind_dir airpt = Some d ->
        build_full_model.wind_speed airpt = None ->
        build_full_model.on_air rec w sm = Raise (KeyError "wind_speed")).
Proof.
  intros Hair asi. unfold on_air. rewrite Hair.
  assert (Hasi : match pitot_scale airpt with
                 | Some k => air_airspeed airpt * constants.kt2mps * k
                 | None => air_airspeed airpt * constants.kt2mps
                 end = asi).
  { unfold asi. destruct (pitot_scale airpt); lra. }
  rewrite Hasi. clearbody asi. clear Hasi.
  split; [|split; [|split]].
  - intros sm' w' Hok.
    destruct (wind_dir airpt) as [d|].
    + bind_inv Hok as v Ev. inversion Hok; subst; clear Hok. simpl.
      repeat split; eauto.
    + inversion Hok; subst; clear Hok. simpl. repeat split; eauto.
  - intros ->. eexists. reflexivity.
  - intros d v -> ->. rewrite bind_Ok. cbv beta zeta.
    destruct (quarter_turn_minus (d * constants.d2r)) as (Hc & Hs).
    do 3 eexists. split; [reflexivity|].
    rewrite Hc, Hs. split; [reflexivity|]. split; [reflexivity|].
    pose proof (sin2_cos2 (d * constants.d2r)) as Hsc. unfold Rsqr in Hsc.
    set (c := cos (d * constants.d2r)) in *. set (sn := sin (d * constants.d2r)) in *.
    set (m := v * constants.kt2mps).
    replace (c * m * (c * m) + sn * m * (sn * m))
      with ((sn * sn + c * c) * (m * m)) by ring.
    rewrite Hsc. ring.
  - intros d -> ->. reflexivity.
Qed.

(** X16: the gyro rates of an [imu] group are corrected with the bias of
    the [filter] group of an earlier record, never with the one of the
    record at hand: the rates are written before the record's own [filter]
    group is read.  Without an earlier [filter] group, or with one that has
    no "p_bias", the rates are stored as logged.  The record's own
    [filter] group becomes the one the next record is corrected with. *)
Theorem gyro_bias_comes_from_earlier_filter
    (st : build_full_model.Pass) (rec : build_full_model.LogRecord)
    (pt : build_full_model.ImuPt) (sm : state_mgr.StateManager)
    (nav : option build_full_model.NavPt) (w : option Vec3) :
  build_full_model.imu rec = Some pt ->
  build_full_model.ingest st rec = Ok (sm, nav, w) ->
  let raw := (build_full_model.imu_p pt, build_full_model.imu_q pt,
              build_full_model.imu_r pt) in
  state_mgr.time sm = build_full_model.imu_time pt
  /\ (build_full_model.navpt st = None -> state_mgr.gyros sm = raw)
  /\ (forall old,
        build_full_model.navpt st = Some old ->
        build_full_model.p_bias old = None ->
        state_mgr.gyros sm = raw)
  /\ (forall old pb,
        build_full_model.navpt st = Some old ->
        build_full_model.p_bias old = Some pb ->
        exists qb rb,
          build_full_model.q_bias old = Some qb
          /\ build_full_model.r_bias old = Some rb
          /\ state_mgr.gyros sm =
             (build_full_model.imu_p pt - pb, build_full_model.imu_q pt - qb,
              build_full_model.imu_r pt - rb))
  /\ (forall new, build_full_model.filter rec = Some new -> nav = Some new)
  /\ (build_full_model.filter rec = None -> nav = build_full_model.navpt st).
Proof.
  intros Himu Hing raw. unfold ingest in Hing.
  bind_inv Hing as sm1 E1. bind_inv Hing as r2 E2. destruct r2 as [sm2 w2].
  bind_inv Hing as r3 E3. destruct r3 as [sm3 nav3].
  inversion Hing; subst sm3 nav3 w2; clear Hing.
  assert (Hkeep : state_mgr.gyros sm = state_mgr.gyros sm1
                  /\ state_mgr.time sm = state_mgr.time sm1).
  { assert (H2 : state_mgr.gyros sm2 = state_mgr.gyros sm1
                 /\ state_mgr.time sm2 = state_mgr.time sm1).
    { unfold on_air, on_act in E2.
      destruct (air rec) as [apt|].
      - destruct (wind_dir apt).
        + bind_inv E2 as v Ev. inversion E2; subst; clear E2.
          destruct (act rec); simpl; auto.
        + inversion E2; subst; clear E2. destruct (act rec); simpl; auto.
      - inversion E2; subst; clear E2. destruct (act rec); simpl; auto. }
    unfold on_filter in E3. destruct (filter rec) as [fpt|].
    - destruct w as [[[wn we] wd]|]; [|discriminate].
      inversion E3; subst; clear E3. simpl. exact H2.
    - inversion E3; subst; clear E3. exact H2. }
  destruct Hkeep as (Hg & Ht). rewrite Hg, Ht.
  assert (Hnav : (forall new, filter rec = Some new -> nav = Some new)
                 /\ (filter rec = None -> nav = navpt st)).
  { unfold on_filter in E3. destruct (filter rec) as [fpt|].
    - destruct w as [[[wn we] wd]|]; [|discriminate].
      inversion E3; subst; clear E3. split; [congruence|discriminate].
    - inversion E3; subst; clear E3. split; [discriminate|reflexivity]. }
  unfold on_imu in E1. rewrite Himu in E1.
  bind_inv E1 as pqr Epqr. destruct pqr as [[p_ q_] r_].
  inversion E1; subst sm1; clear E1. simpl.
  split; [reflexivity|].
  split; [|split; [|split]].
  - intros Hnone. rewrite Hnone in Epqr. inversion Epqr. reflexivity.
  - intros old Hold Hp. rewrite Hold, Hp in Epqr. inversion Epqr. reflexivity.
  - intros old pb Hold Hp. rewrite Hold, Hp in Epqr.
    destruct (q_bias old) as [qb|]; [|discriminate].
    destruct (r_bias old) as [rb|]; [|discriminate].
    simpl in Epqr. inversion Epqr. eauto.
  - exact Hnav.
Qed.

End TrainingPass.

(** ** plot *)

Section Plot.
Import simulator_plot.
Context `{state_mgr.Collaborators}.

Lemma np_array_uniform (w : nat) (data : list (list R)) :
  uniform w data -> np_array data = Ok data.
Proof.
  unfold np_array, uniform. intros Hu. destruct data as [|first rest]; [reflexivity|].
  assert (Hall : forallb (fun row => Nat.eqb (List.length row) (List.length first))
                   (first :: rest) = true).
  { apply forallb_forall. intros row Hin. apply Nat.eqb_eq.
    rewrite Forall_forall in Hu.
    rewrite (Hu row Hin), (Hu first (or_introl eq_refl)). reflexivity. }
  now rewrite Hall.
Qed.

Lemma column_uniform (w j : nat) (data : list (list R)) :
  uniform w data -> data <> [] -> (j < w)%nat -> column data j = Ok (col j data).
Proof.
  unfold column, uniform, col. intros Hu Hne Hj.
  destruct data as [|first rest]; [contradiction|].
  rewrite Forall_forall in Hu. rewrite (Hu first (or_introl eq_refl)).
  now rewrite (proj2 (Nat.ltb_lt j w) Hj).
Qed.

Lemma line_uniform (w j : nat) (scale : option R) (label_ : string)
    (data : list (list R)) :
  uniform w data -> data <> [] -> (0 < w)%nat -> (j < w)%nat ->
  line data j scale label_ =
  Ok (mkSeries label_ (col 0 data)
        (match scale with
         | Some k => map (fun v => v * k) (col j data)
         | None => col j data
         end)).
Proof.
  intros Hu Hne H0 Hj. unfold line.
  rewrite (column_uniform w 0 data Hu Hne H0), bind_Ok. cbv beta.
  rewrite (column_uniform w j data Hu Hne Hj), bind_Ok. reflexivity.
Qed.

Lemma plot_uniform (data : list (list R)) :
  uniform 20 data -> data <> [] ->
  exists f1 f2 f3 f4,
    plot data =
    Ok [ f1; f2; f3; f4; [mkSeries "Pos 'down' (m)" (col 0 data) (col 19 data)] ]
    /\ Forall (Forall (fun sr => List.length (xs sr) = List.length data
                                 /\ List.length (ys sr) = List.length data))
         [f1; f2; f3; f4].
Proof.
  intros Hu Hne. unfold plot.
  rewrite (np_array_uniform 20 data Hu), bind_Ok. cbv beta.
  rewrite !(line_uniform 20 _ _ _ data Hu Hne) by lia.
  repeat (rewrite bind_Ok; cbv beta).
  do 4 eexists. split; [reflexivity|].
  unfold col.
  repeat (constructor; simpl; rewrite ?length_map; auto).
Qed.

Lemma run_snoc (n : nat) :
  forall (s s' : simulator.Simulator) (g g' : Rng),
    simulator.run (S n) s g = Ok (s', g') ->
    exists s1 g1,
      simulator.run n s g = Ok (s1, g1)
      /\ simulator.update s1 g1 = Ok (s', g').
Proof.
  induction n as [|n IH]; intros s s' g g' Hrun.
  - exists s, g. split; [reflexivity|].
    simpl in Hrun. bind_inv Hrun as st E. destruct st as [s1 g1].
    inversion Hrun; subst. exact E.
  - change (simulator.run (S (S n)) s g)
      with (bind (simulator.update s g)
              (fun st => let '(s1, g1) := st in simulator.run (S n) s1 g1)) in Hrun.
    bind_inv Hrun as st E. destruct st as [s1 g1].
    destruct (IH s1 s' g1 g' Hrun) as (s2 & g2 & Hrun2 & Hup).
    exists s2, g2. split; [|exact Hup].
    change (simulator.run (S n) s g)
      with (bind (simulator.update s g)
              (fun st => let '(s1, g1) := st in simulator.run n s1 g1)).
    rewrite E, bind_Ok. exact Hrun2.
Qed.

Lemma run_rows (n : nat) :
  forall (s s' : simulator.Simulator) (g g' : Rng),
    uniform 20 (simulator.data s) ->
    simulator.run n s g = Ok (s', g') ->
    uniform 20 (simulator.data s').
Proof.
  induction n as [|n IH]; intros s s' g g' Hu Hrun.
  - simpl in Hrun. inversion Hrun; subst. exact Hu.
  - change (simulator.run (S n) s g)
      with (bind (simulator.update s g)
              (fun st => let '(s1, g1) := st in simulator.run n s1 g1)) in Hrun.
    bind_inv Hrun as st E. destruct st as [s1 g1].
    apply (IH s1 s' g1 g'); [|exact Hrun].
    apply update_inv in E. destruct E as (result & tr & _ & Hadv).
    destruct (advance_sample _ _ _ _ Hadv) as (dt_ & row & _ & _ & Hdata & Hrow & _).
    rewrite Hdata. apply Forall_app. split; [exact Hu|].
    constructor; [|constructor]. rewrite Hrow.
    destruct (simulator.pos_ned s1) as [[pn pe] pd].
    destruct (simulator.vel_ned s1) as [[vn ve] vd]. reflexivity.
Qed.

Lemma run_length (n : nat) :
  forall (s s' : simulator.Simulator) (g g' : Rng),
    simulator.run n s g = Ok (s', g') ->
    List.length (simulator.data s') = (List.length (simulator.data s) + n)%nat.
Proof.
  induction n as [|n IH]; intros s s' g g' Hrun.
  - simpl in Hrun. inversion Hrun; subst. lia.
  - change (simulator.run (S n) s g)
      with (bind (simulator.update s g)
              (fun st => let '(s1, g1) := st in simulator.run n s1 g1)) in Hrun.
    bind_inv Hrun as st E. destruct st as [s1 g1].
    rewrite (IH s1 s' g1 g' Hrun).
    apply update_inv in E. destruct E as (result & tr & _ & Hadv).
    destruct (advance_sample _ _ _ _ Hadv) as (dt_ & row & _ & _ & Hdata & _).
    rewrite Hdata, length_app. simpl. lia.
Qed.

(** X17: [plot] on the trajectory of a simulator that has made at least
    one update since [reset] never raises: it draws five figures whose
    lines have one point per sample.  The line labelled "Pos 'down' (m)"
    is column 19 of the samples, which holds the down velocity; the down
    position is column 16.  On the empty trajectory that [reset] leaves,
    [plot] raises [IndexError]. *)
Theorem plot_draws_down_velocity_as_position
    (n : nat) (s0 s' : simulator.Simulator) (g g' : Rng) :
  simulator.run (S n) (simulator.reset s0) g = Ok (s', g') ->
  (exists f1 f2 f3 f4 t series,
     simulator_plot.plot (simulator.data s') =
     Ok [ f1; f2; f3; f4; [simulator_plot.mkSeries "Pos 'down' (m)" t series] ]
     /\ Forall (Forall (fun sr =>
                  List.length (simulator_plot.xs sr) = S n
                  /\ List.length (simulator_plot.ys sr) = S n))
          [f1; f2; f3; f4]
     /\ t = col 0 (simulator.data s')
     /\ series = col 19 (simulator.data s')
     /\ List.length series = S n
     /\ last series 0 = down (simulator.vel_ned s')
     /\ last (col 16 (simulator.data s')) 0 = down (simulator.pos_ned s'))
  /\ simulator_plot.plot (simulator.data (simulator.reset s0)) = Raise IndexError.
Proof.
  intros Hrun.
  assert (Hd0 : simulator.data (simulator.reset s0) = [])
    by (rewrite (reset_normal_form s0); reflexivity).
  split; [|rewrite Hd0; reflexivity].
  assert (Hu : uniform 20 (simulator.data s')).
  { apply (run_rows (S n) (simulator.reset s0) s' g g'); [|exact Hrun].
    rewrite Hd0. constructor. }
  destruct (run_snoc n _ _ _ _ Hrun) as (s1 & g1 & Hrun1 & Hup).
  assert (Hlen : List.length (simulator.data s') = S n).
  { rewrite (run_length (S n) _ _ _ _ Hrun), Hd0. reflexivity. }
  assert (Hne : simulator.data s' <> []).
  { intros Hnil. rewrite Hnil in Hlen. discriminate. }
  destruct (plot_uniform _ Hu Hne) as (f1 & f2 & f3 & f4 & Hplot & Hpts).
  exists f1, f2, f3, f4, (col 0 (simulator.data s')), (col 19 (simulator.data s')).
  split; [exact Hplot|]. rewrite Hlen in Hpts. split; [exact Hpts|].
  split; [reflexivity|]. split; [reflexivity|].
  split; [unfold col; now rewrite length_map|].
  apply update_inv in Hup. destruct Hup as (result & tr & _ & Hadv).
  destruct (advance_sample _ _ _ _ Hadv) as (dt_ & row & _ & _ & Hdata & Hrow & _).
  rewrite Hdata. unfold col. rewrite !map_app. simpl. rewrite !last_last.
  rewrite Hrow. unfold down.
  destruct (simulator.pos_ned s') as [[pn pe] pd].
  destruct (simulator.vel_ned s') as [[vn ve] vd]. split; reflexivity.
Qed.

End Plot.

(** ** build_full_model.py: the report and the feed-forward estimate *)

Section FeedForward.
Import build_full_model_estimate.

Lemma set_nth_length (l : list R) : forall k x, List.length (set_nth l k x) = List.length l.
Proof.
  induction l as [|a l IH]; intros [|k] x; simpl; auto.
Qed.

Lemma set_nth_same (l : list R) :
  forall k x, (k < List.length l)%nat -> nth k (set_nth l k x) 0 = x.
Proof.
  induction l as [|a l IH]; intros [|k] x Hk; simpl in *; try lia; auto.
  apply IH. lia.
Qed.

Lemma set_nth_other (l : list R) :
  forall k j x, j <> k -> nth j (set_nth l k x) 0 = nth j l 0.
Proof.
  induction l as [|a l IH]; intros [|k] [|j] x Hjk; simpl; auto; try congruence.
Qed.

Lemma set_nth_app (done todo : list R) (t c : R) :
  set_nth (done ++ t :: todo) (List.length done) c = (done ++ c :: todo)%list.
Proof.
  induction done as [|d done IH]; simpl; [reflexivity|]. now rewrite IH.
Qed.

Lemma py_position_from_end (n i s : nat) :
  (i < s)%nat -> (s <= i + n)%nat ->
  py_position n (Z.of_nat i - Z.of_nat s) = Ok (i + n - s)%nat.
Proof.
  intros Hi Hs. unfold py_position.
  assert (Hneg : (Z.of_nat i - Z.of_nat s <? 0)%Z = true) by (apply Z.ltb_lt; lia).
  rewrite Hneg.
  assert (Hin : ((0 <=? Z.of_nat i - Z.of_nat s + Z.of_nat n)
                 && (Z.of_nat i - Z.of_nat s + Z.of_nat n <? Z.of_nat n))%Z = true).
  { apply andb_true_iff. split; [apply Z.leb_le | apply Z.ltb_lt]; lia. }
  rewrite Hin. f_equal. lia.
Qed.

Lemma py_position_plain (n j : nat) :
  (j < n)%nat -> py_position n (Z.of_nat j) = Ok j.
Proof.
  intros Hj. unfold py_position.
  assert (Hneg : (Z.of_nat j <? 0)%Z = false) by (apply Z.ltb_ge; lia).
  rewrite Hneg.
  assert (Hin : ((0 <=? Z.of_nat j) && (Z.of_nat j <? Z.of_nat n))%Z = true).
  { apply andb_true_iff. split; [apply Z.leb_le | apply Z.ltb_lt]; lia. }
  rewrite Hin. f_equal. lia.
Qed.

Lemma fed_length (idx : list nat) :
  forall est row, List.length (fed idx est row) = List.length row.
Proof.
  induction idx as [|i idx IH]; intros [|e est] row; simpl; auto.
  now rewrite IH, set_nth_length.
Qed.

Lemma index_middle (done todo : list R) (t : R) :
  index (done ++ t :: todo) (List.length done) = Ok t.
Proof.
  unfold index. rewrite nth_error_app2 by lia. now rewrite Nat.sub_diag.
Qed.

Lemma feed_spec (states : nat) (idx : list nat) :
  forall done todo v,
    List.length v = states ->
    Forall (fun i => (i < states)%nat) idx ->
    (List.length idx <= List.length todo)%nat ->
    feed states idx (List.length done) (done ++ todo) v = Ok (fed idx todo v).
Proof.
  induction idx as [|i idx IH]; intros done todo v Hv Hidx Hlen; simpl.
  - reflexivity.
  - destruct todo as [|t todo]; [simpl in Hlen; lia|].
    inversion Hidx as [|? ? Hi Hrest]; subst.
    rewrite index_middle, bind_Ok. cbv beta.
    unfold py_set. rewrite py_position_from_end by lia.
    rewrite bind_Ok. cbv beta. rewrite bind_Ok.
    replace (i + List.length v - List.length v)%nat with i by lia.
    replace (done ++ t :: todo)%list with ((done ++ [t]) ++ todo)%list
      by (rewrite <- app_assoc; reflexivity).
    replace (S (List.length done)) with (List.length (done ++ [t]))
      by (rewrite length_app; simpl; lia).
    apply IH; [now rewrite set_nth_length | exact Hrest | simpl in Hlen; lia].
Qed.

Lemma collect_spec (parameters : list Param) (states : nat) (p : list R)
    (idx : list nat) :
  forall done todo,
    Forall (fun i => (i < states <= i + List.length p)%nat
                     /\ (i < List.length parameters)%nat) idx ->
    List.length todo = List.length idx ->
    collect parameters states idx (List.length done) p (done ++ todo) =
    Ok (done ++ read_back parameters states idx p)%list.
Proof.
  induction idx as [|i idx IH]; intros done todo Hidx Hlen; simpl.
  - destruct todo; [reflexivity | discriminate].
  - destruct todo as [|t todo]; [discriminate|].
    inversion Hidx as [|? ? (Hi & Hp) Hrest]; subst.
    unfold py_index. rewrite py_position_from_end by lia.
    rewrite bind_Ok. cbv beta.
    assert (Hk : (i + List.length p - states < List.length p)%nat) by lia.
    unfold index at 1.
    destruct (nth_error p (i + List.length p - states)) as [e|] eqn:He.
    2:{ apply nth_error_None in He. lia. }
    rewrite (nth_error_nth _ _ 0 He).
    rewrite bind_Ok. cbv beta.
    unfold py_set.
    rewrite py_position_plain by (rewrite length_app; simpl; lia).
    rewrite bind_Ok. cbv beta. rewrite bind_Ok. cbv beta.
    unfold index.
    destruct (nth_error parameters i) as [prm|] eqn:Hprm.
    2:{ apply nth_error_None in Hprm. lia. }
    rewrite bind_Ok. cbv beta.
    rewrite set_nth_length.
    rewrite py_position_plain by (rewrite length_app; simpl; lia).
    rewrite bind_Ok. cbv beta. rewrite bind_Ok. cbv beta.
    rewrite !set_nth_app.
    replace (done ++ state_mgr.clamp (pmin prm) (pmax prm) e :: todo)%list
      with ((done ++ [state_mgr.clamp (pmin prm) (pmax prm) e]) ++ todo)%list
      by (rewrite <- app_assoc; reflexivity).
    replace (S (List.length done))
      with (List.length (done ++ [state_mgr.clamp (pmin prm) (pmax prm) e]))
      by (rewrite length_app; simpl; lia).
    rewrite (IH _ todo Hrest) by (simpl in Hlen; lia).
    rewrite <- app_assoc. reflexivity.
Qed.

Lemma matvec_product (A : list (list R)) (v : list R) :
  uniform (List.length v) A -> matvec A v = Ok (product A v).
Proof.
  unfold uniform, product. induction A as [|row A IH]; intros Hu; simpl.
  - reflexivity.
  - inversion Hu as [|? ? Hrow Hrest]; subst.
    rewrite Hrow, Nat.eqb_refl, (IH Hrest). reflexivity.
Qed.

Lemma py_last_row (v row : list R) (n : nat) :
  List.length row = n -> (0 < n)%nat -> py_last (v ++ row) n = row.
Proof.
  intros Hrow Hn. unfold py_last.
  destruct (Nat.eqb n 0) eqn:E; [apply Nat.eqb_eq in E; lia|].
  rewrite length_app, Hrow.
  replace (List.length v + n - n)%nat with (List.length v + 0)%nat by lia.
  rewrite skipn_app, Nat.add_0_r, skipn_all.
  replace (List.length v - List.length v)%nat with 0%nat by lia. reflexivity.
Qed.

Section Loop.
Variable A : list (list R).
Variable parameters : list Param.
Variable idx : list nat.
Variable n : nat.

Hypothesis n_pos : (0 < n)%nat.
Hypothesis A_width : uniform n A.
Hypothesis idx_fit :
  Forall (fun i => (i < n <= i + List.length A)%nat
                   /\ (i < List.length parameters)%nat) idx.

Lemma estimate_step_spec (v est : list R) (pred : list (list R)) (row : list R) :
  List.length row = n ->
  List.length est = List.length idx ->
  estimate_step A parameters idx n (v, est, pred) row =
  Ok (fed idx est row,
      read_back parameters n idx (product A (fed idx est row)),
      (pred ++ [product A (fed idx est row)])%list).
Proof.
  intros Hrow Hest. unfold estimate_step.
  rewrite (py_last_row v row n Hrow n_pos).
  assert (Hlt : Forall (fun i => (i < n)%nat) idx).
  { eapply Forall_impl; [|exact idx_fit]. simpl. intros i ((Hi & _) & _). exact Hi. }
  assert (Hfeed : feed n idx 0 est row = Ok (fed idx est row)).
  { apply (feed_spec n idx [] est row Hrow Hlt). lia. }
  rewrite Hfeed, bind_Ok. cbv beta.
  rewrite fed_length, Hrow, Nat.eqb_refl.
  rewrite matvec_product by (rewrite fed_length, Hrow; exact A_width).
  rewrite bind_Ok. cbv beta.
  assert (Hcollect :
            collect parameters n idx 0 (product A (fed idx est row)) est =
            Ok (read_back parameters n idx (product A (fed idx est row)))).
  { apply (collect_spec parameters n _ idx [] est); [|exact Hest].
    unfold product. rewrite length_map. exact idx_fit. }
  rewrite Hcollect, bind_Ok. reflexivity.
Qed.

Lemma read_back_length (p : list R) :
  List.length (read_back parameters n idx p) = List.length idx.
Proof. unfold read_back. apply length_map. Qed.

Lemma estimate_from_spec (traindata : list (list R)) :
  forall v est pred,
    uniform n traindata ->
    List.length est = List.length idx ->
    exists v' est',
      estimate_from A parameters idx n (v, est, pred) traindata =
      Ok (v', est', (pred ++ forward A parameters n idx est traindata)%list).
Proof.
  induction traindata as [|row rest IH]; intros v est pred Hu Hest;
    cbn [estimate_from forward].
  - exists v, est. now rewrite app_nil_r.
  - pose proof (Forall_inv Hu) as Hrow. pose proof (Forall_inv_tail Hu) as Hrest.
    simpl in Hrow.
    rewrite (estimate_step_spec v est pred row Hrow Hest), bind_Ok.
    destruct (IH (fed idx est row)
                (read_back parameters n idx
                   (product A (fed idx est row)))
                (pred ++ [product A (fed idx est row)])%list Hrest
                (read_back_length _)) as (v' & est' & Hrun).
    exists v', est'. rewrite Hrun. rewrite <- app_assoc. reflexivity.
Qed.

Lemma forward_shape (traindata : list (list R)) :
  forall est,
    List.length (forward A parameters n idx est traindata) = List.length traindata
    /\ uniform (List.length A) (forward A parameters n idx est traindata).
Proof.
  induction traindata as [|row rest IH]; intros est; simpl.
  - split; [reflexivity | constructor].
  - destruct (IH (read_back parameters n idx (product A (fed idx est row))))
      as (Hlen & Hu).
    split; [now rewrite Hlen|].
    constructor; [|exact Hu]. unfold product. apply length_map.
Qed.

End Loop.

Lemma fed_agree (idx : list nat) :
  forall est a b,
    (List.length idx <= List.length est)%nat ->
    agree_outside idx a b ->
    fed idx est a = fed idx est b.
Proof.
  induction idx as [|i idx IH]; intros est a b Hlen (Hl & Hout).
  - simpl. apply (nth_ext _ _ 0 0 Hl). intros k _. apply Hout. simpl. tauto.
  - destruct est as [|e est]; [simpl in Hlen; lia|]. simpl.
    apply IH; [simpl in Hlen; lia|].
    split; [now rewrite !set_nth_length|].
    intros k Hk. destruct (Nat.eq_dec k i) as [->|Hne].
    + destruct (Nat.lt_ge_cases i (List.length a)) as [Hin | Hge].
      * rewrite !set_nth_same by lia. reflexivity.
      * rewrite !nth_overflow by (rewrite set_nth_length; lia). reflexivity.
    + rewrite !set_nth_other by exact Hne.
      apply Hout. simpl. intros [Heq | Hin]; [congruence | contradiction].
Qed.

Lemma forward_agree (A : list (list R)) (parameters : list Param) (n : nat)
    (idx : list nat) (td td' : list (list R)) :
  Forall2 (agree_outside idx) td td' ->
  forall est,
    List.length est = List.length idx ->
    forward A parameters n idx est td = forward A parameters n idx est td'.
Proof.
  induction 1 as [|a b td td' Hab Hrest IH]; intros est Hest; simpl.
  - reflexivity.
  - rewrite (fed_agree idx est a b) by (auto; lia).
    f_equal. apply IH. unfold read_back. apply length_map.
Qed.

Lemma agree_uniform (idx : list nat) (n : nat) (td td' : list (list R)) :
  Forall2 (agree_outside idx) td td' -> uniform n td -> uniform n td'.
Proof.
  unfold uniform. induction 1 as [|a b td td' (Hl & _) Hrest IH]; intros Hu.
  - constructor.
  - pose proof (Forall_inv Hu) as Ha. pose proof (Forall_inv_tail Hu) as Ht.
    simpl in Ha. constructor; [congruence | now apply IH].
Qed.

Lemma clamp_between (lo hi v : R) :
  lo <= hi -> lo <= state_mgr.clamp lo hi v <= hi.
Proof.
  intros Hlh. unfold state_mgr.clamp.
  destruct (Rlt_dec v lo); destruct (Rlt_dec hi _); lra.
Qed.

Lemma read_back_between (parameters : list Param) (n : nat) (p : list R)
    (idx : list nat) :
  Forall2 (fun i e =>
             forall prm, nth_error parameters i = Some prm ->
                         pmin prm <= pmax prm ->
                         pmin prm <= e <= pmax prm)
    idx (read_back parameters n idx p).
Proof.
  unfold read_back. induction idx as [|i idx IH]; simpl; constructor.
  - intros prm Hprm Hmm. rewrite Hprm. now apply clamp_between.
  - exact IH.
Qed.

(** X18: the feed-forward estimate on a training set of vectors of one
    length [n], with a matrix of that width and dependent-state positions
    that lie inside the vector, inside the parameter list and, counted
    from the end, inside the prediction.  The loop never raises and yields
    one prediction per training vector, each the product of the matrix
    with the training vector whose dependent entries have been overwritten
    by the running estimate: zeros for the first vector, afterwards the
    entries of the previous prediction, each held within the [min] and
    [max] of its parameter.  The logged dependent entries are never used:
    training sets that agree outside the dependent positions give the
    same predictions. *)
Theorem feed_forward_ignores_logged_dependent_states
    (A : list (list R)) (parameters : list Param) (idx : list nat)
    (traindata : list (list R)) (n : nat) :
  traindata <> [] ->
  uniform n traindata ->
  uniform n A ->
  List.length idx = List.length build_full_model.dependent_states ->
  Forall (fun i => (i < n <= i + List.length A)%nat
                   /\ (i < List.length parameters)%nat) idx ->
  let zeros := repeat 0 (List.length build_full_model.dependent_states) in
  let pred := forward A parameters n idx zeros traindata in
  build_full_model_estimate.feed_forward A parameters idx traindata = Ok pred
  /\ List.length pred = List.length traindata
  /\ uniform (List.length A) pred
  /\ (forall row rest, traindata = (row :: rest)%list ->
        hd [] pred = product A (fed idx zeros row))
  /\ (forall p,
        Forall2 (fun i e =>
                   forall prm, nth_error parameters i = Some prm ->
                               pmin prm <= pmax prm ->
                               pmin prm <= e <= pmax prm)
          idx (read_back parameters n idx p))
  /\ (forall traindata',
        Forall2 (agree_outside idx) traindata traindata' ->
        build_full_model_estimate.feed_forward A parameters idx traindata' = Ok pred).
Proof.
  intros Hne Hu HA Hidx Hfit zeros pred.
  assert (Hn : (0 < n)%nat).
  { destruct idx as [|i idx']; [discriminate|].
    inversion Hfit as [|? ? ((Hi & _) & _) _]. lia. }
  assert (Hz : List.length zeros = List.length idx).
  { unfold zeros. now rewrite repeat_length. }
  assert (Hrun : forall td, td <> [] -> uniform n td ->
             feed_forward A parameters idx td =
             Ok (forward A parameters n idx zeros td)).
  { intros td Hne' Hu'. unfold feed_forward.
    destruct td as [|first rest]; [contradiction|].
    change (index (first :: rest) 0) with (Ok first).
    rewrite bind_Ok. cbv beta zeta.
    assert (Hfirst : List.length first = n) by (inversion Hu'; assumption).
    rewrite Hfirst.
    destruct (estimate_from_spec A parameters idx n Hn HA Hfit (first :: rest)
                [] zeros [] Hu' Hz) as (v' & est' & Hok).
    fold zeros. rewrite Hok, bind_Ok. reflexivity. }
  split; [exact (Hrun traindata Hne Hu)|].
  destruct (forward_shape A parameters idx n traindata zeros) as (Hlen & Hshape).
  split; [exact Hlen|]. split; [exact Hshape|].
  split; [intros row rest ->; reflexivity|].
  split.
  - intros p. apply read_back_between.
  - intros td' Hagree.
    assert (Hne' : td' <> []).
    { intros Heq. rewrite Heq in Hagree. inversion Hagree. congruence. }
    pose proof (agree_uniform idx n _ _ Hagree Hu) as Hu'.
    rewrite (Hrun td' Hne' Hu'). f_equal. unfold pred.
    symmetry. now apply forward_agree.
Qed.

End FeedForward.

Section Report.
Import build_full_model build_full_model_estimate.
Context `{state_mgr.Collaborators}.
Variable is_flying : state_mgr.StateManager -> bool.

Lemma mean_cd_rows (coeff_ : list (list R)) :
  uniform 3 coeff_ -> coeff_ <> [] ->
  mean_cd coeff_ = Ok (mean (col 2 coeff_)).
Proof.
  intros Hu Hne. unfold mean_cd.
  rewrite (np_array_uniform 3 _ Hu), bind_Ok. cbv beta.
  rewrite (column_uniform 3 2 _ Hu Hne) by lia. reflexivity.
Qed.

(** X19: after a training pass that returned, the mean drag coefficient
    the script prints is the mean of the third column of the coefficient
    list, one value per training vector.  When no sample passed the
    airborne gate the coefficient list is empty and the report raises
    [IndexError], as the feed-forward estimate would on the empty training
    set. *)
Theorem report_needs_an_airborne_sample
    (imu_dt : R) (log : list build_full_model.LogRecord)
    (st : build_full_model.Pass) :
  build_full_model.training_pass is_flying imu_dt log = Ok st ->
  (build_full_model.traindata st = [] ->
   build_full_model_estimate.mean_cd (build_full_model.coeff st) = Raise IndexError
   /\ forall A parameters idx,
        build_full_model_estimate.feed_forward A parameters idx
          (build_full_model.traindata st) = Raise IndexError)
  /\ (build_full_model.traindata st <> [] ->
      build_full_model_estimate.mean_cd (build_full_model.coeff st) =
      Ok (mean (col 2 (build_full_model.coeff st)))
      /\ List.length (col 2 (build_full_model.coeff st)) =
         List.length (build_full_model.traindata st)).
Proof.
  intros Hpass. unfold training_pass in Hpass.
  destruct (train_from_outcomes is_flying log (start imu_dt) (start_named imu_dt)
              (start_well_shaped imu_dt))
    as [(st' & Hrun & _ & (Hlen & _ & Hc) & _) | (e & Hrun & _)];
    [|congruence].
  assert (st' = st) by congruence. subst st'.
  split.
  - intros Hnil. rewrite Hnil in Hlen |- *. simpl in Hlen.
    destruct (coeff st) as [|c rest]; [|discriminate].
    split; reflexivity.
  - intros Hne.
    assert (Hcne : coeff st <> []).
    { intros Hnil. rewrite Hnil in Hlen. simpl in Hlen.
      destruct (traindata st); [now apply Hne | discriminate]. }
    split; [now apply mean_cd_rows|].
    unfold col. now rewrite length_map.
Qed.

End Report.

(** ** The size of the noise *)

Section NoiseBound.

Lemma sinusoids_bound (T : list R) (t : R) (pts : list (R * R)) :
  forall j, Rabs (sinusoids T t pts j) <= amplitude pts.
Proof.
  induction pts as [|[freq amp] rest IH]; intros j; simpl.
  - rewrite Rabs_R0. lra.
  - eapply Rle_trans; [apply Rabs_triang|].
    apply Rplus_le_compat; [|apply IH].
    rewrite Rabs_mult.
    assert (Hs : Rabs (sin (nth j T 0 + t * 2 * PI * freq)) <= 1).
    { apply Rabs_le. pose proof (SIN_bound (nth j T 0 + t * 2 * PI * freq)). lra. }
    pose proof (Rabs_pos amp). nra.
Qed.

Lemma noise_sum_bound (T : list R) (t : R) (pts : list (R * R)) (v : R) :
  simulator.noise_sum T t pts 0 0 = Ok v -> Rabs v <= amplitude pts.
Proof.
  rewrite noise_sum_from_zero.
  destruct (Nat.leb _ _); [|discriminate].
  intros Hv. inversion Hv. apply sinusoids_bound.
Qed.

Lemma add_noise_from_bound (ps : list Param) (t : R) (next : list R) :
  forall (i : nat) (tr tr' : option (list R)) (g g' : Rng) (out : list R),
    simulator.add_noise_from ps t next i tr g = Ok (out, tr', g') ->
    forall k prm,
      (k < List.length next)%nat ->
      nth_error ps (i + k) = Some prm ->
      Rabs (nth k out 0 - nth k next 0) <= noise_amplitude prm.
Proof.
  induction next as [|v rest IH]; intros i tr tr' g g' out Hok k prm Hk Hprm;
    simpl in Hk; [lia|].
  simpl in Hok.
  bind_inv Hok as prm0 Eprm.
  unfold index in Eprm. destruct (nth_error ps i) as [prm1|] eqn:Hi; [|discriminate].
  inversion Eprm; subst prm1; clear Eprm.
  destruct (noise prm0) as [pts|] eqn:Hn.
  - destruct (simulator.phase_array tr g (List.length pts)) as [a g1].
    bind_inv Hok as sum Es. bind_inv Hok as st Est.
    destruct st as [[rest' tr1] g2]. inversion Hok; subst; clear Hok.
    destruct k as [|k]; simpl.
    + rewrite Nat.add_0_r in Hprm. assert (prm = prm0) by congruence. subst prm.
      unfold noise_amplitude. rewrite Hn.
      replace (v + sum - v) with sum by lra.
      exact (noise_sum_bound _ _ _ _ Es).
    + apply (IH _ _ _ _ _ _ Est k prm); [lia|].
      now replace (S i + k)%nat with (i + S k)%nat by lia.
  - bind_inv Hok as st Est.
    destruct st as [[rest' tr1] g2]. inversion Hok; subst; clear Hok.
    destruct k as [|k]; simpl.
    + rewrite Nat.add_0_r in Hprm. assert (prm = prm0) by congruence. subst prm.
      unfold noise_amplitude. rewrite Hn.
      replace (v - v) with 0 by lra. rewrite Rabs_R0. lra.
    + apply (IH _ _ _ _ _ _ Est k prm); [lia|].
      now replace (S i + k)%nat with (i + S k)%nat by lia.
Qed.

(** X21: the noise [add_noise] adds to an entry is bounded by the sum of
    the amplitude magnitudes of the spectrum of the parameter at the
    entry's position, whatever the time, the phases and the frequencies;
    entries of parameters without a spectrum are not changed. *)
Theorem noise_is_bounded_by_amplitudes
    (s : simulator.Simulator) (g g' : Rng) (next out : list R)
    (tr : option (list R)) (ps : list Param) :
  simulator.params s = Some ps ->
  simulator.add_noise s g next = Ok (out, tr, g') ->
  forall k prm,
    (k < List.length next)%nat ->
    nth_error ps k = Some prm ->
    Rabs (nth k out 0 - nth k next 0) <= noise_amplitude prm.
Proof.
  intros Hps Hok k prm Hk Hprm. unfold simulator.add_noise in Hok.
  rewrite Hps in Hok. cbv beta iota delta [attr] in Hok. rewrite bind_Ok in Hok.
  exact (add_noise_from_bound ps (simulator.time s) next 0 _ _ _ _ _ Hok
           k prm Hk Hprm).
Qed.

End NoiseBound.

(** ** The body velocity of the trigonometric branch *)

Section TrigGeometry.

Lemma cos_in_envelope (a : R) :
  - simulator.max_angle <= a <= simulator.max_angle -> 0 < cos a.
Proof.
  intros Ha. pose proof PI_RGT_0 as Hpi.
  unfold simulator.max_angle, constants.d2r in Ha.
  apply cos_gt_0; lra.
Qed.

(** X22: the body velocity the trigonometric branch rebuilds is
    [(cos(alpha), sin(beta), sin(alpha)) * airspeed] with both angles inside
    the envelope.  Its forward and vertical parts alone have the length of
    the airspeed, so the whole vector is at least as long as the airspeed
    and longer by the factor [sqrt(1 + sin(beta)^2)]; the forward part has
    the sign of the airspeed.  The branch writes the state manager's
    [alpha] and [beta] and leaves the simulator's own [alpha] and [beta]
    attributes as they were. *)
Theorem trig_branch_velocity_exceeds_airspeed
    (result : dict) (airspeed qbar : R) (s : simulator.Simulator)
    (sm : state_mgr.StateManager) (sa sb : R) :
  dict_get result "sin(alpha)" = Ok sa ->
  dict_get result "sin(beta)" = Ok sb ->
  qbar <> 0 ->
  exists rv,
    simulator.resolve_trig result airspeed qbar s sm = Ok rv
    /\ simulator.r_bvx rv * simulator.r_bvx rv
       + simulator.r_bvz rv * simulator.r_bvz rv = airspeed * airspeed
    /\ norm3 (simulator.r_bvx rv) (simulator.r_bvy rv) (simulator.r_bvz rv) =
       Rabs airspeed
       * sqrt (1 + sin (state_mgr.beta (simulator.r_mgr rv))
                   * sin (state_mgr.beta (simulator.r_mgr rv)))
    /\ Rabs airspeed <=
       norm3 (simulator.r_bvx rv) (simulator.r_bvy rv) (simulator.r_bvz rv)
    /\ (0 < airspeed -> 0 < simulator.r_bvx rv)
    /\ (airspeed < 0 -> simulator.r_bvx rv < 0)
    /\ simulator.r_alpha rv = simulator.alpha s
    /\ simulator.r_beta rv = simulator.beta s.
Proof.
  intros Ha Hb Hq.
  destruct (resolve_trig_spec result airspeed qbar s sm sa sb Ha Hb Hq)
    as (rv & Hok & Hal & Hbe & Hv & _).
  exists rv. split; [exact Hok|].
  injection Hv as Hx Hy Hz. rewrite Hx, Hy, Hz, Hbe.
  set (a := simulator.clamp_angle (asin (simulator.clamp_unit (sa / qbar)))) in *.
  set (b := simulator.clamp_angle (asin (simulator.clamp_unit (sb / qbar)))) in *.
  pose proof (sin2_cos2 a) as Hsc. unfold Rsqr in Hsc.
  assert (Hcos : 0 < cos a) by (apply cos_in_envelope, clamp_angle_bounds).
  assert (Hsq : cos a * airspeed * (cos a * airspeed)
                + sin b * airspeed * (sin b * airspeed)
                + sin a * airspeed * (sin a * airspeed) =
                (airspeed * airspeed) * (1 + sin b * sin b)).
  { replace (cos a * airspeed * (cos a * airspeed)
             + sin b * airspeed * (sin b * airspeed)
             + sin a * airspeed * (sin a * airspeed))
      with ((sin a * sin a + cos a * cos a + sin b * sin b) * (airspeed * airspeed))
      by ring.
    rewrite Hsc. ring. }
  assert (Hnorm : norm3 (cos a * airspeed) (sin b * airspeed) (sin a * airspeed) =
                  Rabs airspeed * sqrt (1 + sin b * sin b)).
  { unfold norm3. rewrite Hsq.
    rewrite sqrt_mult_alt by nra.
    fold (Rsqr airspeed). now rewrite sqrt_Rsqr_abs. }
  split.
  { replace (cos a * airspeed * (cos a * airspeed)
             + sin a * airspeed * (sin a * airspeed))
      with ((sin a * sin a + cos a * cos a) * (airspeed * airspeed)) by ring.
    rewrite Hsc. ring. }
  split; [exact Hnorm|]. split.
  { rewrite Hnorm.
    assert (H1 : 1 <= sqrt (1 + sin b * sin b)).
    { rewrite <- sqrt_1 at 1. apply sqrt_le_1_alt. nra. }
    pose proof (Rabs_pos airspeed). nra. }
  split; [intros Hpos; nra|]. split; [intros Hneg; nra|].
  unfold simulator.resolve_trig in Hok.
  bind_inv Hok as sa' Ea. bind_inv Hok as qa Eqa.
  bind_inv Hok as sb' Eb. bind_inv Hok as qb Eqb.
  bind_inv Hok as a' Easin. bind_inv Hok as b' Ebsin.
  inversion Hok; subst rv; simpl. auto.
Qed.

End TrigGeometry.

(** ** A loaded simulator stays loaded *)

Section UpdateFailures.
Context `{state_mgr.Collaborators}.

Lemma resolve_keeps_names (result : dict) (dt_ airspeed qbar : R)
    (s : simulator.Simulator) (sm : state_mgr.StateManager)
    (rv : simulator.Resolved) :
  simulator.resolve result dt_ airspeed qbar s sm = Ok rv ->
  same_names (simulator.r_mgr rv) sm.
Proof.
  unfold simulator.resolve. intros Hok.
  destruct (simulator.output_mode result).
  - unfold simulator.resolve_accel in Hok.
    bind_inv Hok as bax Ex. bind_inv Hok as bay Ey. bind_inv Hok as baz Ez.
    bind_inv Hok as vy Evy. bind_inv Hok as vz Evz. bind_inv Hok as k Ek.
    inversion Hok; subst; simpl. split; reflexivity.
  - unfold simulator.resolve_velocity in Hok.
    bind_inv Hok as vx Ex. bind_inv Hok as vy Ey. bind_inv Hok as vz Ez.
    inversion Hok; subst; simpl. split; reflexivity.
  - unfold simulator.resolve_trig in Hok.
    bind_inv Hok as sa Ea. bind_inv Hok as qa Eqa.
    bind_inv Hok as sb Eb. bind_inv Hok as qb Eqb.
    bind_inv Hok as a Easin. bind_inv Hok as b Ebsin.
    inversion Hok; subst; simpl. split; reflexivity.
  - inversion Hok; subst; simpl. split; reflexivity.
Qed.

Lemma advance_keeps_names (s s' : simulator.Simulator) (result : dict)
    (tr : option (list R)) :
  simulator.advance s result tr = Ok s' ->
  same_names (simulator.state_mgr s') (simulator.state_mgr s).
Proof.
  unfold simulator.advance. intros Hok.
  bind_inv Hok as airspeed Ea.
  bind_inv Hok as dt_ Edt.
  bind_inv Hok as rv Erv.
  bind_inv Hok as p_ Ep.
  bind_inv Hok as q_ Eq.
  bind_inv Hok as r_ Er.
  bind_inv Hok as acc Eacc.
  destruct acc as [[[ax_ ay_] az_] sm].
  destruct (resolve_keeps_names _ _ _ _ _ _ _ Erv) as (Hi & Hd).
  simpl in Hi, Hd.
  assert (Hsm : same_names sm (simulator.state_mgr s)).
  { unfold simulator.resolve_accels in Eacc.
    destruct (dict_has result "ax").
    - bind_inv Eacc as x_ Ex. bind_inv Eacc as y_ Ey. bind_inv Eacc as z_ Ez.
      inversion Eacc; subst. simpl. split; assumption.
    - inversion Eacc; subst. simpl. split; assumption. }
  destruct Hsm as (Hi' & Hd').
  destruct (state_mgr.quat2eul _) as [[phi the] psi] eqn:Heul.
  destruct (state_mgr.backTransform _ _) as [[vn ve] vd] eqn:Hvel.
  destruct (body_frame_values_names false
              (state_mgr.set_orientation phi the psi sm)) as (Hc1 & Hc2).
  simpl in Hc1, Hc2.
  inversion Hok; subst s'; clear Hok. unfold same_names. simpl.
  rewrite Hc1, Hc2. split; assumption.
Qed.

Lemma update_ready (s s' : simulator.Simulator) (g g' : Rng) :
  ready s -> simulator.update s g = Ok (s', g') -> ready s'.
Proof.
  intros (ps & a & d & Hps & Ha & Hd & Hu & Hlen) Hup.
  apply update_inv in Hup. destruct Hup as (result & tr & _ & Hadv).
  destruct (advance_keeps_names _ _ _ _ Hadv) as (Hi & Hdn).
  destruct (advance_sample _ _ _ _ Hadv)
    as (dt_ & row & _ & _ & _ & _ & _ & _ & _ & _ & _ & HA & Hdt & Hp & _).
  exists ps, a, d.
  split; [congruence|]. split; [congruence|]. split; [congruence|].
  split; [exact Hu|].
  unfold state_mgr.state_list in *. now rewrite Hi, Hdn.
Qed.

Lemma run_ready (n : nat) :
  forall (s s' : simulator.Simulator) (g g' : Rng),
    ready s -> simulator.run n s g = Ok (s', g') -> ready s'.
Proof.
  induction n as [|n IH]; intros s s' g g' Hready Hrun; simpl in Hrun.
  - inversion Hrun; subst. exact Hready.
  - bind_inv Hrun as st Eup. destruct st as [s1 g1].
    apply (IH s1 s' g1 g'); [|exact Hrun].
    exact (update_ready s s1 g g1 Hready Eup).
Qed.

(** X20: a simulator that has loaded a model is ready, and stays ready
    under [update], [reset] and any run: the model attributes are set,
    the matrix has one column per parameter and the state manager one
    state name per parameter.  On a ready simulator the product
    [A @ state] is defined for every vector with one entry per state name
    and has one entry per row of [A].  On a simulator that has loaded
    nothing, a freshly constructed one included, [update] raises
    [AttributeError]: [self.params] is assigned by [load] only. *)
Theorem loaded_simulator_stays_ready :
  (forall model s0 s, simulator.load model s0 = Ok s -> ready s)
  /\ (forall s g s' g', ready s -> simulator.update s g = Ok (s', g') -> ready s')
  /\ (forall s, ready s -> ready (simulator.reset s))
  /\ (forall n s g s' g', ready s -> simulator.run n s g = Ok (s', g') -> ready s')
  /\ (forall s a state,
        ready s ->
        simulator.A s = Some a ->
        List.length state =
          List.length (state_mgr.state_list (simulator.state_mgr s)) ->
        exists next, matvec a state = Ok next
                     /\ List.length next = List.length a)
  /\ (forall s g, simulator.params s = None ->
                  simulator.update s g = Raise AttributeError)
  /\ (forall g, simulator.update simulator.new g = Raise AttributeError).
Proof.
  split; [|split; [|split; [|split; [|split; [|split]]]]].
  - intros model s0 s Hload. unfold simulator.load, reshape in Hload.
    destruct (Nat.eqb _ _) eqn:Hlen; [|discriminate].
    apply Nat.eqb_eq in Hlen. simpl in Hload. inversion Hload; subst s; clear Hload.
    unfold ready. simpl. do 3 eexists.
    split; [reflexivity|]. split; [reflexivity|]. split; [reflexivity|]. split.
    + unfold uniform. apply Forall_forall. intros row Hin.
      now apply (chunks_row_length _ _ _ Hlen).
    + unfold state_mgr.state_list. simpl. rewrite length_app. apply names_partition.
  - intros s g s' g' Hready Hup. exact (update_ready s s' g g' Hready Hup).
  - intros s (ps & a & d & Hps & Ha & Hd & Hu & Hlen).
    exists ps, a, d. rewrite (reset_state_mgr s), (reset_normal_form s). simpl.
    auto.
  - intros n s g s' g' Hready Hrun. exact (run_ready n s s' g g' Hready Hrun).
  - intros s a state (ps & a' & d & Hps & Ha & Hd & Hu & Hlen) HA Hstate.
    assert (a' = a) by congruence. subst a'.
    apply matvec_fits. intros row Hin.
    unfold uniform in Hu. rewrite Forall_forall in Hu.
    rewrite (Hu row Hin). congruence.
  - intros s g Hnone. unfold simulator.update, simulator.predict.
    rewrite Hnone. reflexivity.
  - intros g. unfold simulator.update, simulator.predict.
    change (simulator.params simulator.new) with (@None (list Param)).
    reflexivity.
Qed.

End UpdateFailures.

(* ================================================================== *)
(** * Instances of the further properties *)

Section MoreInstances.
Import examples samples.

Lemma steady_step :
  exists result tr g' s',
    simulator.predict
      (simulator.reset (loaded airspeed_and_rates steady)) quarters =
    Ok (result, tr, g')
    /\ simulator.update (H := reference)
         (simulator.reset (loaded airspeed_and_rates steady)) quarters =
       Ok (s', g').
Proof.
  assert (Hp : exists result tr g' a p_ q_ r_,
             simulator.predict
               (simulator.reset (loaded airspeed_and_rates steady)) quarters =
             Ok (result, tr, g')
             /\ simulator.resolve_airspeed result = Ok a
             /\ simulator.output_mode result = simulator.NoOutput
             /\ dict_get result "p" = Ok p_
             /\ dict_get result "q" = Ok q_
             /\ dict_get result "r" = Ok r_
             /\ dict_has result "ax" = false).
  { do 7 eexists.
    split; [unfold simulator.predict, loaded; simpl; reflexivity|].
    do 2 (split; [reflexivity|]). do 3 (split; [simpl; reflexivity|]).
    reflexivity. }
  destruct Hp as (result & tr & g' & a & p_ & q_ & r_ & Hpred & Ha & Hmode
                  & Hp & Hq & Hr & Hax).
  destruct (update_runs_no_output (H := reference) _ _ _ _ _ _ (1 / 100) _ _ _
              Hpred Ha eq_refl Hmode Hp Hq Hr Hax) as (s' & Hup).
  exists result, tr, g', s'. auto.
Qed.

(** X1, witness: the first update after [reset] of the steady model. *)
Lemma update_appends_one_sample_witness :
  exists s' g' dt_ row,
    simulator.update (H := reference)
      (simulator.reset (loaded airspeed_and_rates steady)) quarters = Ok (s', g')
    /\ simulator.dt (simulator.reset (loaded airspeed_and_rates steady)) = Some dt_
    /\ simulator.data s' =
       (simulator.data (simulator.reset (loaded airspeed_and_rates steady))
        ++ [row])%list
    /\ List.length row = 20%nat.
Proof.
  destruct steady_step as (result & tr & g' & s' & _ & Hup).
  destruct (update_appends_one_sample (H := reference) _ _ _ _ Hup)
    as (dt_ & row & Hdt & _ & Hdata & Hlen & _).
  exists s', g', dt_, row. auto.
Defined.

(** X2, witness: one update of the steady model from [reset]. *)
Lemma run_advances_time_and_trajectory_witness :
  exists s' g',
    simulator.run (H := reference) 1
      (simulator.reset (loaded airspeed_and_rates steady)) quarters = Ok (s', g')
    /\ simulator.time s' = INR 1 * (1 / 100)
    /\ List.length (simulator.data s') = 1%nat.
Proof.
  destruct steady_step as (result & tr & g' & s' & _ & Hup).
  pose proof (run_one (H := reference) _ _ _ _ Hup) as Hrun.
  exists s', g'. split; [exact Hrun|].
  destruct (run_advances_time_and_trajectory (H := reference) 1
              (simulator.reset (loaded airspeed_and_rates steady)) s'
              quarters g' (1 / 100) eq_refl Hrun)
    as (_ & _ & _ & _ & _ & _ & _ & _ & _ & _ & Hreset).
  destruct (Hreset (loaded airspeed_and_rates steady) eq_refl) as (Ht & Hl & _).
  auto.
Defined.

(** X4, witness: the same step; the model has an airspeed output. *)
Lemma step_airspeed_source_witness :
  exists result tr g1 s' g' row,
    simulator.predict
      (simulator.reset (loaded airspeed_and_rates steady)) quarters =
    Ok (result, tr, g1)
    /\ simulator.update (H := reference)
         (simulator.reset (loaded airspeed_and_rates steady)) quarters =
       Ok (s', g')
    /\ simulator.data s' =
       (simulator.data (simulator.reset (loaded airspeed_and_rates steady))
        ++ [row])%list
    /\ simulator.sample_airspeed row = simulator.airspeed_mps s'.
Proof.
  destruct steady_step as (result & tr & g' & s' & Hpred & Hup).
  destruct (step_airspeed_source (H := reference) _ _ _ _ _ _ _ Hpred Hup)
    as (_ & _ & row & Hdata & Hrow).
  exists result, tr, g', s', g', row. auto.
Defined.

(** X7, witness: an acceleration of 1 along the body x axis at an airspeed
    of 10. *)
Lemma accel_branch_flow_angles_witness :
  exists rv,
    simulator.resolve_accel accelerating (1 / 100) 10 simulator.new
      state_mgr.init = Ok rv
    /\ 0 < simulator.r_bvx rv.
Proof.
  destruct (accel_branch_flow_angles accelerating (1 / 100) 10 simulator.new
              state_mgr.init 1 0 0 eq_refl eq_refl eq_refl)
    as (rv & Hok & Hpos & _).
  exists rv. split; [exact Hok|].
  apply Hpos. lra.
Defined.

(** X8, witness: a model file with one independent and two dependent
    parameters. *)
Lemma load_fixes_names_and_shapes_witness :
  exists s',
    simulator.load mixed_model simulator.new = Ok s'
    /\ state_mgr.ind_states (simulator.state_mgr s') = ["throttle"]
    /\ state_mgr.dep_states (simulator.state_mgr s') = ["airspeed"; "p"]
    /\ List.length (state_mgr.state_list (simulator.state_mgr s')) = 3%nat.
Proof.
  assert (Hload : is_ok (simulator.load mixed_model simulator.new) = true)
    by reflexivity.
  destruct (is_ok_inv _ Hload) as (s' & Hs').
  exists s'. split; [exact Hs'|].
  destruct (load_fixes_names_and_shapes mixed_model simulator.new s' Hs')
    as (Hi & Hd & _ & Hlen & _).
  auto.
Defined.

Lemma steady_is_quiet (k : nat) (prm : Param) :
  (k < 2)%nat -> nth_error airspeed_and_rates k = Some prm -> noise prm = None.
Proof.
  intros Hk Hprm. destruct k as [|[|k]]; [| |lia];
    simpl in Hprm; inversion Hprm; reflexivity.
Qed.

(** X9, witness: the steady model has no noise spectrum; two entries pass
    through unchanged and nothing is drawn. *)
Lemma add_noise_touches_only_noisy_entries_witness :
  simulator.add_noise (loaded airspeed_and_rates steady) quarters [1; 2] =
  Ok ([1; 2], simulator.trand (loaded airspeed_and_rates steady), quarters).
Proof.
  apply (proj1 (proj2 (add_noise_touches_only_noisy_entries
                         (loaded airspeed_and_rates steady) quarters [1; 2]
                         airspeed_and_rates eq_refl))).
  - simpl. lia.
  - exact steady_is_quiet.
Defined.

(** X10, witness: the solver that stops at the initial guess; the value
    printed as "phi:" is the rudder entry, and the entry 0.08 is not
    printed. *)
Lemma trim_prints_rudder_as_phi_witness :
  exists s1 out,
    simulator.trim (H := reference) one_shot 15 (loaded trimmable identity7) =
    Ok (None, s1,
        (out ++ simulator.PrintRes simulator.initial false
             :: trim_report (1 / 2) 0 0 0 0)%list).
Proof.
  destruct one_shot_solves as (s1 & out & Hsolve).
  exists s1, out.
  exact (proj1 (trim_prints_rudder_as_phi (H := reference) one_shot 15
                  (loaded trimmable identity7) s1 _ out Hsolve)
           (1 / 2) 0 0 0 0 [8 / 100] eq_refl).
Defined.

(** X11, witness: on a freshly constructed simulator the empty trial
    point raises [IndexError] and the initial guess of [trim], six
    entries, raises [AttributeError]. *)
Lemma trim_error_reads_point_then_target_witness :
  simulator.trim_error (H := reference) [] (simulator.new, []) =
  Raise IndexError
  /\ simulator.trim_error (H := reference) simulator.initial
       (simulator.new, []) = Raise AttributeError.
Proof.
  split.
  - apply (proj1 (trim_error_reads_point_then_target (H := reference)
                    [] simulator.new [])).
    simpl. lia.
  - apply (proj1 (proj2 (trim_error_reads_point_then_target (H := reference)
                           simulator.initial simulator.new []))).
    + simpl. lia.
    + reflexivity.
Defined.

(** X15, witness: wind from the east at 10 knots. *)
Lemma air_group_sets_airspeed_and_wind_witness :
  exists sm' wn we,
    build_full_model.on_air windy_record None state_mgr.init =
    Ok (sm', Some (wn, we, 0))
    /\ wn * wn + we * we =
       (10 * constants.kt2mps) * (10 * constants.kt2mps).
Proof.
  destruct (air_group_sets_airspeed_and_wind windy_record
              (build_full_model.mkAirPt 40 None (Some 90) (Some 10))
              None state_mgr.init eq_refl)
    as (_ & _ & Hwind & _).
  destruct (Hwind 90 10 eq_refl eq_refl) as (sm' & wn & we & Hok & _ & _ & Hlen).
  exists sm', wn, we. auto.
Defined.

Lemma windy_ingest :
  is_ok (build_full_model.ingest (build_full_model.start (1 / 100)) windy_record)
  = true.
Proof. reflexivity. Qed.

(** X16, witness: the first record of a log carries gyro biases in its
    [filter] group; its own rates are stored as logged. *)
Lemma gyro_bias_comes_from_earlier_filter_witness :
  exists sm nav w,
    build_full_model.ingest (build_full_model.start (1 / 100)) windy_record =
    Ok (sm, nav, w)
    /\ state_mgr.gyros sm = (1 / 10, 2 / 10, 3 / 10).
Proof.
  destruct (is_ok_inv _ windy_ingest) as ([[sm nav] w] & Hing).
  exists sm, nav, w. split; [exact Hing|].
  destruct (gyro_bias_comes_from_earlier_filter
              (build_full_model.start (1 / 100)) windy_record
              (build_full_model.mkImuPt 0 (1 / 10) (2 / 10) (3 / 10))
              sm nav w eq_refl Hing)
    as (_ & Hraw & _).
  exact (Hraw eq_refl).
Defined.

(** X17, witness: the trajectory after one update of the steady model. *)
Lemma plot_draws_down_velocity_as_position_witness :
  exists s' g' f1 f2 f3 f4 t series,
    simulator.run (H := reference) 1
      (simulator.reset (loaded airspeed_and_rates steady)) quarters = Ok (s', g')
    /\ simulator_plot.plot (simulator.data s') =
       Ok [ f1; f2; f3; f4;
            [simulator_plot.mkSeries "Pos 'down' (m)" t series] ]
    /\ last series 0 = down (simulator.vel_ned s').
Proof.
  destruct steady_step as (result & tr & g' & s' & _ & Hup).
  pose proof (run_one (H := reference) _ _ _ _ Hup) as Hrun.
  destruct (plot_draws_down_velocity_as_position (H := reference) 0
              (loaded airspeed_and_rates steady) s' quarters g' Hrun)
    as ((f1 & f2 & f3 & f4 & t & series & Hplot & _ & _ & _ & _ & Hlast & _) & _).
  exists s', g', f1, f2, f3, f4, t, series. auto.
Defined.

Lemma two_vectors_fit :
  two_vectors <> []
  /\ uniform 8 two_vectors
  /\ uniform 8 seven_by_eight
  /\ Forall (fun i => (i < 8 <= i + List.length seven_by_eight)%nat
                      /\ (i < List.length eight)%nat) last_seven.
Proof.
  split; [discriminate|].
  split; [repeat constructor|]. split; [repeat constructor|].
  unfold last_seven, seven_by_eight, eight. rewrite !repeat_length.
  repeat constructor; lia.
Qed.

(** X18, witness: two training vectors of eight states whose seven
    dependent entries are all 9; the first prediction is made from the
    vector with zeros in their place. *)
Lemma feed_forward_ignores_logged_dependent_states_witness :
  exists pred,
    build_full_model_estimate.feed_forward seven_by_eight eight last_seven
      two_vectors = Ok pred
    /\ List.length pred = 2%nat.
Proof.
  destruct two_vectors_fit as (Hne & Hu & HA & Hfit).
  destruct (feed_forward_ignores_logged_dependent_states
              seven_by_eight eight last_seven two_vectors 8
              Hne Hu HA eq_refl Hfit)
    as (Hrun & Hlen & _).
  eexists. split; [exact Hrun | exact Hlen].
Defined.

Lemma grounded_pass :
  is_ok (build_full_model.training_pass (H := reference) never_flying (1 / 100)
           taxi_log) = true.
Proof. reflexivity. Qed.

Lemma grounded_pass_is_empty (st : build_full_model.Pass) :
  build_full_model.training_pass (H := reference) never_flying (1 / 100)
    taxi_log = Ok st ->
  build_full_model.traindata st = [].
Proof.
  unfold build_full_model.training_pass, taxi_log.
  cbn [build_full_model.train_from].
  unfold build_full_model.train_step at 1.
  change (Nat.eqb (build_full_model.record_len (taxi_record 0)) 0) with false.
  cbv iota.
  destruct (build_full_model.ingest (build_full_model.start (1 / 100))
              (taxi_record 0)) as [[[sm nav] w]|e]; [|discriminate].
  rewrite bind_Ok. cbv beta iota zeta. unfold never_flying at 1. cbv iota.
  rewrite bind_Ok.
  unfold build_full_model.train_step at 1.
  change (Nat.eqb (build_full_model.record_len (taxi_record (1 / 100))) 0)
    with false.
  cbv iota.
  destruct (build_full_model.ingest _ (taxi_record (1 / 100)))
    as [[[sm2 nav2] w2]|e]; [|discriminate].
  rewrite bind_Ok. cbv beta iota zeta. unfold never_flying at 1. cbv iota.
  rewrite bind_Ok. intros Hst. inversion Hst. reflexivity.
Qed.

(** X19, witness: a log of two taxi records under a gate that never
    holds; the report raises. *)
Lemma report_needs_an_airborne_sample_witness :
  exists st,
    build_full_model.training_pass (H := reference) never_flying (1 / 100)
      taxi_log = Ok st
    /\ build_full_model_estimate.mean_cd (build_full_model.coeff st) =
       Raise IndexError.
Proof.
  destruct (is_ok_inv _ grounded_pass) as (st & Hst).
  exists st. split; [exact Hst|].
  exact (proj1 (proj1 (report_needs_an_airborne_sample (H := reference)
                         never_flying (1 / 100) taxi_log st Hst)
                  (grounded_pass_is_empty st Hst))).
Defined.

Lemma noisy_rates_call :
  is_ok (simulator.add_noise (loaded noisy_rates steady) quarters [10; 0; 0; 0])
  = true.
Proof. reflexivity. Qed.

(** X21, witness: the roll rate of the model [noisy_rates] has two
    sinusoids of amplitude 1; the noise on it is at most 2. *)
Lemma noise_is_bounded_by_amplitudes_witness :
  exists out tr g',
    simulator.add_noise (loaded noisy_rates steady) quarters [10; 0; 0; 0] =
    Ok (out, tr, g')
    /\ Rabs (nth 1 out 0 - nth 1 [10; 0; 0; 0] 0) <=
       noise_amplitude (noisy "p" [(0, 1); (0, 1)]).
Proof.
  destruct (is_ok_inv _ noisy_rates_call) as ([[out tr] g'] & Hok).
  exists out, tr, g'. split; [exact Hok|].
  apply (noise_is_bounded_by_amplitudes (loaded noisy_rates steady) quarters g'
           [10; 0; 0; 0] out tr noisy_rates eq_refl Hok 1%nat).
  - simpl. lia.
  - reflexivity.
Defined.

(** X22, witness: zero [sin(alpha)] and [sin(beta)] outputs at an airspeed
    of 10 and a dynamic pressure of 1. *)
Lemma trig_branch_velocity_exceeds_airspeed_witness :
  exists rv,
    simulator.resolve_trig level 10 1 simulator.new state_mgr.init = Ok rv
    /\ 0 < simulator.r_bvx rv
    /\ Rabs 10 <=
       norm3 (simulator.r_bvx rv) (simulator.r_bvy rv) (simulator.r_bvz rv).
Proof.
  destruct (trig_branch_velocity_exceeds_airspeed level 10 1 simulator.new
              state_mgr.init 0 0 eq_refl eq_refl R1_neq_R0)
    as (rv & Hok & _ & _ & Hlen & Hpos & _).
  exists rv. split; [exact Hok|]. split; [apply Hpos; lra | exact Hlen].
Defined.

End MoreInstances.
